(** * Session transport and history reconciliation of the web UI

    A shallow embedding of the client code in
    [code-rs/webui/src/app/App.vue] (the reactive refs and the callbacks
    that mutate them) and of [api/rollout.ts] ([parseHistoryItems]).

    Conventions.
    - A reactive [ref] is a field of the record [State]; a callback is a
      function [State -> State].  [x.value = v] is the record update
      [s <| x := v |>].
    - JSON payloads ([any] in the source) are values of [json]; property
      reads, truthiness, [||], [??] and string conversion are written out.
    - JS numbers that carry line indices are integers ([Z]).
    - [window.setTimeout] appends to the field [timers]; [clearTimeout]
      removes by handle; a callback of a timer is a constructor of
      [TimerAction], run by [fireTimer].
    - [ws.send] appends to the field [outbox], tagged with the channel.
    - A thrown [TypeError] is the result [None] of [parseHistoryItems] and
      the outcome [Threw] of a handler; the [try]/[catch] of the message
      handlers is [caught].
    - [JSON.stringify] is a variable of the section [Host]; the suffix
      drawn from [Math.random] and the clock are arguments. *)

From Stdlib Require Import ZArith String Ascii List Bool Lia DecimalString.
From stdpp Require Import base gmap sets list strings.
From coqutil Require Import Datatypes.RecordSetters.
Import TriangleBracketNotations.

Local Open Scope Z_scope.
Local Open Scope string_scope.
Local Set Warnings "-register-all".

(** ** JSON values and the JavaScript primitives the code uses *)

Inductive json : Type :=
| JUndefined
| JNull
| JBool (b : bool)
| JNum (n : Z)
| JStr (s : string)
| JArr (xs : list json)
| JObj (fields : list (string * json)).

(** [Boolean(v)]. *)
Definition truthy (v : json) : bool :=
  match v with
  | JUndefined | JNull => false
  | JBool b => b
  | JNum n => negb (n =? 0)%Z
  | JStr s => negb (String.eqb s "")
  | JArr _ | JObj _ => true
  end.

Fixpoint assoc (k : string) (fields : list (string * json)) : json :=
  match fields with
  | [] => JUndefined
  | (k', v) :: rest => if String.eqb k k' then v else assoc k rest
  end.

(** [v.k] for the keys the code reads ([id], [msg], [type], ...): a property
    of an object, [undefined] on every other non-nullish value. *)
Definition prop (k : string) (v : json) : json :=
  match v with
  | JObj fields => assoc k fields
  | _ => JUndefined
  end.

(** [a || b] and [a ?? b]. *)
Definition js_or (a b : json) : json := if truthy a then a else b.

Definition nullish (v : json) : bool :=
  match v with JUndefined | JNull => true | _ => false end.

Definition js_coalesce (a b : json) : json := if nullish a then b else a.

(** [v === "lit"]. *)
Definition is_str (v : json) (lit : string) : bool :=
  match v with JStr s => String.eqb s lit | _ => false end.

Definition isArray (v : json) : bool :=
  match v with JArr _ => true | _ => false end.

(** [typeof v === "object"] (true of [null]). *)
Definition typeof_object (v : json) : bool :=
  match v with JNull | JArr _ | JObj _ => true | _ => false end.

Definition string_of_Z (n : Z) : string := NilZero.string_of_int (Z.to_int n).

(** A printer of JSON values (compact, strings between double quotes as
    they are): the instance of the host's [JSON.stringify] at which the
    model is run on concrete inputs. *)
Definition quoted (s : string) : string :=
  String "034" (s ++ String "034" "").

Fixpoint print_json (v : json) : string :=
  match v with
  | JUndefined => "undefined"
  | JNull => "null"
  | JBool true => "true"
  | JBool false => "false"
  | JNum n => string_of_Z n
  | JStr s => quoted s
  | JArr xs => "[" ++ String.concat "," (List.map print_json xs) ++ "]"
  | JObj fields =>
      "{" ++ String.concat ","
               (List.map (fun kv => quoted (fst kv) ++ ":" ++ print_json (snd kv)) fields)
          ++ "}"
  end.

(** [String(v)], also the conversion of a template literal. *)
Fixpoint toString (v : json) : string :=
  match v with
  | JUndefined => "undefined"
  | JNull => "null"
  | JBool true => "true"
  | JBool false => "false"
  | JNum n => string_of_Z n
  | JStr s => s
  | JArr xs =>
      String.concat ","
        (List.map (fun x => if nullish x then "" else toString x) xs)
  | JObj _ => "[object Object]"
  end.

(** [xs.join(sep)] on an array of JSON values. *)
Definition join (sep : string) (xs : list json) : string :=
  String.concat sep (List.map (fun x => if nullish x then "" else toString x) xs).

(** [s.replace(/_/g, " ")]. *)
Fixpoint replace_underscores (s : string) : string :=
  match s with
  | EmptyString => EmptyString
  | String c rest =>
      String (if Ascii.eqb c "_"%char then " "%char else c) (replace_underscores rest)
  end.

Definition opt_str (o : option string) : string := default "" o.

(** The separator of [lines.join("\n\n")]: two line feeds. *)
Definition blank_line : string := String "010" (String "010" "").

(** ** The data model ([api/types]) *)

Inductive TimelineKind := assistant | user | system | tool | exec | diff | review.

Definition kind_name (k : TimelineKind) : string :=
  match k with
  | assistant => "assistant" | user => "user" | system => "system"
  | tool => "tool" | exec => "exec" | diff => "diff" | review => "review"
  end.

Definition kind_eqb (a b : TimelineKind) : bool :=
  String.eqb (kind_name a) (kind_name b).

Inductive Origin := history | event.

Definition is_origin (o : option Origin) (x : Origin) : bool :=
  match o, x with
  | Some history, history | Some event, event => true
  | _, _ => false
  end.

(** [TimelineItem]: an absent optional property is [None] ([JUndefined] for
    the two properties that hold a value read from the payload as it is). *)
Module Item.
Record t := mk {
  id : string;
  kind : TimelineKind;
  subkind : option string;
  title : json;
  text : option string;
  imageUrl : json;
  meta : option string;
  index : option Z;
  eventKey : option string;
  origin : option Origin;
}.
End Item.

#[global] Instance set_item_text : Setter Item.text := ltac:(setter Item.t (option string) Item.text).
#[global] Instance set_item_eventKey : Setter Item.eventKey := ltac:(setter Item.t (option string) Item.eventKey).
#[global] Instance set_item_origin : Setter Item.origin := ltac:(setter Item.t (option Origin) Item.origin).

(** [RolloutEntry] and [HistoryLine]: [value] is the optional nested entry
    that [extractEntry] prefers to the line itself. *)
Record RolloutEntry := mkEntry {
  entry_type : string;
  entry_payload : json;
}.

Module Line.
Record t := mk {
  index : option Z;
  type : string;
  payload : json;
  value : option RolloutEntry;
}.
End Line.

Definition extractEntry (line : Line.t) : RolloutEntry :=
  match Line.value line with
  | Some e => e
  | None => mkEntry (Line.type line) (Line.payload line)
  end.

(** [eventKeyFromPayload] (the same function in App.vue and rollout.ts). *)
Definition eventKeyFromPayload (payload : json) : option string :=
  if negb (truthy payload) then None
  else
    let id := match prop "id" payload with JStr s => s | _ => "" end in
    let seq := prop "event_seq" payload in
    if String.eqb id "" && nullish seq then None
    else Some (id ++ ":" ++ (if nullish seq then "" else toString seq)).

Definition roleToKind (role : json) : TimelineKind :=
  if is_str role "assistant" then assistant
  else if is_str role "user" then user
  else if is_str role "system" || is_str role "developer" then system
  else if is_str role "tool" then tool
  else assistant.

Definition option_Z_eqb (a b : option Z) : bool :=
  match a, b with
  | Some x, Some y => (x =? y)%Z
  | None, None => true
  | _, _ => false
  end.

Definition makeId (index : option Z) (suffix : string) : string :=
  match index with Some i => string_of_Z i | None => "unknown" end
  ++ "-" ++ suffix.

(** ** The state of App.vue *)

Inductive ReadyState := CONNECTING | OPEN | CLOSING | CLOSED.

Definition is_open (ws : option ReadyState) : bool :=
  match ws with Some OPEN => true | _ => false end.

(** [historyMode] ("tail" | "head") and [HistoryWsMode] ("initial" | "stream"). *)
Inductive HistoryMode := mode_tail | mode_head.
Inductive HistoryWsMode := ws_initial | ws_stream.

(** [HistoryRequestPayload]. *)
Module Req.
Record t := mk {
  before : option Z;
  after : option Z;
  anchor : option string;
  limit : option Z;
}.
End Req.

(** The message of [handleHistoryChunk]; an absent or [null] field is
    [None], an absent [truncated] is [false]. *)
Module Chunk.
Record t := mk {
  items : list Line.t;
  start_index : option Z;
  end_index : option Z;
  truncated : bool;
  before : option Z;
  after : option Z;
  anchor : option string;
}.
End Chunk.

(** The message of [handleSnapshot]. *)
Module Snapshot.
Record t := mk {
  rollout : list Line.t;
  start_index : option Z;
  end_index : option Z;
  truncated : bool;
}.
End Snapshot.

(** The fields of [SessionSummary] that the engine reads. *)
Record SessionSummary := mkSession {
  conversation_id : string;
  message_count : option Z;
}.

Inductive Channel := StreamWs | HistoryWs | ControlWs.

(** The envelopes the engine sends. *)
Inductive Envelope :=
| history_request (request : Req.t) (rollout : option string)
| resume_conversation (id : string)
| list_conversations (limit : Z).

(** What one run of the history watcher captures in its closures: the
    target of the socket.  (Its flags [closed] and [retries], and [opened]
    of each socket, are arguments of [historyOnClose].) *)
Record HistoryRun := mkRun {
  run_url : string;
  run_id : string;
  run_token : string;
}.

(** The callbacks handed to [window.setTimeout]. *)
Inductive TimerAction :=
| ResumeAttempt (id : string)
| PrimeHistoryTimer
| PrimeFillTimer (startIndex : Z) (remaining : Z)
| StreamRetryTimer
| HistoryRetryTimer (run : HistoryRun)
| HistoryConnectTimer (run : HistoryRun)
| HistoryBackoffTimer (run : HistoryRun).

Record Timer := mkTimer {
  handle : nat;
  delay : Z;
  action : TimerAction;
}.

Record Handshake := mkHandshake {
  hs_id : string;
  hs_token : string;
  hs_at : Z;
}.

Record State := mkState {
  token : string;
  sessions : list SessionSummary;
  sessionsLoading : bool;
  activeId : option string;
  items : list Item.t;
  status : string;
  error : option string;
  loading : bool;
  hasMoreBefore : bool;
  hasMoreAfter : bool;
  historyStart : option Z;
  historyEnd : option Z;
  sending : bool;
  historyMode : HistoryMode;
  runtimeId : option string;
  sessionLoading : bool;
  wsRef : option ReadyState;
  wsRetryRef : option nat;
  historyWsRef : option ReadyState;
  historyHandshakeRef : option Handshake;
  historyRetryRef : option nat;
  pendingHistoryRequests : list Req.t;
  historyWsDisabledRef : bool;
  historyWsAttemptRef : Z;
  historyWsUrlRef : option string;
  historyConnectTimerRef : option nat;
  historyWsModeRef : HistoryWsMode;
  historyInitialSessionRef : option string;
  historyActiveTokenRef : option string;
  knownSessionIdsRef : gset string;
  lastRequestedSessionRef : option string;
  historyWsBackoffRef : Z;
  lastIndexRef : option Z;
  seenLineIndexRef : gset Z;
  liveIndexRef : option Z;
  seenEventRef : gset string;
  reasoningIdRef : option string;
  controlWsRef : option ReadyState;
  pendingSessionsRef : bool;
  pendingControlMessages : list Envelope;
  pendingResumeRef : option string;
  lazyHistory : bool;
  lazyHistoryReady : bool;
  historyPrimed : bool;
  primeHistoryTimerRef : option nat;
  primeHistoryInFlightRef : bool;
  primeFillTimerRef : option nat;
  primeFillInFlightRef : bool;
  primeFillExpectedBeforeRef : option Z;
  taskActiveRef : bool;
  activityLabelRef : option string;
  activeExecCountRef : Z;
  activeToolCountRef : Z;
  (* the host: pending timers, the next handle, what was sent, and the
     [localStorage] key "codeGatewayLastConversation" *)
  timers : list Timer;
  nextTimer : nat;
  outbox : list (Channel * Envelope);
  lastConversation : option string;
}.

(** The setters behind [s <| field := v |>], one per field. *)
#[global] Instance set_token : Setter token := ltac:(setter State (string) token).
#[global] Instance set_sessions : Setter sessions := ltac:(setter State (list SessionSummary) sessions).
#[global] Instance set_sessionsLoading : Setter sessionsLoading := ltac:(setter State (bool) sessionsLoading).
#[global] Instance set_activeId : Setter activeId := ltac:(setter State (option string) activeId).
#[global] Instance set_items : Setter items := ltac:(setter State (list Item.t) items).
#[global] Instance set_status : Setter status := ltac:(setter State (string) status).
#[global] Instance set_error : Setter error := ltac:(setter State (option string) error).
#[global] Instance set_loading : Setter loading := ltac:(setter State (bool) loading).
#[global] Instance set_hasMoreBefore : Setter hasMoreBefore := ltac:(setter State (bool) hasMoreBefore).
#[global] Instance set_hasMoreAfter : Setter hasMoreAfter := ltac:(setter State (bool) hasMoreAfter).
#[global] Instance set_historyStart : Setter historyStart := ltac:(setter State (option Z) historyStart).
#[global] Instance set_historyEnd : Setter historyEnd := ltac:(setter State (option Z) historyEnd).
#[global] Instance set_sending : Setter sending := ltac:(setter State (bool) sending).
#[global] Instance set_historyMode : Setter historyMode := ltac:(setter State (HistoryMode) historyMode).
#[global] Instance set_runtimeId : Setter runtimeId := ltac:(setter State (option string) runtimeId).
#[global] Instance set_sessionLoading : Setter sessionLoading := ltac:(setter State (bool) sessionLoading).
#[global] Instance set_wsRef : Setter wsRef := ltac:(setter State (option ReadyState) wsRef).
#[global] Instance set_wsRetryRef : Setter wsRetryRef := ltac:(setter State (option nat) wsRetryRef).
#[global] Instance set_historyWsRef : Setter historyWsRef := ltac:(setter State (option ReadyState) historyWsRef).
#[global] Instance set_historyHandshakeRef : Setter historyHandshakeRef := ltac:(setter State (option Handshake) historyHandshakeRef).
#[global] Instance set_historyRetryRef : Setter historyRetryRef := ltac:(setter State (option nat) historyRetryRef).
#[global] Instance set_pendingHistoryRequests : Setter pendingHistoryRequests := ltac:(setter State (list Req.t) pendingHistoryRequests).
#[global] Instance set_historyWsDisabledRef : Setter historyWsDisabledRef := ltac:(setter State (bool) historyWsDisabledRef).
#[global] Instance set_historyWsAttemptRef : Setter historyWsAttemptRef := ltac:(setter State (Z) historyWsAttemptRef).
#[global] Instance set_historyWsUrlRef : Setter historyWsUrlRef := ltac:(setter State (option string) historyWsUrlRef).
#[global] Instance set_historyConnectTimerRef : Setter historyConnectTimerRef := ltac:(setter State (option nat) historyConnectTimerRef).
#[global] Instance set_historyWsModeRef : Setter historyWsModeRef := ltac:(setter State (HistoryWsMode) historyWsModeRef).
#[global] Instance set_historyInitialSessionRef : Setter historyInitialSessionRef := ltac:(setter State (option string) historyInitialSessionRef).
#[global] Instance set_historyActiveTokenRef : Setter historyActiveTokenRef := ltac:(setter State (option string) historyActiveTokenRef).
#[global] Instance set_knownSessionIdsRef : Setter knownSessionIdsRef := ltac:(setter State (gset string) knownSessionIdsRef).
#[global] Instance set_lastRequestedSessionRef : Setter lastRequestedSessionRef := ltac:(setter State (option string) lastRequestedSessionRef).
#[global] Instance set_historyWsBackoffRef : Setter historyWsBackoffRef := ltac:(setter State (Z) historyWsBackoffRef).
#[global] Instance set_lastIndexRef : Setter lastIndexRef := ltac:(setter State (option Z) lastIndexRef).
#[global] Instance set_seenLineIndexRef : Setter seenLineIndexRef := ltac:(setter State (gset Z) seenLineIndexRef).
#[global] Instance set_liveIndexRef : Setter liveIndexRef := ltac:(setter State (option Z) liveIndexRef).
#[global] Instance set_seenEventRef : Setter seenEventRef := ltac:(setter State (gset string) seenEventRef).
#[global] Instance set_reasoningIdRef : Setter reasoningIdRef := ltac:(setter State (option string) reasoningIdRef).
#[global] Instance set_controlWsRef : Setter controlWsRef := ltac:(setter State (option ReadyState) controlWsRef).
#[global] Instance set_pendingSessionsRef : Setter pendingSessionsRef := ltac:(setter State (bool) pendingSessionsRef).
#[global] Instance set_pendingControlMessages : Setter pendingControlMessages := ltac:(setter State (list Envelope) pendingControlMessages).
#[global] Instance set_pendingResumeRef : Setter pendingResumeRef := ltac:(setter State (option string) pendingResumeRef).
#[global] Instance set_lazyHistory : Setter lazyHistory := ltac:(setter State (bool) lazyHistory).
#[global] Instance set_lazyHistoryReady : Setter lazyHistoryReady := ltac:(setter State (bool) lazyHistoryReady).
#[global] Instance set_historyPrimed : Setter historyPrimed := ltac:(setter State (bool) historyPrimed).
#[global] Instance set_primeHistoryTimerRef : Setter primeHistoryTimerRef := ltac:(setter State (option nat) primeHistoryTimerRef).
#[global] Instance set_primeHistoryInFlightRef : Setter primeHistoryInFlightRef := ltac:(setter State (bool) primeHistoryInFlightRef).
#[global] Instance set_primeFillTimerRef : Setter primeFillTimerRef := ltac:(setter State (option nat) primeFillTimerRef).
#[global] Instance set_primeFillInFlightRef : Setter primeFillInFlightRef := ltac:(setter State (bool) primeFillInFlightRef).
#[global] Instance set_primeFillExpectedBeforeRef : Setter primeFillExpectedBeforeRef := ltac:(setter State (option Z) primeFillExpectedBeforeRef).
#[global] Instance set_taskActiveRef : Setter taskActiveRef := ltac:(setter State (bool) taskActiveRef).
#[global] Instance set_activityLabelRef : Setter activityLabelRef := ltac:(setter State (option string) activityLabelRef).
#[global] Instance set_activeExecCountRef : Setter activeExecCountRef := ltac:(setter State (Z) activeExecCountRef).
#[global] Instance set_activeToolCountRef : Setter activeToolCountRef := ltac:(setter State (Z) activeToolCountRef).
#[global] Instance set_timers : Setter timers := ltac:(setter State (list Timer) timers).
#[global] Instance set_nextTimer : Setter nextTimer := ltac:(setter State (nat) nextTimer).
#[global] Instance set_outbox : Setter outbox := ltac:(setter State (list (Channel * Envelope)) outbox).
#[global] Instance set_lastConversation : Setter lastConversation := ltac:(setter State (option string) lastConversation).

(** A setter unfolds on a state in constructor form, [constant v] on its
    argument. *)
#[global] Arguments constant {_} _ _ /.
#[global] Arguments set_token _ !_ /.
#[global] Arguments set_sessions _ !_ /.
#[global] Arguments set_sessionsLoading _ !_ /.
#[global] Arguments set_activeId _ !_ /.
#[global] Arguments set_items _ !_ /.
#[global] Arguments set_status _ !_ /.
#[global] Arguments set_error _ !_ /.
#[global] Arguments set_loading _ !_ /.
#[global] Arguments set_hasMoreBefore _ !_ /.
#[global] Arguments set_hasMoreAfter _ !_ /.
#[global] Arguments set_historyStart _ !_ /.
#[global] Arguments set_historyEnd _ !_ /.
#[global] Arguments set_sending _ !_ /.
#[global] Arguments set_historyMode _ !_ /.
#[global] Arguments set_runtimeId _ !_ /.
#[global] Arguments set_sessionLoading _ !_ /.
#[global] Arguments set_wsRef _ !_ /.
#[global] Arguments set_wsRetryRef _ !_ /.
#[global] Arguments set_historyWsRef _ !_ /.
#[global] Arguments set_historyHandshakeRef _ !_ /.
#[global] Arguments set_historyRetryRef _ !_ /.
#[global] Arguments set_pendingHistoryRequests _ !_ /.
#[global] Arguments set_historyWsDisabledRef _ !_ /.
#[global] Arguments set_historyWsAttemptRef _ !_ /.
#[global] Arguments set_historyWsUrlRef _ !_ /.
#[global] Arguments set_historyConnectTimerRef _ !_ /.
#[global] Arguments set_historyWsModeRef _ !_ /.
#[global] Arguments set_historyInitialSessionRef _ !_ /.
#[global] Arguments set_historyActiveTokenRef _ !_ /.
#[global] Arguments set_knownSessionIdsRef _ !_ /.
#[global] Arguments set_lastRequestedSessionRef _ !_ /.
#[global] Arguments set_historyWsBackoffRef _ !_ /.
#[global] Arguments set_lastIndexRef _ !_ /.
#[global] Arguments set_seenLineIndexRef _ !_ /.
#[global] Arguments set_liveIndexRef _ !_ /.
#[global] Arguments set_seenEventRef _ !_ /.
#[global] Arguments set_reasoningIdRef _ !_ /.
#[global] Arguments set_controlWsRef _ !_ /.
#[global] Arguments set_pendingSessionsRef _ !_ /.
#[global] Arguments set_pendingControlMessages _ !_ /.
#[global] Arguments set_pendingResumeRef _ !_ /.
#[global] Arguments set_lazyHistory _ !_ /.
#[global] Arguments set_lazyHistoryReady _ !_ /.
#[global] Arguments set_historyPrimed _ !_ /.
#[global] Arguments set_primeHistoryTimerRef _ !_ /.
#[global] Arguments set_primeHistoryInFlightRef _ !_ /.
#[global] Arguments set_primeFillTimerRef _ !_ /.
#[global] Arguments set_primeFillInFlightRef _ !_ /.
#[global] Arguments set_primeFillExpectedBeforeRef _ !_ /.
#[global] Arguments set_taskActiveRef _ !_ /.
#[global] Arguments set_activityLabelRef _ !_ /.
#[global] Arguments set_activeExecCountRef _ !_ /.
#[global] Arguments set_activeToolCountRef _ !_ /.
#[global] Arguments set_timers _ !_ /.
#[global] Arguments set_nextTimer _ !_ /.
#[global] Arguments set_outbox _ !_ /.
#[global] Arguments set_lastConversation _ !_ /.


Definition HISTORY_PRIME_LIMIT : Z := 40.
Definition HISTORY_TARGET_LIMIT : Z := 200.
Definition HISTORY_LARGE_SESSION_THRESHOLD : Z := 10000.
Definition HISTORY_LARGE_PRIME_LIMIT : Z := 20.
Definition HISTORY_AUTO_FILL_THRESHOLD : Z := 5000.

(** The refs as declared, before any callback has run. *)
Definition initialState (tok : string) : State :=
  {| token := tok; sessions := []; sessionsLoading := false; activeId := None;
     items := []; status := "Idle"; error := None; loading := false;
     hasMoreBefore := false; hasMoreAfter := false; historyStart := None;
     historyEnd := None; sending := false; historyMode := mode_tail;
     runtimeId := None; sessionLoading := false; wsRef := None;
     wsRetryRef := None;
     historyWsRef := None; historyHandshakeRef := None; historyRetryRef := None;
     pendingHistoryRequests := []; historyWsDisabledRef := false;
     historyWsAttemptRef := 0; historyWsUrlRef := None;
     historyConnectTimerRef := None; historyWsModeRef := ws_initial;
     historyInitialSessionRef := None; historyActiveTokenRef := None;
     knownSessionIdsRef := ∅;
     lastRequestedSessionRef := None; historyWsBackoffRef := 0;
     lastIndexRef := None; seenLineIndexRef := ∅; liveIndexRef := None;
     seenEventRef := ∅; reasoningIdRef := None; controlWsRef := None;
     pendingSessionsRef := false; pendingControlMessages := [];
     pendingResumeRef := None; lazyHistory := true;
     lazyHistoryReady := false; historyPrimed := false;
     primeHistoryTimerRef := None; primeHistoryInFlightRef := false;
     primeFillTimerRef := None; primeFillInFlightRef := false;
     primeFillExpectedBeforeRef := None; taskActiveRef := false;
     activityLabelRef := None; activeExecCountRef := 0; activeToolCountRef := 0;
     timers := []; nextTimer := 0%nat; outbox := []; lastConversation := None |}.

(** *** The host calls *)

(** [window.setTimeout(cb, ms)]: the new handle and the state with the timer
    pending. *)
Definition setTimeout (cb : TimerAction) (ms : Z) (s : State) : nat * State :=
  (nextTimer s,
   s <| timers ::= (fun ts => (ts ++ [mkTimer (nextTimer s) ms cb])%list) |>
     <| nextTimer ::= (fun n => S n) |>).

Definition clearTimeout (h : nat) (s : State) : State :=
  s <| timers ::= (fun ts => List.filter (fun t => negb (Nat.eqb (handle t) h)) ts) |>.

(** [ws.send(JSON.stringify(envelope))] on the socket of a channel. *)
Definition send (c : Channel) (e : Envelope) (s : State) : State :=
  s <| outbox ::= (fun o => (o ++ [(c, e)])%list) |>.

(** Truthiness of a [string | null]. *)
Definition truthy_str (o : option string) : bool :=
  match o with Some x => negb (String.eqb x "") | None => false end.

Definition opt_string_eqb (a b : option string) : bool :=
  match a, b with
  | Some x, Some y => String.eqb x y
  | None, None => true
  | _, _ => false
  end.

Section Host.

(** [JSON.stringify(value, null, 2)] of the host, on a value that is neither
    a string nor nullish.  Nothing below depends on what it prints. *)
Variable JSON_stringify : json -> string.

Definition asText (value : json) : string :=
  match value with
  | JUndefined | JNull => ""
  | JStr s => s
  | _ => JSON_stringify value
  end.

Definition summarizePayload (payload : json) : string :=
  let lines :=
    match prop "summary" payload with
    | JArr summary =>
        List.filter (fun s => negb (String.eqb s ""))
          (List.map (fun item =>
                  match (if nullish item then JUndefined else prop "text" item) with
                  | JStr s => s
                  | _ => ""
                  end) summary)
    | _ => []
    end in
  if negb (Nat.eqb (List.length lines) 0) then String.concat blank_line lines
  else match prop "content" payload with
       | JStr s => s
       | _ => ""
       end.

(** *** [parseHistoryItems] *)

(** The two locals of [parseHistoryItems]: the output array and the set of
    signatures already pushed. *)
Record ParseAcc := mkAcc {
  acc_items : list Item.t;
  acc_seen : gset string;
}.

Definition signatureFor (item : Item.t) (textOverride : option string) : string :=
  String.concat "::"
    [ match Item.index item with Some i => string_of_Z i | None => "" end;
      kind_name (Item.kind item);
      opt_str (Item.subkind item);
      toString (js_coalesce (Item.title item) (JStr ""));
      match textOverride with
      | Some t => t
      | None => opt_str (Item.text item)
      end;
      toString (js_coalesce (Item.imageUrl item) (JStr "")) ].

Definition pushUnique (item : Item.t) (acc : ParseAcc) : ParseAcc :=
  let signature := signatureFor item None in
  if bool_decide (signature ∈ acc_seen acc) then acc
  else mkAcc (acc_items acc ++ [item])%list ({[ signature ]} ∪ acc_seen acc).

(** An entry built from an event line: [{ id, kind, subkind, title, text,
    meta?, index, eventKey }]. *)
Definition eventItem (index : option Z) (eventKey : option string)
    (suffix : string) (k : TimelineKind) (sub : string) (ttl : string)
    (txt : string) (m : option string) : Item.t :=
  Item.mk (makeId index suffix) k (Some sub) (JStr ttl) (Some txt) JUndefined m
    index eventKey None.

Definition last_item (items : list Item.t) : option Item.t := List.last (List.map Some items) None.

(** The reasoning branch: a delta with the index of the last entry, itself a
    reasoning entry, is appended to its text (the entry is mutated in
    place and its signature replaced); otherwise a new entry is pushed. *)
Definition parseReasoning (index : option Z) (eventKey : option string)
    (msg : json) (acc : ParseAcc) : ParseAcc :=
  let nextText := asText (js_or (prop "text" msg) (prop "delta" msg)) in
  if String.eqb nextText "" then acc
  else
    match last_item (acc_items acc) with
    | Some last =>
        if kind_eqb (Item.kind last) assistant
           && bool_decide (Item.subkind last = Some "reasoning")
           && option_Z_eqb (Item.index last) index
        then
          let prevText := opt_str (Item.text last) in
          let prevSignature := signatureFor last (Some prevText) in
          let nextValue := prevText ++ nextText in
          let last' := last <| Item.text := Some nextValue |> in
          mkAcc (List.removelast (acc_items acc) ++ [last'])%list
                ({[ signatureFor last' (Some nextValue) ]}
                   ∪ (acc_seen acc ∖ {[ prevSignature ]}))
        else
          pushUnique (eventItem index eventKey "reasoning" assistant "reasoning"
                        "Reasoning" nextText None) acc
    | None =>
        pushUnique (eventItem index eventKey "reasoning" assistant "reasoning"
                      "Reasoning" nextText None) acc
    end.

(** The branch [entry.type === "event"]. *)
Definition parseEventEntry (index : option Z) (entry : RolloutEntry)
    (acc : ParseAcc) : ParseAcc :=
  let payload := js_or (entry_payload entry) (JObj []) in
  let eventKey := eventKeyFromPayload (entry_payload entry) in
  let msg :=
    js_or (prop "msg" payload)
      (js_or (prop "message" payload) (js_or (prop "event" payload) payload)) in
  if negb (truthy msg) || negb (typeof_object msg) then acc
  else
    let msgType := prop "type" msg in
    let push := fun suffix k sub ttl txt m =>
      pushUnique (eventItem index eventKey suffix k sub ttl txt m) acc in
    if negb (truthy msgType) then acc
    else if is_str msgType "user_message" then
      push "user" user "message" "You" (asText (prop "message" msg)) None
    else if is_str msgType "agent_message" then
      push "assistant" assistant "message" "Assistant" (asText (prop "message" msg)) None
    else if is_str msgType "task_started" || is_str msgType "task_complete"
            || is_str msgType "turn_aborted" then
      push "task" system "message" (replace_underscores (toString msgType))
        (asText (js_or (prop "message" msg) (js_or (prop "reason" msg) msg))) None
    else if is_str msgType "agent_reasoning" || is_str msgType "agent_reasoning_delta" then
      parseReasoning index eventKey msg acc
    else if is_str msgType "exec_command_begin" then
      push "exec-start" exec "exec-begin" "Exec"
        (match prop "command" msg with
         | JArr command => join " " command
         | command => asText command
         end) (Some "running")
    else if is_str msgType "exec_command_output_delta" then
      push "exec-output" exec "exec-output" "Exec output"
        (asText (prop "chunk" msg)) (Some (asText (prop "stream" msg)))
    else if is_str msgType "exec_command_end" then
      push "exec-end" exec "exec-end" "Exec result"
        (asText (js_or (prop "stderr" msg) (prop "stdout" msg)))
        (Some ("exit " ++ toString (js_coalesce (prop "exit_code" msg) (JStr "?"))))
    else if is_str msgType "turn_diff" then
      push "diff" diff "diff" "Diff" (asText (prop "unified_diff" msg)) None
    else if is_str msgType "patch_apply_begin" || is_str msgType "patch_apply_end" then
      push "patch" diff "diff"
        (if is_str msgType "patch_apply_begin" then "Apply patch" else "Patch applied")
        (asText (js_or (prop "path" msg) (js_or (prop "message" msg) msg))) None
    else if is_str msgType "background_event" then
      push "background" system "message" "Background event"
        (asText (js_or (prop "message" msg) (js_or (prop "event" msg) msg))) None
    else if is_str msgType "web_search_begin" || is_str msgType "web_search_complete" then
      push "web" tool "tool-web"
        (if is_str msgType "web_search_begin" then "Web search" else "Web search complete")
        (asText (prop "query" msg)) None
    else if is_str msgType "browser_screenshot_update" then
      push "browser" tool "tool-browser" "Browser screenshot"
        (asText (js_or (prop "url" msg) (prop "screenshot_path" msg))) None
    else if is_str msgType "mcp_tool_call_begin" || is_str msgType "mcp_tool_call_end" then
      let invocation := js_or (prop "invocation" msg) (JObj []) in
      push "mcp" tool "tool-mcp"
        (if is_str msgType "mcp_tool_call_begin" then "MCP tool" else "MCP tool finished")
        (toString (js_or (prop "server" invocation) (JStr "")) ++ "."
           ++ toString (js_or (prop "tool" invocation) (JStr ""))) None
    else if is_str msgType "custom_tool_call_begin"
            || is_str msgType "custom_tool_call_update"
            || is_str msgType "custom_tool_call_end" then
      push "tool" tool "tool-custom" (replace_underscores (toString msgType))
        (asText (prop "tool_name" msg)) None
    else acc.

(** The image entries of a message: [content.forEach((segment, idx) => ...)]. *)
Fixpoint pushImages (index : option Z) (k : TimelineKind) (idx : Z)
    (content : list json) (acc : ParseAcc) : ParseAcc :=
  match content with
  | [] => acc
  | segment :: rest =>
      let acc' :=
        if is_str (prop "type" segment) "output_image"
           || is_str (prop "type" segment) "input_image"
        then
          pushUnique
            (Item.mk (makeId index ("img-" ++ string_of_Z idx)) k (Some "image")
               (JStr (if kind_eqb k assistant then "Assistant image" else "Image"))
               None (js_or (prop "image_url" segment) (prop "url" segment)) None
               index None None) acc
        else acc in
      pushImages index k (idx + 1) rest acc'
  end.

(** The branch [entry.type === "response_item"].  Reading [segment.type] of
    a [null] segment throws: the result is [None]. *)
Definition parseResponseItem (index : option Z) (entry : RolloutEntry)
    (acc : ParseAcc) : option ParseAcc :=
  let payload := js_or (entry_payload entry) (JObj []) in
  let itemType := prop "type" payload in
  if is_str itemType "reasoning" then
    let summary := summarizePayload payload in
    Some (pushUnique
            (Item.mk (makeId index "reasoning") assistant (Some "reasoning")
               (JStr "Reasoning")
               (Some (if String.eqb summary "" then asText payload else summary))
               JUndefined None index None None) acc)
  else if negb (is_str itemType "message") then
    let label := js_or (prop "name" payload) (js_or (prop "type" payload) (JStr "Tool")) in
    Some (pushUnique
            (Item.mk (makeId index "tool") tool
               (Some (if is_str itemType "function_call" then "tool-call" else "tool-output"))
               label
               (Some (asText (js_or (prop "arguments" payload) (prop "output" payload))))
               JUndefined None index None None) acc)
  else
    let k := roleToKind (prop "role" payload) in
    let content := match prop "content" payload with JArr c => c | _ => [] end in
    if existsb nullish content then None
    else
      let textSegments :=
        List.filter (fun s => negb (String.eqb s ""))
          (List.map (fun segment => asText (js_or (prop "text" segment) (prop "refusal" segment)))
             (List.filter (fun segment =>
                        is_str (prop "type" segment) "output_text"
                        || is_str (prop "type" segment) "input_text") content)) in
      let acc1 :=
        if negb (Nat.eqb (List.length textSegments) 0) then
          pushUnique
            (Item.mk (makeId index "msg") k (Some "message")
               (JStr (if kind_eqb k assistant then "Assistant"
                      else if kind_eqb k user then "You" else "System"))
               (Some (String.concat blank_line textSegments))
               JUndefined None index None None) acc
        else acc in
      Some (pushImages index k 0 content acc1).

Definition parseLine (line : Line.t) (acc : ParseAcc) : option ParseAcc :=
  let entry := extractEntry line in
  let index := Line.index line in
  if String.eqb (entry_type entry) "event" then Some (parseEventEntry index entry acc)
  else if String.eqb (entry_type entry) "response_item" then parseResponseItem index entry acc
  else Some acc.

Fixpoint parseLines (lines : list Line.t) (acc : ParseAcc) : option ParseAcc :=
  match lines with
  | [] => Some acc
  | line :: rest =>
      match parseLine line acc with
      | Some acc' => parseLines rest acc'
      | None => None
      end
  end.

Definition parseHistoryItems (lines : list Line.t) : option (list Item.t) :=
  option_map acc_items (parseLines lines (mkAcc [] ∅)).

(** ** App.vue: history tracking *)

Definition messageSignatureForItem (item : Item.t) : string :=
  String.concat "::"
    [ kind_name (Item.kind item);
      opt_str (Item.subkind item);
      toString (js_coalesce (Item.title item) (JStr ""));
      opt_str (Item.text item);
      toString (js_coalesce (Item.imageUrl item) (JStr "")) ].

Definition resetHistoryTracking (s : State) : State :=
  s <| seenLineIndexRef := ∅ |> <| seenEventRef := ∅ |>.

(** [msg?.type] of [payload?.msg || payload?.message || payload?.event]. *)
Definition lineMsgType (payload : json) : json :=
  prop "type"
    (js_or (prop "msg" payload) (js_or (prop "message" payload) (prop "event" payload))).

(** One turn of the [forEach] of [registerHistoryLines]: the line is kept
    ([true]) or not, and the two sets are updated. *)
Definition registerLine (skipAgentMessages : bool) (line : Line.t) (s : State)
    : bool * State :=
  let index := Line.index line in
  if match index with
     | Some i => bool_decide (i ∈ seenLineIndexRef s)
     | None => false
     end
  then (false, s)
  else
    let entry := extractEntry line in
    let mark := fun (st : State) =>
      match index with
      | Some i => st <| seenLineIndexRef ::= (fun X => {[ i ]} ∪ X) |>
      | None => st
      end in
    if String.eqb (entry_type entry) "event" then
      let payload := entry_payload entry in
      let key := eventKeyFromPayload payload in
      let s1 :=
        if truthy_str key
        then s <| seenEventRef ::= (fun X => {[ opt_str key ]} ∪ X) |>
        else s in
      if skipAgentMessages && is_str (lineMsgType payload) "agent_message"
      then (false, mark s1)
      else (true, mark s1)
    else (true, mark s).

Fixpoint registerHistoryLines (lines : list Line.t) (skipAgentMessages : bool)
    (s : State) : list Line.t * State :=
  match lines with
  | [] => ([], s)
  | line :: rest =>
      let (keep, s1) := registerLine skipAgentMessages line s in
      let (fresh, s2) := registerHistoryLines rest skipAgentMessages s1 in
      (if keep then line :: fresh else fresh, s2)
  end.

Definition hasAssistantResponseItem (lines : list Line.t) : bool :=
  existsb (fun line =>
             let entry := extractEntry line in
             if negb (String.eqb (entry_type entry) "response_item") then false
             else is_str (prop "type" (entry_payload entry)) "message"
                  && is_str (prop "role" (entry_payload entry)) "assistant")
    lines.

Definition is_message (item : Item.t) : bool :=
  bool_decide (Item.subkind item = Some "message").

(** The predicate of the [filter] in [dropEventDuplicates]. *)
Definition survivesHistory (historyItems : list Item.t) (item : Item.t) : bool :=
  let historyEventKeys : gset string :=
    list_to_set
      (List.filter (fun k => negb (String.eqb k ""))
         (omap Item.eventKey historyItems)) in
  let historyMessageSignatures : gset string :=
    list_to_set (List.map messageSignatureForItem (List.filter is_message historyItems)) in
  if negb (is_origin (Item.origin item) event) then true
  else if truthy_str (Item.eventKey item)
          && bool_decide (opt_str (Item.eventKey item) ∈ historyEventKeys)
  then false
  else if is_message item
          && bool_decide (messageSignatureForItem item ∈ historyMessageSignatures)
  then false
  else true.

Definition dropEventDuplicates (historyItems : list Item.t) (s : State) : State :=
  if Nat.eqb (List.length (items s)) 0 || Nat.eqb (List.length historyItems) 0 then s
  else s <| items ::= (fun l => List.filter (survivesHistory historyItems) l) |>.

(** ** App.vue: history requests *)

Definition find_session (id : string) (l : list SessionSummary) : option SessionSummary :=
  List.find (fun session => String.eqb (conversation_id session) id) l.

Definition messageCountFor (id : option string) (s : State) : option Z :=
  if negb (truthy_str id) then None
  else
    match find_session (opt_str id) (sessions s) with
    | Some session => message_count session
    | None => None
    end.

Definition historyPrimeLimitFor (id : option string) (s : State) : Z :=
  match messageCountFor id s with
  | Some count =>
      if (HISTORY_LARGE_SESSION_THRESHOLD <=? count)%Z then HISTORY_LARGE_PRIME_LIMIT
      else HISTORY_PRIME_LIMIT
  | None => HISTORY_PRIME_LIMIT
  end.

Definition shouldAutoFillHistory (id : option string) (s : State) : bool :=
  match messageCountFor id s with
  | None => true
  | Some count => (count <=? HISTORY_AUTO_FILL_THRESHOLD)%Z
  end.

Definition enqueueHistoryRequest (request : Req.t) (s : State) : State :=
  s <| pendingHistoryRequests ::= (fun q => (q ++ [request])%list) |>.

(** [buildHistoryPayload]: the request, with [rollout] when the runtime id
    differs from the active id. *)
Definition buildHistoryPayload (request : Req.t) (s : State) : Envelope :=
  history_request request
    (if truthy_str (runtimeId s) && truthy_str (activeId s)
        && negb (opt_string_eqb (runtimeId s) (activeId s))
     then activeId s else None).

(** The socket that [flushPendingHistoryRequests] picks. *)
Definition activeWs (s : State) : option Channel :=
  match historyWsModeRef s with
  | ws_initial =>
      if is_open (historyWsRef s) then Some HistoryWs
      else if is_open (wsRef s) then Some StreamWs
      else None
  | ws_stream => if is_open (wsRef s) then Some StreamWs else None
  end.

Definition flushPendingHistoryRequests (s : State) : State :=
  if Nat.eqb (List.length (pendingHistoryRequests s)) 0 then s
  else
    match activeWs s with
    | None => s
    | Some ws =>
        let queued := pendingHistoryRequests s in
        let s1 := s <| pendingHistoryRequests := [] |> in
        fold_left (fun st request => send ws (buildHistoryPayload request st) st) queued s1
    end.

Definition sendHistoryRequest (request : Req.t) (s : State) : State :=
  match historyWsModeRef s with
  | ws_initial =>
      if is_open (historyWsRef s) then send HistoryWs (buildHistoryPayload request s) s
      else if is_open (wsRef s) then send StreamWs (buildHistoryPayload request s) s
      else enqueueHistoryRequest request s
  | ws_stream =>
      if is_open (wsRef s) then send StreamWs (buildHistoryPayload request s) s
      else enqueueHistoryRequest request s
  end.

Definition primeHistory (s : State) : State :=
  if historyPrimed s || primeHistoryInFlightRef s then s
  else
    let s1 := s <| primeHistoryInFlightRef := true |>
                <| loading := true |>
                <| status := "Loading recent history" |> in
    let limit := historyPrimeLimitFor (activeId s1) s1 in
    sendHistoryRequest (Req.mk None None (Some "tail") (Some limit)) s1.

Definition schedulePrimeHistory (force : bool) (s : State) : State :=
  if negb (lazyHistory s) || historyPrimed s then s
  else if negb force && negb (match historyWsModeRef s with ws_initial => true | _ => false end)
  then s
  else if negb force && negb (lazyHistoryReady s) then s
  else
    match primeHistoryTimerRef s with
    | Some _ => s
    | None =>
        let (h, s1) := setTimeout PrimeHistoryTimer 50 s in
        s1 <| primeHistoryTimerRef := Some h |>
    end.

Definition cancelPrimeHistory (s : State) : State :=
  match primeHistoryTimerRef s with
  | Some h => (clearTimeout h s) <| primeHistoryTimerRef := None |>
  | None => s
  end.

Definition cancelPrimeFill (s : State) : State :=
  let s1 :=
    match primeFillTimerRef s with
    | Some h => (clearTimeout h s) <| primeFillTimerRef := None |>
    | None => s
    end in
  s1 <| primeFillInFlightRef := false |> <| primeFillExpectedBeforeRef := None |>.

(** ** App.vue: merging a history response *)

(** A callback either returns or throws; both leave a state behind. *)
Inductive Outcome :=
| Returned (s : State)
| Threw (s : State).

Definition asHistory (item : Item.t) : Item.t := item <| Item.origin := Some history |>.
Definition asEvent (item : Item.t) : Item.t := item <| Item.origin := Some event |>.

(** [items.findIndex((item) => item.origin !== "history")], [None] for -1. *)
Fixpoint findLiveStart (l : list Item.t) : option nat :=
  match l with
  | [] => None
  | item :: rest =>
      if negb (is_origin (Item.origin item) history) then Some 0%nat
      else option_map S (findLiveStart rest)
  end.

(** ** Indices as numbers

    An index is a JavaScript number that holds an integer.  On such numbers
    comparisons, [Math.max] and [Math.min] are exact and [Math.trunc] is the
    identity.  [x + 1] is exact while the sum is at most 2^53 in absolute
    value; past that the sum is not a double and is rounded to the nearest
    one, ties to the even significand: between 2^53 and 2^54 the doubles
    are the even integers and the tie goes to the multiple of 4, and from
    2^54 on the sum rounds back to [x]. *)
Definition MAX_EXACT : Z := 9007199254740992.

Definition Math_trunc (x : Z) : Z := x.

Definition js_succ (x : Z) : Z :=
  if (Z.abs (x + 1) <=? MAX_EXACT)%Z then x + 1
  else if (Z.abs x <? 2 * MAX_EXACT)%Z
       then (if (x mod 4 =? 0)%Z then x else x + 2)
       else x.

#[global] Arguments js_succ : simpl never.
#[global] Arguments Math_trunc : simpl never.

Definition min_index (current : option Z) (i : Z) : option Z :=
  match current with None => Some i | Some c => Some (Z.min c i) end.

Definition max_index (current : option Z) (i : Z) : option Z :=
  match current with None => Some i | Some c => Some (Z.max c i) end.

(** The tail branch after the list is replaced: the follow-up fill. *)
Definition schedulePrimeFill (message : Chunk.t) (historyItems : list Item.t)
    (s : State) : State :=
  let canAutoFill := shouldAutoFillHistory (activeId s) s in
  match Chunk.start_index message with
  | Some startIndex =>
      if negb (primeFillInFlightRef s) && canAutoFill && Chunk.truncated message
         && (Z.of_nat (List.length historyItems) <? HISTORY_TARGET_LIMIT)%Z
      then
        let s1 := s <| primeFillInFlightRef := true |>
                    <| primeFillExpectedBeforeRef := Some startIndex |> in
        let remaining := HISTORY_TARGET_LIMIT - Z.of_nat (List.length historyItems) in
        let s2 :=
          match primeFillTimerRef s1 with
          | Some h => clearTimeout h s1
          | None => s1
          end in
        let (h, s3) := setTimeout (PrimeFillTimer startIndex remaining) 200 s2 in
        s3 <| primeFillTimerRef := Some h |>
      else s
  | None => s
  end.

Definition is_anchor (message : Chunk.t) : bool :=
  opt_string_eqb (Chunk.anchor message) (Some "head")
  || opt_string_eqb (Chunk.anchor message) (Some "tail").

(** The four-way branch of [handleHistoryChunk] on the kind of response. *)
Definition mergeHistory (message : Chunk.t) (historyItems : list Item.t)
    (s : State) : State :=
  let startIndex := Chunk.start_index message in
  let endIndex := Chunk.end_index message in
  if opt_string_eqb (Chunk.anchor message) (Some "head") then
    (cancelPrimeFill s)
      <| reasoningIdRef := None |>
      <| items := historyItems |>
      <| historyMode := mode_head |>
      <| hasMoreAfter := Chunk.truncated message |>
      <| hasMoreBefore := false |>
      <| historyStart := startIndex |>
      <| historyEnd := endIndex |>
  else if opt_string_eqb (Chunk.anchor message) (Some "tail") then
    let s1 :=
      (cancelPrimeFill s)
        <| reasoningIdRef := None |>
        <| items := historyItems |>
        <| historyMode := mode_tail |>
        <| hasMoreBefore := Chunk.truncated message |>
        <| hasMoreAfter := false |>
        <| historyStart := startIndex |>
        <| historyEnd := endIndex |> in
    schedulePrimeFill message historyItems (cancelPrimeHistory s1)
  else
    match Chunk.before message, Chunk.after message with
    | Some before, _ =>
        let s1 :=
          if option_Z_eqb (primeFillExpectedBeforeRef s) (Some before)
          then s <| primeFillInFlightRef := false |>
                 <| primeFillExpectedBeforeRef := None |>
          else s in
        let s2 := dropEventDuplicates historyItems s1 in
        s2 <| items := (historyItems ++ items s2)%list |>
           <| historyMode := mode_tail |>
           <| hasMoreBefore := Chunk.truncated message |>
    | None, Some _ =>
        let s1 := dropEventDuplicates historyItems s in
        let merged :=
          match findLiveStart (items s1) with
          | None => (items s1 ++ historyItems)%list
          | Some liveStart =>
              (firstn liveStart (items s1) ++ historyItems
                 ++ skipn liveStart (items s1))%list
          end in
        s1 <| items := merged |>
           <| historyMode := mode_head |>
           <| hasMoreAfter := Chunk.truncated message |>
    | None, None => s
    end.

(** The tail of [handleHistoryChunk]: the covered range, the next live
    index and the flags. *)
Definition recordRange (message : Chunk.t) (s : State) : State :=
  let s1 :=
    match Chunk.start_index message with
    | Some startIndex =>
        if negb (is_anchor message)
        then s <| historyStart := min_index (historyStart s) startIndex |>
        else s
    | None => s
    end in
  let s2 :=
    match Chunk.end_index message with
    | Some endIndex =>
        if negb (is_anchor message)
        then s1 <| historyEnd := max_index (historyEnd s1) endIndex |>
        else s1
    | None => s1
    end in
  let s3 :=
    match Chunk.end_index message with
    | Some endIndex =>
        let s' :=
          match liveIndexRef s2 with
          | None => s2 <| liveIndexRef := Some (js_succ endIndex) |>
          | Some live =>
              if (live <=? endIndex)%Z
              then s2 <| liveIndexRef := Some (js_succ endIndex) |>
              else s2
          end in
        s' <| lastIndexRef := max_index (lastIndexRef s') endIndex |>
    | None => s2
    end in
  s3 <| loading := false |> <| status := "Live" |> <| sessionLoading := false |>.

Definition handleHistoryChunk (message : Chunk.t) (s : State) : Outcome :=
  let s1 := s <| primeHistoryInFlightRef := false |> in
  let s2 := if is_anchor message then resetHistoryTracking s1 else s1 in
  let rawLines := Chunk.items message in
  let skipAgentMessages := hasAssistantResponseItem rawLines in
  let (freshLines, s3) := registerHistoryLines rawLines skipAgentMessages s2 in
  match parseHistoryItems freshLines with
  | None => Threw s3
  | Some parsed =>
      let historyItems := List.map asHistory parsed in
      Returned (recordRange message (mergeHistory message historyItems s3))
  end.

(** The text of the [TypeError] of the host, stored by the [catch]. *)
Definition TypeError_message : string :=
  "Cannot read properties of null (reading 'type')".

(** [try { ... } catch (err) { error.value = err.message }]. *)
Definition caught (o : Outcome) : State :=
  match o with
  | Returned s => s
  | Threw s => s <| error := Some TypeError_message |>
  end.

(** [handleSnapshot]. *)
Definition handleSnapshot (message : Snapshot.t) (s : State) : Outcome :=
  let hasRollout := negb (Nat.eqb (List.length (Snapshot.rollout message)) 0) in
  let endIndex := Snapshot.end_index message in
  let s1 := resetHistoryTracking (s <| reasoningIdRef := None |>) in
  let rawLines := Snapshot.rollout message in
  let skipAgentMessages := hasAssistantResponseItem rawLines in
  let (freshLines, s2) := registerHistoryLines rawLines skipAgentMessages s1 in
  match parseHistoryItems freshLines with
  | None => Threw s2
  | Some parsed =>
      let s3 :=
        s2 <| items := List.map asHistory parsed |>
           <| historyPrimed := hasRollout |>
           <| historyStart := Snapshot.start_index message |>
           <| historyEnd := Snapshot.end_index message |>
           <| lastIndexRef := endIndex |>
           <| hasMoreBefore := Snapshot.truncated message |>
           <| hasMoreAfter := false |>
           <| historyMode := mode_tail |> in
      let s4 :=
        if negb hasRollout && lazyHistory s3
        then primeHistory (s3 <| loading := true |> <| status := "Loading recent history" |>)
        else s3 <| loading := false |> <| status := "Live" |> in
      Returned
        match endIndex with
        | Some e =>
            match liveIndexRef s4 with
            | None => s4 <| liveIndexRef := Some (js_succ e) |>
            | Some live =>
                if (live <=? e)%Z then s4 <| liveIndexRef := Some (js_succ e) |> else s4
            end
        | None => s4
        end
  end.

(** ** App.vue: the activity label *)

Definition resetActivity (s : State) : State :=
  s <| taskActiveRef := false |>
    <| activityLabelRef := None |>
    <| activeExecCountRef := 0 |>
    <| activeToolCountRef := 0 |>.

Definition noteActivity (label : string) (s : State) : State :=
  s <| activityLabelRef := Some label |> <| taskActiveRef := true |>.

Definition settleActivity (s : State) : State :=
  if (0 <? activeExecCountRef s)%Z then s <| activityLabelRef := Some "Running command" |>
  else if (0 <? activeToolCountRef s)%Z then
    s <| activityLabelRef :=
           Some (match activityLabelRef s with Some l => l | None => "Using tools" end) |>
  else if negb (taskActiveRef s) then s <| activityLabelRef := None |>
  else s.

Definition one_of (x : string) (l : list string) : bool := existsb (String.eqb x) l.

Definition updateActivityFromEvent (msgType : string) (s : State) : State :=
  if String.eqb msgType "task_started" then noteActivity "Thinking" s
  else if one_of msgType ["task_complete"; "turn_aborted"] then
    settleActivity (s <| taskActiveRef := false |>)
  else if one_of msgType ["agent_reasoning_delta"; "agent_reasoning"] then
    noteActivity "Thinking" s
  else if String.eqb msgType "agent_message_delta" then noteActivity "Responding" s
  else if String.eqb msgType "agent_message" then
    if taskActiveRef s then s <| activityLabelRef := Some "Responding" |> else s
  else if String.eqb msgType "exec_command_begin" then
    s <| activeExecCountRef ::= (fun n => n + 1) |>
      <| activityLabelRef := Some "Running command" |>
  else if String.eqb msgType "exec_command_end" then
    settleActivity (s <| activeExecCountRef ::= (fun n => Z.max 0 (n - 1)) |>)
  else if one_of msgType ["custom_tool_call_begin"; "mcp_tool_call_begin"; "web_search_begin"] then
    s <| activeToolCountRef ::= (fun n => n + 1) |>
      <| activityLabelRef := Some "Using tools" |>
  else if one_of msgType ["custom_tool_call_end"; "mcp_tool_call_end"; "web_search_complete"] then
    settleActivity (s <| activeToolCountRef ::= (fun n => Z.max 0 (n - 1)) |>)
  else if String.eqb msgType "browser_screenshot_update" then
    if negb (truthy_str (activityLabelRef s))
    then s <| activityLabelRef := Some "Using browser" |>
    else s
  else s.

(** The computed [composerStatus]. *)
Definition composerStatus (s : State) : option string :=
  if sending s then Some "Sending"
  else if sessionLoading s && truthy_str (activeId s) then Some "Resuming session"
  else if loading s && truthy_str (activeId s) then Some "Loading history"
  else if (0 <? activeExecCountRef s)%Z then Some "Running command"
  else if (0 <? activeToolCountRef s)%Z then
    Some (match activityLabelRef s with Some l => l | None => "Using tools" end)
  else if taskActiveRef s then
    Some (match activityLabelRef s with Some l => l | None => "Thinking" end)
  else if negb (String.eqb (status s) "") && negb (one_of (status s) ["Live"; "Ready"])
  then Some (status s)
  else None.

(** ** App.vue: the control channel and session activation *)

Definition sendControlMessage (payload : Envelope) (allowQueue : bool) (s : State)
    : State :=
  if negb (is_open (controlWsRef s)) then
    if allowQueue
    then s <| pendingControlMessages ::= (fun q => (q ++ [payload])%list) |>
    else s
  else send ControlWs payload s.

(** [scheduleResume]: the closure [attempt] is the timer action
    [ResumeAttempt id]. *)
Definition scheduleResume (id : string) (ms : Z) (s : State) : State :=
  let s1 := s <| pendingResumeRef := Some id |>
              <| sessionLoading := true |>
              <| status := "Resuming session" |> in
  snd (setTimeout (ResumeAttempt id) ms s1).

Definition resumeAttempt (id : string) (s : State) : State :=
  if negb (opt_string_eqb (pendingResumeRef s) (Some id)) then s
  else if negb (is_open (controlWsRef s)) then snd (setTimeout (ResumeAttempt id) 500 s)
  else sendControlMessage (resume_conversation id) false s.

Definition closeHistorySocket (s : State) : State :=
  let ws := historyWsRef s in
  let s1 := s <| historyWsRef := None |> <| historyHandshakeRef := None |> in
  match ws with
  | None => s1
  | Some _ => s1 <| historyWsBackoffRef := 0 |>
  end.

Definition setHistoryWsModeForSession (nextId : option string) (s : State) : State :=
  let s1 := s <| historyWsModeRef := ws_stream |>
              <| historyWsDisabledRef := true |>
              <| historyInitialSessionRef := None |>
              <| historyWsBackoffRef := 0 |> in
  if truthy_str nextId then closeHistorySocket s1 else s1.

Definition requestSessions (s : State) : State :=
  let s1 := s <| sessionsLoading := true |> <| pendingSessionsRef := true |> in
  if is_open (controlWsRef s1)
  then (send ControlWs (list_conversations 200) s1) <| pendingSessionsRef := false |>
  else s1.

Definition activateSession (id : option string) (s : State) : State :=
  if opt_string_eqb id (activeId s) then s
  else if truthy_str id
          && negb (bool_decide (knownSessionIdsRef s = ∅))
          && negb (bool_decide (opt_str id ∈ knownSessionIdsRef s))
          && negb (opt_string_eqb (runtimeId s) id)
  then requestSessions s
  else
    let s1 := (setHistoryWsModeForSession id s)
                <| lastRequestedSessionRef := id |>
                <| reasoningIdRef := None |>
                <| primeHistoryInFlightRef := false |>
                <| historyPrimed := false |>
                <| lazyHistoryReady := false |>
                <| pendingHistoryRequests := [] |> in
    let s2 := (resetHistoryTracking (resetActivity (cancelPrimeFill s1)))
                <| lastIndexRef := None |> in
    let s3 := if truthy_str id then s2 <| lastConversation := id |> else s2 in
    let s4 := s3 <| sessionLoading := truthy_str id |>
                 <| runtimeId := None |>
                 <| items := [] |>
                 <| historyStart := None |>
                 <| historyEnd := None |>
                 <| hasMoreBefore := false |>
                 <| hasMoreAfter := false |>
                 <| historyMode := mode_tail |>
                 <| liveIndexRef := None |>
                 <| activeId := id |> in
    if truthy_str id
    then schedulePrimeHistory true (scheduleResume (opt_str id) 200 s4)
    else s4.

(** [loadSession], the callback of [watch(activeId)] for a non-null id. *)
Definition loadSession (id : string) (s : State) : State :=
  if String.eqb (token s) "" then s
  else
    let s1 := s <| reasoningIdRef := None |>
                <| primeHistoryInFlightRef := false |>
                <| historyPrimed := false |>
                <| lazyHistoryReady := false |>
                <| pendingHistoryRequests := [] |> in
    let s2 := (resetActivity (cancelPrimeFill s1))
                <| sessionLoading := true |>
                <| items := [] |>
                <| historyStart := None |>
                <| historyEnd := None |>
                <| hasMoreBefore := false |>
                <| hasMoreAfter := false |>
                <| liveIndexRef := None |>
                <| runtimeId := None |>
                <| lastConversation := Some id |>
                <| loading := true |>
                <| status := "Resuming session" |> in
    scheduleResume id 400 s2.

(** The message [conversation_resumed] on the control channel. *)
Record Resumed := mkResumed {
  resumed_conversation_id : option string;
  requested_id : option string;
}.

Definition onConversationResumed (message : Resumed) (s : State) : State :=
  if truthy_str (requested_id message)
     && negb (opt_string_eqb (requested_id message) (activeId s))
  then s
  else if truthy_str (lastRequestedSessionRef s)
          && truthy_str (requested_id message)
          && negb (opt_string_eqb (requested_id message) (lastRequestedSessionRef s))
  then s
  else
    let s1 := s <| pendingResumeRef := None |> in
    let s2 :=
      if truthy_str (resumed_conversation_id message)
      then s1 <| runtimeId := resumed_conversation_id message |>
      else s1 in
    s2 <| error := None |> <| status := "Streaming" |>.

(** ** App.vue: live events *)

(** [updateSessionFromEvent] rewrites [updated_at] and [last_user_snippet]
    of the active session; on the fields of [SessionSummary] kept here every
    session is mapped to itself. *)
Definition updateSessionFromEvent (s : State) : State :=
  if negb (truthy_str (activeId s)) then s
  else s <| sessions ::= (fun l => List.map (fun session => session) l) |>.

Definition extractReasoningText (payload : json) : string :=
  asText
    (js_coalesce (prop "text" payload)
       (js_coalesce (prop "delta" payload)
          (js_coalesce (prop "message" payload) (JStr "")))).

(** [next.findIndex((item) => item.id === reasoningIdRef.value)]. *)
Fixpoint findIndexById (id : string) (l : list Item.t) : option nat :=
  match l with
  | [] => None
  | item :: rest =>
      if String.eqb (Item.id item) id then Some 0%nat
      else option_map S (findIndexById id rest)
  end.

(** The backward scan of [appendReasoningDelta], on the reversed list: the
    distance from the end of the nearest reasoning entry that no assistant
    message follows. *)
Fixpoint scanReasoning (rev_items : list Item.t) : option nat :=
  match rev_items with
  | [] => None
  | candidate :: rest =>
      if kind_eqb (Item.kind candidate) assistant
         && bool_decide (Item.subkind candidate = Some "reasoning")
      then Some 0%nat
      else if kind_eqb (Item.kind candidate) assistant
              && bool_decide (Item.subkind candidate = Some "message")
      then None
      else option_map S (scanReasoning rest)
  end.

Definition reasoningTarget (s : State) : option nat :=
  let byId :=
    if truthy_str (reasoningIdRef s)
    then findIndexById (opt_str (reasoningIdRef s)) (items s)
    else None in
  match byId with
  | Some i => Some i
  | None =>
      option_map (fun d => (List.length (items s) - 1 - d)%nat)
        (scanReasoning (List.rev (items s)))
  end.

Definition mergeDelta (delta : string) (key : option string) (current : Item.t)
    : Item.t :=
  current
    <| Item.text := Some (opt_str (Item.text current) ++ delta) |>
    <| Item.eventKey := match Item.eventKey current with Some k => Some k | None => key end |>
    <| Item.origin := match Item.origin current with Some o => Some o | None => Some event end |>.

(** [appendReasoningDelta]; [rnd] is the suffix drawn from [Math.random]. *)
Definition appendReasoningDelta (rnd : string) (delta : string) (index : Z)
    (key : option string) (s : State) : State :=
  if String.eqb delta "" then s
  else
    match reasoningTarget s with
    | Some targetIndex =>
        match nth_error (items s) targetIndex with
        | Some current =>
            s <| reasoningIdRef := Some (Item.id current) |>
              <| items := (firstn targetIndex (items s)
                             ++ mergeDelta delta key current
                             :: skipn (S targetIndex) (items s))%list |>
        | None => s
        end
    | None =>
        let id := "reasoning-" ++ string_of_Z index ++ "-" ++ rnd in
        s <| reasoningIdRef := Some id |>
          <| items ::= (fun l =>
                          (l ++ [Item.mk id assistant (Some "reasoning") (JStr "Reasoning")
                                   (Some delta) JUndefined None (Some index) key
                                   (Some event)])%list) |>
    end.

Definition appendHistoryLines (lines : list Line.t) (s : State) : Outcome :=
  match parseHistoryItems lines with
  | None => Threw s
  | Some parsed =>
      let parsed := List.map asEvent parsed in
      Returned (if negb (Nat.eqb (List.length parsed) 0)
                then s <| items ::= (fun l => (l ++ parsed)%list) |>
                else s)
  end.

(** The index [handleEvent] assigns: [Math.max(0, Math.trunc(nextIndex))]. *)
Definition assignedIndex (s : State) : Z :=
  let nextIndex :=
    match liveIndexRef s with
    | Some live => live
    | None => match historyEnd s with None => 0 | Some e => js_succ e end
    end in
  Z.max 0 (Math_trunc nextIndex).

(** [handleEvent] on the payload [message.event]. *)
Definition handleEvent (rnd : string) (ev : json) (s : State) : Outcome :=
  if negb (truthy ev) then Returned s
  else
    let key := eventKeyFromPayload ev in
    if truthy_str key && bool_decide (opt_str key ∈ seenEventRef s) then Returned s
    else
      let s1 :=
        if truthy_str key
        then s <| seenEventRef ::= (fun X => {[ opt_str key ]} ∪ X) |>
        else s in
      let msgType := prop "type" (prop "msg" ev) in
      let s2 :=
        match msgType with
        | JStr t => if negb (String.eqb t "") then updateActivityFromEvent t s1 else s1
        | _ => s1
        end in
      let s3 :=
        if is_str msgType "user_message" || is_str msgType "agent_message"
        then (updateSessionFromEvent s2) <| reasoningIdRef := None |>
        else s2 in
      let assigned := assignedIndex s3 in
      let s4 := s3 <| liveIndexRef := Some (js_succ assigned) |> in
      if is_str msgType "agent_reasoning" || is_str msgType "agent_reasoning_delta" then
        let delta := extractReasoningText (prop "msg" ev) in
        Returned (if negb (String.eqb delta "")
                  then appendReasoningDelta rnd delta assigned key s4
                  else s4)
      else
        appendHistoryLines [Line.mk (Some assigned) "event" ev None] s4.

(** ** App.vue: the sockets *)

(** *** The stream socket *)

Definition onStreamHistoryChunk (message : Chunk.t) (s : State) : State :=
  if negb (is_open (historyWsRef s)) then
    match handleHistoryChunk message s with
    | Returned s' => s' <| historyPrimed := true |>
    | Threw s' => caught (Threw s')
    end
  else s.

Definition onStreamEvent (rnd : string) (ev : json) (s : State) : State :=
  caught (handleEvent rnd ev s).

(** [loadingId] is the active id captured when the socket was created. *)
Definition onStreamSnapshot (loadingId : option string) (message : Snapshot.t)
    (s : State) : State :=
  if negb (historyPrimed s) then
    match handleSnapshot message s with
    | Returned s' =>
        if opt_string_eqb loadingId (activeId s') then s' <| sessionLoading := false |>
        else s'
    | Threw s' => caught (Threw s')
    end
  else s.

Definition streamOnOpen (s : State) : State :=
  let s0 := s <| wsRef := Some OPEN |> in
  let s1 := if sessionLoading s0 then s0 <| status := "Syncing" |> else s0 in
  let s2 := flushPendingHistoryRequests s1 in
  if negb (lazyHistory s2) then
    sendHistoryRequest (Req.mk None None (Some "tail") (Some HISTORY_TARGET_LIMIT)) s2
  else if Nat.eqb (List.length (items s2)) 0 && negb (is_open (historyWsRef s2))
  then primeHistory s2
  else s2.

Definition streamConnect (s : State) : State :=
  let s1 :=
    match wsRetryRef s with
    | Some h => (clearTimeout h s) <| wsRetryRef := None |>
    | None => s
    end in
  let s2 := s1 <| wsRef := Some CONNECTING |> in
  if truthy_str (activeId s2) then s2 <| status := "Syncing" |> else s2.

(** [closed] and [retries] are the variables of the watcher's closure; the
    new value of [retries] is returned. *)
Definition streamOnClose (closed : bool) (retries : Z) (s : State) : Z * State :=
  let s1 := s <| wsRef := None |> in
  if closed then (retries, s1)
  else
    let retries := retries + 1 in
    let ms := Z.min 10000 (500 * 2 ^ retries) in
    let (h, s2) := setTimeout StreamRetryTimer ms s1 in
    (retries, s2 <| wsRetryRef := Some h |>).

(** *** The history socket *)

Definition onHistoryHistoryChunk (message : Chunk.t) (s : State) : State :=
  match handleHistoryChunk message s with
  | Returned s' => s' <| historyPrimed := true |>
  | Threw s' => caught (Threw s')
  end.

Definition onHistorySnapshot (historyTargetId : string) (message : Snapshot.t)
    (s : State) : State :=
  match handleSnapshot message s with
  | Returned s' =>
      if opt_string_eqb (Some historyTargetId) (activeId s')
      then s' <| sessionLoading := false |>
      else s'
  | Threw s' => caught (Threw s')
  end.

Definition handleHistoryHandshakeFailure (s : State) : State :=
  if negb (truthy_str (activeId s)) || String.eqb (token s) "" then s
  else
    match historyHandshakeRef s with
    | None => s
    | Some hs =>
        if negb (String.eqb (hs_id hs) (opt_str (activeId s)))
           || negb (String.eqb (hs_token hs) (token s))
        then s
        else
          let s1 := s <| historyHandshakeRef := None |> in
          if negb (truthy_str (pendingResumeRef s1))
          then scheduleResume (opt_str (activeId s1)) 0 s1
          else s1
    end.

(** [connect] of the history watcher. *)
Definition historyConnect (run : HistoryRun) (s : State) : State :=
  if historyWsDisabledRef s then s
  else
    let s1 :=
      match historyRetryRef s with
      | Some h => (clearTimeout h s) <| historyRetryRef := None |>
      | None => s
      end in
    let s2 :=
      match historyConnectTimerRef s1 with
      | Some h => clearTimeout h s1
      | None => s1
      end in
    let (h, s3) := setTimeout (HistoryConnectTimer run) 600 s2 in
    s3 <| historyConnectTimerRef := Some h |>.

(** The callback of the 600ms timer of [connect]; [now] is [Date.now()]. *)
Definition historyConnectBody (run : HistoryRun) (now : Z) (s : State) : State :=
  let s1 := s <| historyConnectTimerRef := None |> in
  if historyWsDisabledRef s1 then s1
  else if negb (opt_string_eqb (Some (run_id run)) (activeId s1)) then s1
  else if (0 <? historyWsBackoffRef s1)%Z then
    let ms := Z.min 5000 (200 * 2 ^ historyWsBackoffRef s1) in
    let (h, s2) := setTimeout (HistoryBackoffTimer run) ms s1 in
    s2 <| historyConnectTimerRef := Some h |>
  else
    s1 <| historyWsRef := Some CONNECTING |>
       <| historyHandshakeRef := Some (mkHandshake (run_id run) (run_token run) now) |>.

Definition historyOnOpen (s : State) : State :=
  let s1 := s <| historyWsRef := Some OPEN |>
              <| historyHandshakeRef := None |>
              <| historyWsAttemptRef := 0 |>
              <| historyWsBackoffRef := 0 |> in
  let s2 := flushPendingHistoryRequests s1 in
  if negb (lazyHistory s2) then
    sendHistoryRequest (Req.mk None None (Some "tail") (Some HISTORY_TARGET_LIMIT)) s2
  else if Nat.eqb (List.length (items s2)) 0 then primeHistory s2
  else s2.

(** [ws.onclose] of a history socket: [opened] belongs to the socket,
    [closed] and [retries] to the run that created it. *)
Definition historyOnClose (run : HistoryRun) (closed opened : bool) (retries : Z)
    (s : State) : Z * State :=
  let s1 := s <| historyWsRef := None |> in
  let s2 := if negb opened then handleHistoryHandshakeFailure s1 else s1 in
  let shouldRetry :=
    negb closed && opt_string_eqb (historyWsUrlRef s2) (Some (run_url run)) in
  if negb shouldRetry then (retries, s2)
  else
    let s3 :=
      if negb opened then s2 <| historyWsAttemptRef ::= (fun n => n + 1) |> else s2 in
    if negb opened && (2 <=? historyWsAttemptRef s3)%Z then
      (retries, flushPendingHistoryRequests (s3 <| historyWsDisabledRef := true |>))
    else
      let s4 := s3 <| historyWsBackoffRef ::= (fun b => Z.min 6 (b + 1)) |> in
      let retries := retries + 1 in
      let maxDelay := if historyPrimed s4 then 10000 else 2000 in
      let baseDelay := if historyPrimed s4 then 500 else 200 in
      let ms := Z.min maxDelay (baseDelay * 2 ^ retries) in
      let (h, s5) := setTimeout (HistoryRetryTimer run) ms s4 in
      (retries, s5 <| historyRetryRef := Some h |>).

(** *** Timers *)

Definition find_timer (h : nat) (s : State) : option Timer :=
  List.find (fun t => Nat.eqb (handle t) h) (timers s).

(** The host runs the callback of the pending timer [h] (and forgets the
    timer); [now] is the clock. *)
Definition fireTimer (h : nat) (now : Z) (s : State) : State :=
  match find_timer h s with
  | None => s
  | Some t =>
      let s1 := clearTimeout h s in
      match action t with
      | ResumeAttempt id => resumeAttempt id s1
      | PrimeHistoryTimer => primeHistory (s1 <| primeHistoryTimerRef := None |>)
      | PrimeFillTimer startIndex remaining =>
          sendHistoryRequest (Req.mk (Some startIndex) None None (Some remaining))
            (s1 <| primeFillTimerRef := None |>)
      | StreamRetryTimer => streamConnect s1
      | HistoryRetryTimer run => historyConnect run s1
      | HistoryConnectTimer run => historyConnectBody run now s1
      | HistoryBackoffTimer run => historyConnect run (s1 <| historyConnectTimerRef := None |>)
      end
  end.

(** ** Deliveries *)

(** A message of type [history_chunk], [snapshot] or [event] read from a
    socket.  The control socket has no branch for them. *)
Inductive Delivery :=
| DeliverChunk (from : Channel) (message : Chunk.t)
| DeliverSnapshot (from : Channel) (closureId : option string) (message : Snapshot.t)
| DeliverEvent (rnd : string) (ev : json).

Definition deliver (d : Delivery) (s : State) : State :=
  match d with
  | DeliverChunk StreamWs message => onStreamHistoryChunk message s
  | DeliverChunk HistoryWs message => onHistoryHistoryChunk message s
  | DeliverChunk ControlWs _ => s
  | DeliverSnapshot StreamWs loadingId message => onStreamSnapshot loadingId message s
  | DeliverSnapshot HistoryWs targetId message => onHistorySnapshot (opt_str targetId) message s
  | DeliverSnapshot ControlWs _ _ => s
  | DeliverEvent rnd ev => onStreamEvent rnd ev s
  end.

Definition deliverAll (ds : list Delivery) (s : State) : State :=
  fold_left (fun st d => deliver d st) ds s.

(** ** App.vue: the history watcher and the paging commands *)

(** The computed [historyKey] ([None] is [null]). *)
Definition historyKey (s : State) : option string :=
  if String.eqb (token s) "" || negb (truthy_str (activeId s)) then None
  else if negb (opt_string_eqb (historyActiveTokenRef s) (Some (token s))) then None
  else if historyWsDisabledRef s then None
  else if negb (match historyWsModeRef s with ws_initial => true | ws_stream => false end)
  then None
  else if truthy_str (historyInitialSessionRef s)
          && negb (opt_string_eqb (activeId s) (historyInitialSessionRef s))
  then None
  else Some (token s ++ "::" ++ opt_str (activeId s)).

(** The first watcher of [historyKey]. *)
Definition historyKeyReady (s : State) : State :=
  if truthy_str (historyKey s)
  then schedulePrimeHistory true (s <| lazyHistoryReady := true |>)
  else s.

(** The second watcher of [historyKey]; [url] is the address it builds from
    the location of the page. *)
Definition historyWatch (url : string) (s : State) : State :=
  if negb (truthy_str (historyKey s)) then closeHistorySocket s
  else
    let s1 := s <| historyWsDisabledRef := false |>
                <| historyWsAttemptRef := 0 |>
                <| historyWsUrlRef := Some url |> in
    historyConnect (mkRun url (opt_str (activeId s1)) (token s1)) s1.

(** The [onCleanup] of a run of the second watcher (its [closed = true] is
    the argument [closed] of later [historyOnClose]). *)
Definition historyCleanup (s : State) : State :=
  let s1 :=
    match historyRetryRef s with
    | Some h => (clearTimeout h s) <| historyRetryRef := None |>
    | None => s
    end in
  let s2 :=
    match historyConnectTimerRef s1 with
    | Some h => (clearTimeout h s1) <| historyConnectTimerRef := None |>
    | None => s1
    end in
  (cancelPrimeFill (cancelPrimeHistory s2))
    <| primeHistoryInFlightRef := false |>
    <| pendingHistoryRequests := [] |>
    <| historyWsUrlRef := None |>
    <| historyWsRef := None |>.

Definition loadOlder (s : State) : State :=
  match historyStart s with
  | None => s
  | Some start =>
      sendHistoryRequest (Req.mk (Some start) None None (Some 200))
        (s <| loading := true |> <| status := "Loading earlier history" |>)
  end.

Definition loadNewer (s : State) : State :=
  match historyEnd s with
  | None => s
  | Some e =>
      sendHistoryRequest (Req.mk None (Some e) None (Some 200))
        (s <| loading := true |> <| status := "Loading newer history" |>)
  end.

Definition jumpToStart (s : State) : State :=
  sendHistoryRequest (Req.mk None None (Some "head") (Some 200))
    (s <| loading := true |> <| status := "Loading earliest history" |>).

Definition jumpToEnd (s : State) : State :=
  sendHistoryRequest (Req.mk None None (Some "tail") (Some 200))
    (s <| loading := true |> <| status := "Loading latest history" |>).

(** ** App.vue: the stream watcher *)

(** [StreamTarget]. *)
Record StreamTarget := mkStreamTarget {
  target_token : string;
  target_id : string;
  target_rollout : option string;
}.

(** The computed [streamTarget] ([None] is [null]). *)
Definition streamTarget (s : State) : option StreamTarget :=
  if String.eqb (token s) "" then None
  else if truthy_str (pendingResumeRef s) then None
  else if truthy_str (runtimeId s) then
    Some (mkStreamTarget (token s) (opt_str (runtimeId s))
            (if truthy_str (activeId s) && negb (opt_string_eqb (runtimeId s) (activeId s))
             then activeId s else None))
  else if sessionLoading s || negb (truthy_str (activeId s)) then None
  else Some (mkStreamTarget (token s) (opt_str (activeId s)) None).

(** The callback of the stream watcher, run when [streamKey] changes:
    without a target it does nothing, with one it connects. *)
Definition streamWatch (s : State) : State :=
  match streamTarget s with
  | None => s
  | Some _ => streamConnect s
  end.

(** The [onCleanup] of a run of the stream watcher that connected (its
    [closed = true] is the argument [closed] of later [streamOnClose]). *)
Definition streamCleanup (s : State) : State :=
  let s1 :=
    match wsRetryRef s with
    | Some h => (clearTimeout h s) <| wsRetryRef := None |>
    | None => s
    end in
  (cancelPrimeFill (cancelPrimeHistory s1))
    <| primeHistoryInFlightRef := false |>
    <| wsRef := None |>.

(** ** Callbacks of the event loop *)

(** The callbacks that act on the timeline and on the two sockets: the
    deliveries, the timers, the handlers of the stream socket with the run
    and the cleanup of its watcher, the close of a history socket with the
    watchers of its key and their cleanup, the confirmation of a resume,
    the switch of the session with the watcher of the active id, and the
    paging commands. *)
Inductive Callback :=
| OnDeliver (d : Delivery)
| OnTimer (h : nat) (now : Z)
| OnStreamOpen
| OnStreamClose (closed : bool) (retries : Z)
| OnStreamKey
| OnStreamCleanup
| OnHistoryClose (run : HistoryRun) (closed opened : bool) (retries : Z)
| OnHistoryKey (url : string)
| OnHistoryCleanup
| OnResumed (message : Resumed)
| OnActivate (id : option string)
| OnLoadSession (id : string)
| OnLoadOlder
| OnLoadNewer
| OnJumpToStart
| OnJumpToEnd.

Definition callback (c : Callback) (s : State) : State :=
  match c with
  | OnDeliver d => deliver d s
  | OnTimer h now => fireTimer h now s
  | OnStreamOpen => streamOnOpen s
  | OnStreamClose closed retries => snd (streamOnClose closed retries s)
  | OnStreamKey => streamWatch s
  | OnStreamCleanup => streamCleanup s
  | OnHistoryClose run closed opened retries =>
      snd (historyOnClose run closed opened retries s)
  | OnHistoryKey url => historyWatch url (historyKeyReady s)
  | OnHistoryCleanup => historyCleanup s
  | OnResumed message => onConversationResumed message s
  | OnActivate id => activateSession id s
  | OnLoadSession id => loadSession id s
  | OnLoadOlder => loadOlder s
  | OnLoadNewer => loadNewer s
  | OnJumpToStart => jumpToStart s
  | OnJumpToEnd => jumpToEnd s
  end.

Definition callbacks (cs : list Callback) (s : State) : State :=
  fold_left (fun st c => callback c st) cs s.

(** ** App.vue: the labels and the filters *)

Section Trim.

(** [String.prototype.trim] of the host: the set of characters it strips is
    the host's.  Nothing below depends on it. *)
Variable String_trim : string -> string.

(** [s.slice(0, e)]: a negative [e] counts from the end. *)
Definition slice0 (s : string) (e : Z) : string :=
  let len := Z.of_nat (String.length s) in
  let stop := if (e <? 0)%Z then Z.max 0 (len + e) else Z.min e len in
  String.substring 0 (Z.to_nat stop) s.

Definition compactLabel (value : string) (maxLength : Z) : string :=
  let trimmed := String_trim value in
  if (Z.of_nat (String.length trimmed) <=? maxLength)%Z then trimmed
  else if (maxLength <=? 3)%Z then slice0 trimmed maxLength
  else slice0 trimmed (Z.max 0 (maxLength - 3)) ++ "...".

(** [FilterState]: [kinds] has a flag for each kind; a subkind is switched
    off when its entry is [false] ([=== false] in the source). *)
Record FilterState := mkFilters {
  filter_kinds : TimelineKind -> bool;
  filter_subkinds : gmap string bool;
}.

Definition subkind_off (filters : FilterState) (sub : string) : bool :=
  bool_decide (filter_subkinds filters !! sub = Some false).

(** The predicate of the computed [filteredItems]. *)
Definition shown (filters : FilterState) (item : Item.t) : bool :=
  let hasText :=
    match Item.text item with
    | Some t => negb (String.eqb t "") && (0 <? String.length (String_trim t))%nat
    | None => false
    end in
  let hasImage := truthy (Item.imageUrl item) in
  if negb hasText && negb hasImage then false
  else if bool_decide (Item.subkind item = Some "image")
  then negb (subkind_off filters "image")
  else if negb (filter_kinds filters (Item.kind item)) then false
  else if truthy_str (Item.subkind item)
          && subkind_off filters (opt_str (Item.subkind item))
  then false
  else true.

Definition filteredItems (filters : FilterState) (s : State) : list Item.t :=
  List.filter (shown filters) (items s).

End Trim.

(** [toggleKind] and [toggleSubkind]: [!value] of a missing flag is [true]. *)
Definition toggleKind (k : TimelineKind) (filters : FilterState) : FilterState :=
  mkFilters
    (fun kind => if kind_eqb kind k then negb (filter_kinds filters kind)
                 else filter_kinds filters kind)
    (filter_subkinds filters).

Definition toggleSubkind (sub : string) (filters : FilterState) : FilterState :=
  mkFilters (filter_kinds filters)
    (<[ sub := negb (default false (filter_subkinds filters !! sub)) ]>
       (filter_subkinds filters)).

(** The computed [hasMore] and the command [loadMore]. *)
Definition hasMore (s : State) : bool :=
  match historyMode s with
  | mode_tail => hasMoreBefore s
  | mode_head => hasMoreAfter s
  end.

Definition loadMore (s : State) : State :=
  match historyMode s with
  | mode_tail => loadOlder s
  | mode_head => loadNewer s
  end.

(** ** TimelinePanel.vue: the groups of the timeline *)

(** A group [{ index, items }]. *)
Record Group := mkGroup {
  group_index : option Z;
  group_items : list Item.t;
}.

Definition is_assistant (item : Item.t) : bool := kind_eqb (Item.kind item) assistant.

Definition is_diff (item : Item.t) : bool := kind_eqb (Item.kind item) diff.

(** [finalizeGroup]: in a group with an index, the assistant entries go
    last. *)
Definition finalizeGroup (group : Group) : Group :=
  match group_index group with
  | Some _ =>
      mkGroup (group_index group)
        (List.filter (fun item => negb (is_assistant item)) (group_items group)
           ++ List.filter is_assistant (group_items group))%list
  | None => group
  end.

(** One turn of the [forEach] of [groupedItems]: the groups already
    finalized and the group [current]. *)
Definition groupStep (acc : list Group * option Group) (item : Item.t)
    : list Group * option Group :=
  let (groups, current) := acc in
  let key := Item.index item in
  match current with
  | Some group =>
      if option_Z_eqb (group_index group) key
      then (groups, Some (mkGroup (group_index group) (group_items group ++ [item])%list))
      else ((groups ++ [finalizeGroup group])%list, Some (mkGroup key [item]))
  | None => (groups, Some (mkGroup key [item]))
  end.

(** The computed [groupedItems]. *)
Definition groupedItems (l : list Item.t) : list Group :=
  let (groups, current) := fold_left groupStep l ([], None) in
  match current with
  | Some group => (groups ++ [finalizeGroup group])%list
  | None => groups
  end.

(** The computed [diffGroups]: the positions of the groups with a diff. *)
Fixpoint diffGroupsFrom (position : nat) (groups : list Group) : list nat :=
  match groups with
  | [] => []
  | group :: rest =>
      if existsb is_diff (group_items group)
      then position :: diffGroupsFrom (S position) rest
      else diffGroupsFrom (S position) rest
  end.

Definition diffGroups (l : list Item.t) : list nat := diffGroupsFrom 0 (groupedItems l).

(** The group [jumpToNextDiff] scrolls to, [None] when it does nothing;
    [currentIndex] is the first visible group, if any. *)
Definition jumpToNextDiff (l : list Item.t) (currentIndex : option nat) : option nat :=
  match currentIndex with
  | None => None
  | Some current => List.find (fun index => (current <? index)%nat) (diffGroups l)
  end.

Definition jumpToPrevDiff (l : list Item.t) (currentIndex : option nat) : option nat :=
  match currentIndex with
  | None => None
  | Some current => List.find (fun index => (index <? current)%nat) (List.rev (diffGroups l))
  end.

(** ** Notions used by the statements *)

(** What [registerHistoryLines] does, as functions of the two sets: the
    lines it keeps and the sets it leaves. *)
Definition lineSeen (X : gset Z) (line : Line.t) : bool :=
  match Line.index line with
  | Some i => bool_decide (i ∈ X)
  | None => false
  end.

Definition lineSuperseded (skipAgentMessages : bool) (line : Line.t) : bool :=
  String.eqb (entry_type (extractEntry line)) "event"
  && (skipAgentMessages
      && is_str (lineMsgType (entry_payload (extractEntry line))) "agent_message").

Definition markIndex (line : Line.t) (X : gset Z) : gset Z :=
  match Line.index line with
  | Some i => {[ i ]} ∪ X
  | None => X
  end.

Definition markKey (line : Line.t) (Y : gset string) : gset string :=
  if String.eqb (entry_type (extractEntry line)) "event"
     && truthy_str (eventKeyFromPayload (entry_payload (extractEntry line)))
  then {[ opt_str (eventKeyFromPayload (entry_payload (extractEntry line))) ]} ∪ Y
  else Y.

Fixpoint freshOf (lines : list Line.t) (skip : bool) (X : gset Z) : list Line.t :=
  match lines with
  | [] => []
  | line :: rest =>
      if lineSeen X line then freshOf rest skip X
      else if lineSuperseded skip line then freshOf rest skip (markIndex line X)
      else line :: freshOf rest skip (markIndex line X)
  end.

Fixpoint indexAfter (lines : list Line.t) (X : gset Z) : gset Z :=
  match lines with
  | [] => X
  | line :: rest =>
      if lineSeen X line then indexAfter rest X
      else indexAfter rest (markIndex line X)
  end.

Fixpoint keysAfter (lines : list Line.t) (X : gset Z) (Y : gset string) : gset string :=
  match lines with
  | [] => Y
  | line :: rest =>
      if lineSeen X line then keysAfter rest X Y
      else keysAfter rest (markIndex line X) (markKey line Y)
  end.

(** The state after the registration of the lines of a response. *)
Definition registered (s : State) (X : gset Z) (Y : gset string) : State :=
  s <| primeHistoryInFlightRef := false |>
    <| seenLineIndexRef := X |>
    <| seenEventRef := Y |>.

(** The tail branch of [mergeHistory] up to the decision on the follow-up. *)
Definition tailState (message : Chunk.t) (historyItems : list Item.t) (s : State)
    : State :=
  cancelPrimeHistory
    ((cancelPrimeFill s)
       <| reasoningIdRef := None |>
       <| items := historyItems |>
       <| historyMode := mode_tail |>
       <| hasMoreBefore := Chunk.truncated message |>
       <| hasMoreAfter := false |>
       <| historyStart := Chunk.start_index message |>
       <| historyEnd := Chunk.end_index message |>).

(** The entries of an anchored response ([None] when the conversion
    throws): they depend on the response alone. *)
Definition anchorItems (message : Chunk.t) : option (list Item.t) :=
  option_map (List.map asHistory)
    (parseHistoryItems
       (freshOf (Chunk.items message) (hasAssistantResponseItem (Chunk.items message)) ∅)).

(** The next live index after a response that ends at [endIndex]. *)
Definition advance (live : option Z) (endIndex : option Z) : option Z :=
  match endIndex with
  | None => live
  | Some e =>
      match live with
      | None => Some (js_succ e)
      | Some l => if (l <=? e)%Z then Some (js_succ e) else Some l
      end
  end.

(** [handleEvent] up to the assignment of the index: the key is recorded,
    the activity updated, the reasoning target dropped on a message. *)
Definition eventPrelude (ev : json) (s : State) : State :=
  let key := eventKeyFromPayload ev in
  let s1 :=
    if truthy_str key
    then s <| seenEventRef ::= (fun X => {[ opt_str key ]} ∪ X) |>
    else s in
  let msgType := prop "type" (prop "msg" ev) in
  let s2 :=
    match msgType with
    | JStr t => if negb (String.eqb t "") then updateActivityFromEvent t s1 else s1
    | _ => s1
    end in
  if is_str msgType "user_message" || is_str msgType "agent_message"
  then (updateSessionFromEvent s2) <| reasoningIdRef := None |>
  else s2.

(** An event is a duplicate when its key was seen. *)
Definition duplicateEvent (ev : json) (s : State) : bool :=
  truthy_str (eventKeyFromPayload ev)
  && bool_decide (opt_str (eventKeyFromPayload ev) ∈ seenEventRef s).

Definition isReasoning (ev : json) : bool :=
  is_str (prop "type" (prop "msg" ev)) "agent_reasoning"
  || is_str (prop "type" (prop "msg" ev)) "agent_reasoning_delta".

(** The entries of a live event that is not a reasoning delta, at index [i]. *)
Definition eventEntries (i : Z) (ev : json) : list Item.t :=
  List.map asEvent
    (acc_items (parseEventEntry (Some i) (mkEntry "event" ev) (mkAcc [] ∅))).

(** An entry without its id and its index. *)
Definition entryContent (item : Item.t)
    : TimelineKind * option string * json * option string * json * option string
      * option string * option Origin :=
  (Item.kind item, Item.subkind item, Item.title item, Item.text item,
   Item.imageUrl item, Item.meta item, Item.eventKey item, Item.origin item).

(** The live entries that [dropEventDuplicates] leaves in a list. *)
Definition survivors (historyItems : list Item.t) (l : list Item.t) : list Item.t :=
  if Nat.eqb (List.length l) 0 || Nat.eqb (List.length historyItems) 0 then l
  else List.filter (survivesHistory historyItems) l.

(** Each line of the list is unseen when its turn comes. *)
Fixpoint unseen_run (X : gset Z) (lines : list Line.t) : Prop :=
  match lines with
  | [] => True
  | line :: rest => lineSeen X line = false /\ unseen_run (markIndex line X) rest
  end.

(** The state a switch to the session [b] leaves when it takes effect. *)
Definition switched (b : string) (s : State) : State :=
  schedulePrimeHistory true
    (scheduleResume b 200
       ((resetHistoryTracking
           (resetActivity
              (cancelPrimeFill
                 ((setHistoryWsModeForSession (Some b) s)
                    <| lastRequestedSessionRef := Some b |>
                    <| reasoningIdRef := None |>
                    <| primeHistoryInFlightRef := false |>
                    <| historyPrimed := false |>
                    <| lazyHistoryReady := false |>
                    <| pendingHistoryRequests := [] |>))))
          <| lastIndexRef := None |>
          <| lastConversation := Some b |>
          <| sessionLoading := true |>
          <| runtimeId := None |>
          <| items := [] |>
          <| historyStart := None |>
          <| historyEnd := None |>
          <| hasMoreBefore := false |>
          <| hasMoreAfter := false |>
          <| historyMode := mode_tail |>
          <| liveIndexRef := None |>
          <| activeId := Some b |>)).



(** The handles of the pending timers are below the next handle. *)
Definition timers_fresh (s : State) : Prop :=
  Forall (fun t => (handle t < nextTimer s)%nat) (timers s).

(** No history socket, and none to come: the socket ref is null and the
    channel disabled. *)
Definition no_history_socket (s : State) : Prop :=
  historyWsRef s = None /\ historyWsDisabledRef s = true.

(** An envelope that is not on the history socket, and on the stream socket
    if it is a history request. *)
Definition off_history_socket (p : Channel * Envelope) : bool :=
  match p with
  | (HistoryWs, _) => false
  | (StreamWs, _) => true
  | (ControlWs, history_request _ _) => false
  | (ControlWs, _) => true
  end.

(** The second log extends the first by such envelopes. *)
Definition off_history (o o' : list (Channel * Envelope)) : Prop :=
  exists extra,
    o' = (o ++ extra)%list /\ Forall (fun p => off_history_socket p = true) extra.

(** A step that keeps the history socket out of use. *)
Definition keeps_off (s s' : State) : Prop :=
  no_history_socket s ->
  no_history_socket s' /\ off_history (outbox s) (outbox s').

(** A step that leaves alone the fields of the history channel, the active
    session and the log of what was sent. *)
Definition same_channel (s s' : State) : Prop :=
  historyWsRef s' = historyWsRef s
  /\ activeId s' = activeId s
  /\ historyWsDisabledRef s' = historyWsDisabledRef s
  /\ historyWsModeRef s' = historyWsModeRef s
  /\ outbox s' = outbox s.

(** The history channel is idle: there is no history socket, and either no
    session is active or the channel is disabled and its mode "stream". *)
Definition idle (s : State) : Prop :=
  historyWsRef s = None
  /\ (activeId s = None
      \/ (historyWsDisabledRef s = true /\ historyWsModeRef s = ws_stream)).

(** A step that keeps the history channel idle. *)
Definition keeps_idle (s s' : State) : Prop :=
  idle s ->
  idle s' /\ off_history (outbox s) (outbox s').

(** The label and the command counter after each event type. *)
Fixpoint activityTrace (msgTypes : list string) (s : State)
    : list (option string * Z) :=
  match msgTypes with
  | [] => []
  | t :: rest =>
      let s' := updateActivityFromEvent t s in
      (activityLabelRef s', activeExecCountRef s') :: activityTrace rest s'
  end.

(** The order of the next live index: [null] is below every index. *)
Definition live_le (a b : option Z) : Prop :=
  match a, b with
  | None, _ => True
  | Some x, Some y => (x <= y)%Z
  | Some _, None => False
  end.

(** Two entries clash when they carry the same key and one of them did not
    come from history. *)
Definition clash (a b : Item.t) : Prop :=
  exists k, Item.eventKey a = Some k /\ Item.eventKey b = Some k
            /\ ~ (Item.origin a = Some history /\ Item.origin b = Some history).

Fixpoint live_unique (l : list Item.t) : Prop :=
  match l with
  | [] => True
  | a :: rest => Forall (fun b => ~ clash a b) rest /\ live_unique rest
  end.

(** The key of an entry, if any, is a non-empty string of the set. *)
Definition key_in (K : gset string) (item : Item.t) : Prop :=
  forall k, Item.eventKey item = Some k -> k <> "" /\ k ∈ K.

Definition keys_in (K : gset string) (l : list Item.t) : Prop := Forall (key_in K) l.

(** An entry with a key has an origin. *)
Definition has_origin (l : list Item.t) : Prop :=
  Forall (fun item => Item.origin item = None -> Item.eventKey item = None) l.

(** The invariant of the item list and the set of seen keys. *)
Definition keys_ok (s : State) : Prop :=
  live_unique (items s) /\ keys_in (seenEventRef s) (items s) /\ has_origin (items s).

(** The conversion of a line throws (whatever was converted before it). *)
Definition throws (line : Line.t) : bool :=
  match parseLine line (mkAcc [] ∅) with
  | None => true
  | Some _ => false
  end.

(** A delivery none of whose lines throws. *)
Definition converts (d : Delivery) : bool :=
  match d with
  | DeliverChunk _ message => forallb (fun line => negb (throws line)) (Chunk.items message)
  | DeliverSnapshot _ _ message =>
      forallb (fun line => negb (throws line)) (Snapshot.rollout message)
  | DeliverEvent _ _ => true
  end.

(** The entries that came from history precede the others: from the place
    [findLiveStart] finds, no entry came from history. *)
Definition is_history (item : Item.t) : bool := is_origin (Item.origin item) history.

Definition history_first (l : list Item.t) : bool :=
  match findLiveStart l with
  | None => true
  | Some liveStart => forallb (fun item => negb (is_history item)) (skipn liveStart l)
  end.

(** The activity machine fed with the types of a run of events. *)
Definition feedActivity (msgTypes : list string) (s : State) : State :=
  fold_left (fun st t => updateActivityFromEvent t st) msgTypes s.

Definition execBegins (msgTypes : list string) : Z :=
  Z.of_nat (List.length
              (List.filter (fun t => String.eqb t "exec_command_begin") msgTypes)).

Definition toolBegins (msgTypes : list string) : Z :=
  Z.of_nat (List.length
              (List.filter
                 (fun t => one_of t ["custom_tool_call_begin"; "mcp_tool_call_begin";
                                     "web_search_begin"]) msgTypes)).

(** The order of the ends of the covered range: [null] is the empty range. *)
Definition start_le (a b : option Z) : Prop :=
  match a, b with
  | _, None => True
  | Some x, Some y => (x <= y)%Z
  | None, Some _ => False
  end.

(** An entry converted from a line: it carries the index of the line, and
    the key of the line if any. *)
Definition from_line (line : Line.t) (item : Item.t) : Prop :=
  Item.index item = Line.index line
  /\ (Item.eventKey item = None
      \/ (entry_type (extractEntry line) = "event"
          /\ Item.eventKey item = eventKeyFromPayload (entry_payload (extractEntry line)))).

(** No two neighbours of the list are equal. *)
Fixpoint distinct_neighbours (l : list (option Z)) : Prop :=
  match l with
  | [] => True
  | a :: rest =>
      match rest with
      | [] => True
      | b :: _ => a <> b
      end /\ distinct_neighbours rest
  end.

(** A group of the timeline: it is not empty, its entries carry its index,
    and when it has an index its assistant entries come last. *)
Definition group_ok (group : Group) : Prop :=
  group_items group <> []
  /\ Forall (fun item => Item.index item = group_index group) (group_items group)
  /\ (group_index group <> None ->
      exists others assistants,
        group_items group = (others ++ assistants)%list
        /\ Forall (fun item => is_assistant item = false) others
        /\ Forall (fun item => is_assistant item = true) assistants).

(** The entries in the finalized groups and in the current group of the
    [forEach] of [groupedItems]. *)
Definition flat (acc : list Group * option Group) : list Item.t :=
  (concat (List.map group_items (fst acc))
     ++ match snd acc with Some group => group_items group | None => [] end)%list.

(** What the [forEach] of [groupedItems] keeps true. *)
Definition grouping (acc : list Group * option Group) : Prop :=
  Forall group_ok (fst acc)
  /\ match snd acc with
     | Some group =>
         group_items group <> []
         /\ Forall (fun item => Item.index item = group_index group) (group_items group)
     | None => fst acc = []
     end
  /\ distinct_neighbours
       (List.map group_index (fst acc)
          ++ match snd acc with Some group => [group_index group] | None => [] end).

(** The group at a position has a diff entry. *)
Definition diff_at (groups : list Group) (position : nat) : bool :=
  match nth_error groups position with
  | Some group => existsb is_diff (group_items group)
  | None => false
  end.

(** The entries of a snapshot ([None] when the conversion throws). *)
Definition snapshotItems (message : Snapshot.t) : option (list Item.t) :=
  option_map (List.map asHistory)
    (parseHistoryItems
       (freshOf (Snapshot.rollout message)
          (hasAssistantResponseItem (Snapshot.rollout message)) ∅)).

(** The request [loadMore] makes after an anchored response: for lines
    before the start after a tail, after the end after a head. *)
Definition nextPage (message : Chunk.t) : option Req.t :=
  if opt_string_eqb (Chunk.anchor message) (Some "head")
  then option_map (fun e => Req.mk None (Some e) None (Some 200)) (Chunk.end_index message)
  else option_map (fun a => Req.mk (Some a) None None (Some 200)) (Chunk.start_index message).

(** The three things [appendReasoningDelta] does to the list. *)
Inductive delta_step (key : option string) (l : list Item.t) : list Item.t -> Prop :=
| delta_same : delta_step key l l
| delta_merged (l1 l2 : list Item.t) (current : Item.t) (delta : string) :
    l = (l1 ++ current :: l2)%list ->
    delta_step key l (l1 ++ mergeDelta delta key current :: l2)
| delta_new (e : Item.t) :
    Item.eventKey e = key -> Item.origin e = Some event ->
    delta_step key l (l ++ [e]).

(** ** Sample responses and events *)

(** An event line that carries the key ["a:1"]. *)
Definition keyed_line (i : Z) (text : string) : Line.t :=
  Line.mk (Some i) "event"
    (JObj [("id", JStr "a"); ("event_seq", JNum 1);
           ("msg", JObj [("type", JStr "user_message"); ("message", JStr text)])])
    None.

(** An event line without a key. *)
Definition event_line (i : Z) (msgType : string) : Line.t :=
  Line.mk (Some i) "event"
    (JObj [("msg", JObj [("type", JStr msgType); ("message", JStr "m")])]) None.

Definition assistant_line (i : Z) : Line.t :=
  Line.mk (Some i) "response_item"
    (JObj [("type", JStr "message"); ("role", JStr "assistant");
           ("content", JArr [JObj [("type", JStr "output_text"); ("text", JStr "answer")]])])
    None.

(** A message line with a null content segment: its conversion throws. *)
Definition throwing_line (i : Z) : Line.t :=
  Line.mk (Some i) "response_item"
    (JObj [("type", JStr "message"); ("role", JStr "user"); ("content", JArr [JNull])])
    None.

(** A live event with the key ["a:1"]. *)
Definition keyed_event : json :=
  JObj [("id", JStr "a"); ("event_seq", JNum 1);
        ("msg", JObj [("type", JStr "user_message"); ("message", JStr "x")])].

(** A truncated tail response of two lines with the same key. *)
Definition tail_page (start : option Z) : Chunk.t :=
  Chunk.mk [keyed_line 0 "x"; keyed_line 1 "y"] start (Some 1) true None None (Some "tail").

Definition first_entry : Item.t :=
  Item.mk "0-user" user (Some "message") (JStr "You") (Some "x") JUndefined None
    (Some 0) (Some "a:1") (Some history).

Definition second_entry : Item.t :=
  Item.mk "1-user" user (Some "message") (JStr "You") (Some "y") JUndefined None
    (Some 1) (Some "a:1") (Some history).

Definition tail_entries : list Item.t := [first_entry; second_entry].

(** A page before index 10 with the lines 0 to 15, all user messages. *)
Definition before_page (lines : list Line.t) : Chunk.t :=
  Chunk.mk lines (Some 0) (Some 15) false (Some 10) None None.

Definition user_lines : list Line.t :=
  List.map (fun i => event_line i "user_message") (seqZ 0 16).

(** The same page with an agent_message event at index 3 and the assistant
    response item that supersedes it at index 5. *)
Definition superseding_lines : list Line.t :=
  List.map (fun i => if (i =? 3)%Z then event_line i "agent_message"
                     else if (i =? 5)%Z then assistant_line i
                     else event_line i "user_message") (seqZ 0 16).

Definition seen_10_50 : State :=
  (initialState "t") <| seenLineIndexRef := list_to_set (seqZ 10 41) |>.

Definition keyless_message : json :=
  JObj [("msg", JObj [("type", JStr "user_message"); ("message", JStr "hi")])].

Definition keyless_delta : json :=
  JObj [("msg", JObj [("type", JStr "agent_reasoning_delta"); ("delta", JStr "abc")])].

Definition session_A : State := activateSession (Some "A") (initialState "t").

(** * Properties *)

(** The scrutinee of the outermost [match] (or [if]) of a term, looking
    through applications from the left. *)
Ltac outer_match t :=
  lazymatch t with
  | match ?x with _ => _ end =>
      match constr:(Set) with
      | _ => outer_match x
      | _ => constr:(x)
      end
  | ?f ?a =>
      match constr:(Set) with
      | _ => outer_match f
      | _ => outer_match a
      end
  end.

(** Case analysis on the outermost [match] of the goal. *)
Ltac peel :=
  match goal with
  | |- ?G => let x := outer_match G in destruct x eqn:?
  end.

Ltac peel_all := repeat (peel; cbn in *).

(** The same on the goal alone, for a goal in constructor form. *)
Ltac peel_goal := repeat (peel; cbv beta iota).

(** The same with [cbn] on the goal. *)
Ltac peel_cbn := repeat (peel; cbn).

(** A conjunction of equations that hold by computation. *)
Ltac by_fields := repeat match goal with |- _ /\ _ => split end; reflexivity.

(** ** What a history response registers *)

Lemma registerLine_spec (skip : bool) (line : Line.t) (s : State) :
  registerLine skip line s
  = (negb (lineSeen (seenLineIndexRef s) line) && negb (lineSuperseded skip line),
     s <| seenLineIndexRef :=
            if lineSeen (seenLineIndexRef s) line then seenLineIndexRef s
            else markIndex line (seenLineIndexRef s) |>
       <| seenEventRef :=
            if lineSeen (seenLineIndexRef s) line then seenEventRef s
            else markKey line (seenEventRef s) |>).
Proof.
  destruct s; cbn.
  unfold registerLine, lineSeen, lineSuperseded, markIndex, markKey; cbn.
  destruct (Line.index line) as [i|]; cbn.
  - destruct (bool_decide (i ∈ _)); cbn; [reflexivity|].
    destruct (String.eqb _ "event"); cbn; [|reflexivity].
    destruct (truthy_str _); cbn; destruct skip; cbn; try reflexivity;
      destruct (is_str _ _); reflexivity.
  - destruct (String.eqb _ "event"); cbn; [|reflexivity].
    destruct (truthy_str _); cbn; destruct skip; cbn; try reflexivity;
      destruct (is_str _ _); reflexivity.
Qed.

Lemma registerHistoryLines_spec (lines : list Line.t) (skip : bool) (s : State) :
  registerHistoryLines lines skip s
  = (freshOf lines skip (seenLineIndexRef s),
     s <| seenLineIndexRef := indexAfter lines (seenLineIndexRef s) |>
       <| seenEventRef := keysAfter lines (seenLineIndexRef s) (seenEventRef s) |>).
Proof.
  revert s. induction lines as [|line rest IH]; intros s.
  - destruct s; reflexivity.
  - cbn [registerHistoryLines freshOf indexAfter keysAfter].
    rewrite registerLine_spec. rewrite IH.
    destruct s; cbn.
    destruct (lineSeen _ line); cbn; [reflexivity|].
    destruct (lineSuperseded skip line); reflexivity.
Qed.

(** [handleHistoryChunk] with the registration written out. *)
Lemma handleHistoryChunk_anchor (message : Chunk.t) (s : State) :
  is_anchor message = true ->
  handleHistoryChunk message s
  = match anchorItems message with
    | None =>
        Threw (registered s (indexAfter (Chunk.items message) ∅)
                 (keysAfter (Chunk.items message) ∅ ∅))
    | Some historyItems =>
        Returned
          (recordRange message
             (mergeHistory message historyItems
                (registered s (indexAfter (Chunk.items message) ∅)
                   (keysAfter (Chunk.items message) ∅ ∅))))
    end.
Proof.
  intros Ha. unfold handleHistoryChunk, anchorItems. rewrite Ha.
  rewrite registerHistoryLines_spec.
  change (seenLineIndexRef (resetHistoryTracking _)) with (∅ : gset Z).
  change (seenEventRef (resetHistoryTracking _)) with (∅ : gset string).
  destruct (parseHistoryItems _); cbn [option_map]; destruct s; reflexivity.
Qed.

Lemma handleHistoryChunk_paged (message : Chunk.t) (s : State) :
  is_anchor message = false ->
  let X := seenLineIndexRef s in
  let skip := hasAssistantResponseItem (Chunk.items message) in
  handleHistoryChunk message s
  = match parseHistoryItems (freshOf (Chunk.items message) skip X) with
    | None =>
        Threw (registered s (indexAfter (Chunk.items message) X)
                 (keysAfter (Chunk.items message) X (seenEventRef s)))
    | Some parsed =>
        Returned
          (recordRange message
             (mergeHistory message (List.map asHistory parsed)
                (registered s (indexAfter (Chunk.items message) X)
                   (keysAfter (Chunk.items message) X (seenEventRef s)))))
    end.
Proof.
  intros Ha. cbv zeta. unfold handleHistoryChunk. rewrite Ha.
  rewrite registerHistoryLines_spec.
  change (seenLineIndexRef (s <| primeHistoryInFlightRef := false |>))
    with (seenLineIndexRef s).
  change (seenEventRef (s <| primeHistoryInFlightRef := false |>))
    with (seenEventRef s).
  destruct (parseHistoryItems _); destruct s; reflexivity.
Qed.

Lemma tail_is_anchor (message : Chunk.t) :
  Chunk.anchor message = Some "tail" -> is_anchor message = true.
Proof. intros H. unfold is_anchor. rewrite H. reflexivity. Qed.

(** *** Fields that the parts of [handleHistoryChunk] leave alone *)

Lemma recordRange_frame (message : Chunk.t) (s : State) :
  items (recordRange message s) = items s
  /\ historyWsRef (recordRange message s) = historyWsRef s
  /\ timers (recordRange message s) = timers s
  /\ primeFillTimerRef (recordRange message s) = primeFillTimerRef s
  /\ seenEventRef (recordRange message s) = seenEventRef s
  /\ seenLineIndexRef (recordRange message s) = seenLineIndexRef s
  /\ outbox (recordRange message s) = outbox s
  /\ pendingHistoryRequests (recordRange message s) = pendingHistoryRequests s
  /\ nextTimer (recordRange message s) = nextTimer s
  /\ historyWsDisabledRef (recordRange message s) = historyWsDisabledRef s.
Proof.
  destruct s; unfold recordRange; cbn. peel_all; repeat split.
Qed.

Lemma recordRange_payload (message : Chunk.t) (s : State) (r : Req.t) :
  buildHistoryPayload r (recordRange message s) = buildHistoryPayload r s.
Proof.
  destruct s; unfold recordRange; cbn. peel_all; reflexivity.
Qed.

Lemma mergeHistory_tail (message : Chunk.t) (historyItems : list Item.t) (s : State) :
  Chunk.anchor message = Some "tail" ->
  mergeHistory message historyItems s
  = schedulePrimeFill message historyItems (tailState message historyItems s).
Proof. intros H. unfold mergeHistory. rewrite H. reflexivity. Qed.

(** The state in which the tail branch decides on the follow-up. *)
Lemma tailState_facts (message : Chunk.t) (historyItems : list Item.t) (s : State)
    (X : gset Z) (Y : gset string) :
  let st := tailState message historyItems (registered s X Y) in
  primeFillInFlightRef st = false
  /\ primeFillTimerRef st = None
  /\ timers st = timers (cancelPrimeHistory (cancelPrimeFill s))
  /\ nextTimer st = nextTimer s
  /\ shouldAutoFillHistory (activeId st) st = shouldAutoFillHistory (activeId s) s
  /\ outbox st = outbox s
  /\ pendingHistoryRequests st = pendingHistoryRequests s
  /\ items st = historyItems
  /\ historyWsRef st = historyWsRef s.
Proof.
  destruct s; unfold tailState, registered, cancelPrimeHistory, cancelPrimeFill, clearTimeout; cbn.
  peel_all; repeat split.
Qed.

Lemma schedulePrimeFill_frame (message : Chunk.t) (historyItems : list Item.t) (st : State) :
  items (schedulePrimeFill message historyItems st) = items st
  /\ historyWsRef (schedulePrimeFill message historyItems st) = historyWsRef st
  /\ outbox (schedulePrimeFill message historyItems st) = outbox st
  /\ pendingHistoryRequests (schedulePrimeFill message historyItems st)
     = pendingHistoryRequests st.
Proof.
  destruct st; unfold schedulePrimeFill, setTimeout, clearTimeout; cbn.
  peel_all; repeat split.
Qed.

(** What an anchor=tail response leaves in the item list: the entries of
    the response, or the old list when the conversion throws. *)
Lemma handleHistoryChunk_tail (message : Chunk.t) (s : State) :
  Chunk.anchor message = Some "tail" ->
  match anchorItems message, handleHistoryChunk message s with
  | Some historyItems, Returned s' =>
      items s' = historyItems /\ historyWsRef s' = historyWsRef s
  | None, Threw s' => items s' = items s /\ historyWsRef s' = historyWsRef s
  | _, _ => False
  end.
Proof.
  intros H. rewrite handleHistoryChunk_anchor by (apply tail_is_anchor; exact H).
  destruct (anchorItems message) as [historyItems|].
  - rewrite mergeHistory_tail by exact H.
    destruct (recordRange_frame message
                (schedulePrimeFill message historyItems
                   (tailState message historyItems
                      (registered s (indexAfter (Chunk.items message) ∅)
                         (keysAfter (Chunk.items message) ∅ ∅)))))
      as (Hi & Hw & _).
    rewrite Hi, Hw.
    destruct (schedulePrimeFill_frame message historyItems
                (tailState message historyItems
                   (registered s (indexAfter (Chunk.items message) ∅)
                      (keysAfter (Chunk.items message) ∅ ∅))))
      as (Hi' & Hw' & _).
    rewrite Hi', Hw'.
    destruct (tailState_facts message historyItems s
                (indexAfter (Chunk.items message) ∅) (keysAfter (Chunk.items message) ∅ ∅))
      as (_ & _ & _ & _ & _ & _ & _ & Hi'' & Hw'').
    rewrite Hi'', Hw''. split; reflexivity.
  - split; reflexivity.
Qed.

(** ** Idempotence of an anchor=tail response *)

(** C2.  Delivering the same anchor=tail history_chunk twice in a row, on
    the same socket, leaves the same item list as delivering it once. *)
Theorem C2_tail_twice (from : Channel) (message : Chunk.t) (s : State) :
  Chunk.anchor message = Some "tail" ->
  items (deliver (DeliverChunk from message) (deliver (DeliverChunk from message) s))
  = items (deliver (DeliverChunk from message) s).
Proof.
  intros H.
  assert (Hhist : forall t,
             items (onHistoryHistoryChunk message (onHistoryHistoryChunk message t))
             = items (onHistoryHistoryChunk message t)
             /\ historyWsRef (onHistoryHistoryChunk message t) = historyWsRef t).
  { intros t. unfold onHistoryHistoryChunk.
    pose proof (handleHistoryChunk_tail message t H) as H1.
    destruct (anchorItems message) as [historyItems|] eqn:Ha;
      destruct (handleHistoryChunk message t) as [t1|t1] eqn:E1; try contradiction;
      destruct H1 as [Hi1 Hw1].
    - pose proof (handleHistoryChunk_tail message (t1 <| historyPrimed := true |>) H) as H2.
      rewrite Ha in H2.
      destruct (handleHistoryChunk message (t1 <| historyPrimed := true |>)) as [t2|t2];
        try contradiction.
      destruct H2 as [Hi2 _]. split; [|exact Hw1].
      change (items (t2 <| historyPrimed := true |>)) with (items t2).
      change (items (t1 <| historyPrimed := true |>)) with (items t1).
      congruence.
    - pose proof (handleHistoryChunk_tail message (caught (Threw t1)) H) as H2.
      rewrite Ha in H2.
      destruct (handleHistoryChunk message (caught (Threw t1))) as [t2|t2];
        try contradiction.
      destruct H2 as [Hi2 _]. split; [|exact Hw1].
      change (items (caught (Threw t2))) with (items t2). exact Hi2. }
  destruct from; cbn [deliver].
  - unfold onStreamHistoryChunk.
    destruct (is_open (historyWsRef s)) eqn:Eo; cbn [negb].
    + rewrite Eo. reflexivity.
    + destruct (Hhist s) as [Hi Hw]. unfold onHistoryHistoryChunk in Hi, Hw.
      rewrite Hw, Eo. cbn [negb]. exact Hi.
  - apply Hhist.
  - reflexivity.
Qed.

(** ** The follow-up of a truncated tail response *)

Lemma find_timer_new (l : list Timer) (t : Timer) (h : nat) :
  handle t = h ->
  Forall (fun t' => (handle t' < h)%nat) l ->
  List.find (fun t' => Nat.eqb (handle t') h) (l ++ [t]) = Some t.
Proof.
  intros <-. induction 1 as [|t' l Hlt _ IH]; cbn.
  - rewrite Nat.eqb_refl. reflexivity.
  - destruct (Nat.eqb_spec (handle t') (handle t)); [lia | exact IH].
Qed.

Lemma filter_new_timer (l : list Timer) (t : Timer) (h : nat) :
  handle t = h ->
  Forall (fun t' => (handle t' < h)%nat) l ->
  List.filter (fun t' => negb (Nat.eqb (handle t') h)) (l ++ [t]) = l.
Proof.
  intros <-. induction 1 as [|t' l Hlt _ IH]; cbn.
  - rewrite Nat.eqb_refl. reflexivity.
  - destruct (Nat.eqb_spec (handle t') (handle t)); [lia|]. cbn. rewrite IH. reflexivity.
Qed.

Lemma Forall_filter_keep {A} (P : A -> Prop) (f : A -> bool) (l : list A) :
  Forall P l -> Forall P (List.filter f l).
Proof.
  induction 1; cbn; [constructor|]. destruct (f x); auto.
Qed.

Lemma cancelled_timers_fresh (s : State) :
  timers_fresh s ->
  Forall (fun t => (handle t < nextTimer s)%nat)
    (timers (cancelPrimeHistory (cancelPrimeFill s))).
Proof.
  unfold timers_fresh, cancelPrimeHistory, cancelPrimeFill, clearTimeout.
  destruct s; cbn. intros Hfresh.
  peel_all; repeat apply Forall_filter_keep; exact Hfresh.
Qed.

Lemma schedulePrimeFill_schedules (message : Chunk.t) (historyItems : list Item.t)
    (st : State) (startIndex : Z) :
  Chunk.start_index message = Some startIndex ->
  Chunk.truncated message = true ->
  (Z.of_nat (List.length historyItems) < HISTORY_TARGET_LIMIT)%Z ->
  shouldAutoFillHistory (activeId st) st = true ->
  primeFillInFlightRef st = false ->
  primeFillTimerRef st = None ->
  let s' := schedulePrimeFill message historyItems st in
  let remaining := HISTORY_TARGET_LIMIT - Z.of_nat (List.length historyItems) in
  timers s' = (timers st ++ [mkTimer (nextTimer st) 200 (PrimeFillTimer startIndex remaining)])%list
  /\ primeFillTimerRef s' = Some (nextTimer st)
  /\ primeFillInFlightRef s' = true
  /\ primeFillExpectedBeforeRef s' = Some startIndex.
Proof.
  intros Hs Ht Hlen Hfill Hin Href. cbv zeta. unfold schedulePrimeFill.
  rewrite Hs, Ht, Hfill, Hin.
  replace (Z.of_nat (List.length historyItems) <? HISTORY_TARGET_LIMIT)%Z with true
    by (symmetry; apply Z.ltb_lt; exact Hlen).
  cbn [negb andb].
  destruct st; cbn in Href; subst; cbn. repeat split.
Qed.

(** A request is sent on one socket, or queued; no timer changes. *)
Lemma sendHistoryRequest_effect (request : Req.t) (s : State) :
  timers (sendHistoryRequest request s) = timers s
  /\ ((exists c, outbox (sendHistoryRequest request s)
                 = (outbox s ++ [(c, buildHistoryPayload request s)])%list
                 /\ pendingHistoryRequests (sendHistoryRequest request s)
                    = pendingHistoryRequests s)
      \/ (outbox (sendHistoryRequest request s) = outbox s
          /\ pendingHistoryRequests (sendHistoryRequest request s)
             = (pendingHistoryRequests s ++ [request])%list)).
Proof.
  unfold sendHistoryRequest, send, enqueueHistoryRequest.
  destruct (historyWsModeRef s); repeat peel;
    (split; [reflexivity|]);
    first [ left; eexists; split; reflexivity | right; split; reflexivity ].
Qed.

(** Firing the one pending timer [h]: the timer is gone and its callback
    runs. *)
Lemma fire_primeFill (s1 : State) (old : list Timer) (h : nat) (now startIndex remaining : Z) :
  timers s1 = (old ++ [mkTimer h 200 (PrimeFillTimer startIndex remaining)])%list ->
  Forall (fun t => (handle t < h)%nat) old ->
  fireTimer h now s1
  = sendHistoryRequest (Req.mk (Some startIndex) None None (Some remaining))
      ((clearTimeout h s1) <| primeFillTimerRef := None |>)
  /\ timers (clearTimeout h s1) = old.
Proof.
  intros Ht Hold. unfold fireTimer, find_timer. rewrite Ht.
  rewrite (find_timer_new old (mkTimer h 200 (PrimeFillTimer startIndex remaining)) h
             eq_refl Hold).
  split; [reflexivity|].
  replace (timers (clearTimeout h s1))
    with (List.filter (fun t => negb (Nat.eqb (handle t) h)) (timers s1))
    by (destruct s1; reflexivity).
  rewrite Ht.
  exact (filter_new_timer old (mkTimer h 200 (PrimeFillTimer startIndex remaining)) h
           eq_refl Hold).
Qed.

Lemma cleared_frame (h : nat) (s : State) (r : Req.t) :
  outbox ((clearTimeout h s) <| primeFillTimerRef := None |>) = outbox s
  /\ pendingHistoryRequests ((clearTimeout h s) <| primeFillTimerRef := None |>)
     = pendingHistoryRequests s
  /\ timers ((clearTimeout h s) <| primeFillTimerRef := None |>) = timers (clearTimeout h s)
  /\ buildHistoryPayload r ((clearTimeout h s) <| primeFillTimerRef := None |>)
     = buildHistoryPayload r s.
Proof. destruct s; repeat split. Qed.

(** C3 (as the code has it).  An anchor=tail response that is truncated,
    carries a start index, converts to fewer than 200 entries, for a
    session whose message count is unknown or at most the auto-fill
    threshold, returns and schedules exactly one new timer: the follow-up,
    due in 200ms.  When the timer fires, exactly one request
    [{ before: start_index, limit: 200 - count }] is issued: sent on an open
    socket, or queued when none is open. *)
Theorem C3_tail_follow_up (message : Chunk.t) (s : State) (historyItems : list Item.t)
    (startIndex now : Z) :
  Chunk.anchor message = Some "tail" ->
  Chunk.truncated message = true ->
  Chunk.start_index message = Some startIndex ->
  anchorItems message = Some historyItems ->
  (Z.of_nat (List.length historyItems) < HISTORY_TARGET_LIMIT)%Z ->
  (forall count, messageCountFor (activeId s) s = Some count ->
                 (count <= HISTORY_AUTO_FILL_THRESHOLD)%Z) ->
  timers_fresh s ->
  let remaining := HISTORY_TARGET_LIMIT - Z.of_nat (List.length historyItems) in
  let request := Req.mk (Some startIndex) None None (Some remaining) in
  exists s',
    handleHistoryChunk message s = Returned s'
    /\ items s' = historyItems
    /\ timers s'
       = (timers (cancelPrimeHistory (cancelPrimeFill s))
            ++ [mkTimer (nextTimer s) 200 (PrimeFillTimer startIndex remaining)])%list
    /\ primeFillTimerRef s' = Some (nextTimer s)
    /\ timers (fireTimer (nextTimer s) now s')
       = timers (cancelPrimeHistory (cancelPrimeFill s))
    /\ ((exists c, outbox (fireTimer (nextTimer s) now s')
                   = (outbox s ++ [(c, buildHistoryPayload request s')])%list
                   /\ pendingHistoryRequests (fireTimer (nextTimer s) now s')
                      = pendingHistoryRequests s)
        \/ (outbox (fireTimer (nextTimer s) now s') = outbox s
            /\ pendingHistoryRequests (fireTimer (nextTimer s) now s')
               = (pendingHistoryRequests s ++ [request])%list)).
Proof.
  intros Hanchor Htrunc Hstart Hparsed Hlen Hcount Hfresh. cbv zeta.
  rewrite handleHistoryChunk_anchor by (apply tail_is_anchor; exact Hanchor).
  rewrite Hparsed.
  rewrite mergeHistory_tail by exact Hanchor.
  destruct (tailState_facts message historyItems s
              (indexAfter (Chunk.items message) ∅) (keysAfter (Chunk.items message) ∅ ∅))
    as (Hin & Href & Htim & Hnext & Hfill & Hout & Hpend & Hst & _).
  remember (tailState message historyItems
              (registered s (indexAfter (Chunk.items message) ∅)
                 (keysAfter (Chunk.items message) ∅ ∅))) as st eqn:Est.
  clear Est.
  destruct (recordRange_frame message (schedulePrimeFill message historyItems st))
    as (Ri & _ & Rt & Rf & _ & _ & Ro & Rp & _ & _).
  destruct (schedulePrimeFill_frame message historyItems st) as (Si & _ & So & Sp).
  pose proof (recordRange_payload message (schedulePrimeFill message historyItems st)) as Rb.
  remember (schedulePrimeFill message historyItems st) as sf eqn:Esf.
  remember (recordRange message sf) as s1 eqn:Es1. clear Es1.
  exists s1. split; [reflexivity|].
  assert (Hitems : items s1 = historyItems) by congruence.
  split; [exact Hitems|].
  assert (Hshould : shouldAutoFillHistory (activeId st) st = true).
  { rewrite Hfill. unfold shouldAutoFillHistory.
    destruct (messageCountFor (activeId s) s) as [count|] eqn:E; [|reflexivity].
    apply Z.leb_le. apply Hcount. reflexivity. }
  destruct (schedulePrimeFill_schedules message historyItems st startIndex
              Hstart Htrunc Hlen Hshould Hin Href) as (St & Sf & _ & _).
  rewrite <- Esf in St, Sf. clear Esf.
  assert (Ht1 : timers s1
                = (timers (cancelPrimeHistory (cancelPrimeFill s))
                     ++ [mkTimer (nextTimer s) 200
                           (PrimeFillTimer startIndex
                              (HISTORY_TARGET_LIMIT - Z.of_nat (List.length historyItems)))])%list)
    by congruence.
  split; [exact Ht1|]. split; [congruence|].
  destruct (fire_primeFill s1 _ (nextTimer s) now startIndex _ Ht1
              (cancelled_timers_fresh s Hfresh)) as (Hfire & Hclear).
  rewrite Hfire.
  destruct (cleared_frame (nextTimer s) s1
              (Req.mk (Some startIndex) None None
                 (Some (HISTORY_TARGET_LIMIT - Z.of_nat (List.length historyItems)))))
    as (Co & Cp & Ct & Cb).
  destruct (sendHistoryRequest_effect
              (Req.mk (Some startIndex) None None
                 (Some (HISTORY_TARGET_LIMIT - Z.of_nat (List.length historyItems))))
              ((clearTimeout (nextTimer s) s1) <| primeFillTimerRef := None |>))
    as (Et & [(c & Eo & Ep) | (Eo & Ep)]).
  - split; [congruence|]. left. exists c. split; congruence.
  - split; [congruence|]. right. split; congruence.
Qed.

(** ** Live events *)

(** The activity update writes the four activity refs and nothing else. *)
Lemma updateActivityFromEvent_eta (t : string) (s : State) :
  updateActivityFromEvent t s
  = s <| taskActiveRef := taskActiveRef (updateActivityFromEvent t s) |>
      <| activityLabelRef := activityLabelRef (updateActivityFromEvent t s) |>
      <| activeExecCountRef := activeExecCountRef (updateActivityFromEvent t s) |>
      <| activeToolCountRef := activeToolCountRef (updateActivityFromEvent t s) |>.
Proof.
  destruct s; unfold updateActivityFromEvent, noteActivity, settleActivity; cbn.
  peel_goal; reflexivity.
Qed.

Lemma updateActivityFromEvent_shape (t : string) (s : State) :
  exists a b c d,
    updateActivityFromEvent t s
    = s <| taskActiveRef := a |> <| activityLabelRef := b |>
        <| activeExecCountRef := c |> <| activeToolCountRef := d |>.
Proof. do 4 eexists. apply updateActivityFromEvent_eta. Qed.

Lemma updateSessionFromEvent_id (s : State) : updateSessionFromEvent s = s.
Proof.
  unfold updateSessionFromEvent. destruct (negb _); [reflexivity|].
  destruct s; cbn. f_equal.
  induction sessions0 as [|session rest IH]; cbn; congruence.
Qed.

Lemma eventPrelude_shape (ev : json) (s : State) :
  exists a b c d r,
    eventPrelude ev s
    = s <| seenEventRef :=
             if truthy_str (eventKeyFromPayload ev)
             then {[ opt_str (eventKeyFromPayload ev) ]} ∪ seenEventRef s
             else seenEventRef s |>
        <| taskActiveRef := a |> <| activityLabelRef := b |>
        <| activeExecCountRef := c |> <| activeToolCountRef := d |>
        <| reasoningIdRef := r |>.
Proof.
  unfold eventPrelude.
  set (s1 := if truthy_str (eventKeyFromPayload ev) then _ else s).
  assert (H1 : s1 = s <| seenEventRef :=
                          if truthy_str (eventKeyFromPayload ev)
                          then {[ opt_str (eventKeyFromPayload ev) ]} ∪ seenEventRef s
                          else seenEventRef s |>).
  { subst s1. destruct (truthy_str _); destruct s; reflexivity. }
  clearbody s1. subst s1.
  set (s1 := s <| seenEventRef := _ |>).
  assert (H2 : exists a b c d,
             match prop "type" (prop "msg" ev) with
             | JStr t => if negb (String.eqb t "") then updateActivityFromEvent t s1 else s1
             | _ => s1
             end
             = s1 <| taskActiveRef := a |> <| activityLabelRef := b |>
                  <| activeExecCountRef := c |> <| activeToolCountRef := d |>).
  { destruct (prop "type" (prop "msg" ev)) as [| | | |t| |];
      try (exists (taskActiveRef s1), (activityLabelRef s1), (activeExecCountRef s1),
             (activeToolCountRef s1); destruct s; reflexivity).
    destruct (negb _); [apply updateActivityFromEvent_shape|].
    exists (taskActiveRef s1), (activityLabelRef s1), (activeExecCountRef s1),
      (activeToolCountRef s1); destruct s; reflexivity. }
  destruct H2 as (a & b & c & d & ->).
  exists a, b, c, d.
  destruct (is_str _ "user_message" || is_str _ "agent_message").
  - exists None. rewrite updateSessionFromEvent_id. subst s1. destruct s; reflexivity.
  - exists (reasoningIdRef s). subst s1. destruct s; reflexivity.
Qed.

Lemma eventPrelude_frame (ev : json) (s : State) :
  liveIndexRef (eventPrelude ev s) = liveIndexRef s
  /\ historyEnd (eventPrelude ev s) = historyEnd s
  /\ items (eventPrelude ev s) = items s
  /\ seenLineIndexRef (eventPrelude ev s) = seenLineIndexRef s
  /\ seenEventRef (eventPrelude ev s)
     = (if truthy_str (eventKeyFromPayload ev)
        then {[ opt_str (eventKeyFromPayload ev) ]} ∪ seenEventRef s
        else seenEventRef s)
  /\ historyWsRef (eventPrelude ev s) = historyWsRef s
  /\ historyWsDisabledRef (eventPrelude ev s) = historyWsDisabledRef s
  /\ outbox (eventPrelude ev s) = outbox s.
Proof.
  destruct (eventPrelude_shape ev s) as (a & b & c & d & r & ->). repeat split.
Qed.

Lemma assignedIndex_prelude (ev : json) (s : State) :
  assignedIndex (eventPrelude ev s) = assignedIndex s.
Proof.
  destruct (eventPrelude_frame ev s) as (Hl & He & _).
  unfold assignedIndex. rewrite Hl, He. reflexivity.
Qed.

(** A line built by [handleEvent] is converted without a throw. *)
Lemma appendHistoryLines_event (i : Z) (ev : json) (s : State) :
  exists s',
    appendHistoryLines [Line.mk (Some i) "event" ev None] s = Returned s'
    /\ s' = (if negb (Nat.eqb (List.length (eventEntries i ev)) 0)
             then s <| items ::= (fun l => (l ++ eventEntries i ev)%list) |>
             else s).
Proof. eexists. split; reflexivity. Qed.

(** [handleEvent] on an event that is kept. *)
Lemma handleEvent_fresh (rnd : string) (ev : json) (s : State) :
  truthy ev = true ->
  duplicateEvent ev s = false ->
  let s3 := eventPrelude ev s in
  let assigned := assignedIndex s in
  let s4 := s3 <| liveIndexRef := Some (js_succ assigned) |> in
  handleEvent rnd ev s
  = Returned
      (if isReasoning ev then
         if negb (String.eqb (extractReasoningText (prop "msg" ev)) "")
         then appendReasoningDelta rnd (extractReasoningText (prop "msg" ev)) assigned
                (eventKeyFromPayload ev) s4
         else s4
       else if negb (Nat.eqb (List.length (eventEntries assigned ev)) 0)
            then s4 <| items ::= (fun l => (l ++ eventEntries assigned ev)%list) |>
            else s4).
Proof.
  intros Hev Hdup. cbv zeta. rewrite <- (assignedIndex_prelude ev s).
  unfold handleEvent. rewrite Hev. cbn [negb].
  unfold duplicateEvent in Hdup. rewrite Hdup.
  fold (eventPrelude ev s). unfold isReasoning.
  destruct (is_str (prop "type" (prop "msg" ev)) "agent_reasoning"
            || is_str (prop "type" (prop "msg" ev)) "agent_reasoning_delta");
    reflexivity.
Qed.

Lemma handleEvent_dropped (rnd : string) (ev : json) (s : State) :
  truthy ev = false \/ duplicateEvent ev s = true ->
  handleEvent rnd ev s = Returned s.
Proof.
  unfold handleEvent, duplicateEvent. intros [H | H].
  - rewrite H. reflexivity.
  - rewrite H. destruct (truthy ev); reflexivity.
Qed.

Lemma appendReasoningDelta_frame (rnd delta : string) (i : Z) (key : option string)
    (s : State) :
  liveIndexRef (appendReasoningDelta rnd delta i key s) = liveIndexRef s
  /\ seenEventRef (appendReasoningDelta rnd delta i key s) = seenEventRef s
  /\ historyWsRef (appendReasoningDelta rnd delta i key s) = historyWsRef s
  /\ historyWsDisabledRef (appendReasoningDelta rnd delta i key s) = historyWsDisabledRef s
  /\ outbox (appendReasoningDelta rnd delta i key s) = outbox s.
Proof.
  unfold appendReasoningDelta.
  destruct (String.eqb delta ""); [repeat split|].
  destruct (reasoningTarget s); [destruct (nth_error _ _)|]; repeat split.
Qed.

(** The next live index after an event: unchanged when the event is
    dropped, one past the assigned index otherwise. *)
Lemma handleEvent_liveIndex (rnd : string) (ev : json) (s : State) :
  exists s',
    handleEvent rnd ev s = Returned s'
    /\ liveIndexRef s'
       = (if truthy ev && negb (duplicateEvent ev s)
          then Some (js_succ (assignedIndex s)) else liveIndexRef s).
Proof.
  destruct (truthy ev) eqn:Hev; cbn [andb].
  - destruct (duplicateEvent ev s) eqn:Hdup; cbn [negb].
    + exists s. split; [apply handleEvent_dropped; right; exact Hdup | reflexivity].
    + rewrite (handleEvent_fresh rnd ev s Hev Hdup). eexists. split; [reflexivity|].
      destruct (isReasoning ev).
      * destruct (negb _); [|reflexivity].
        destruct (appendReasoningDelta_frame rnd (extractReasoningText (prop "msg" ev))
                    (assignedIndex s) (eventKeyFromPayload ev)
                    ((eventPrelude ev s) <| liveIndexRef := Some (js_succ (assignedIndex s)) |>))
          as (Hl & _).
        rewrite Hl. reflexivity.
      * destruct (negb _); reflexivity.
  - exists s. split; [apply handleEvent_dropped; left; exact Hev | reflexivity].
Qed.

(** [x + 1] on numbers never goes down, and is exact on the integers that
    a double holds exactly. *)
Lemma js_succ_ge (x : Z) : (x <= js_succ x)%Z.
Proof.
  unfold js_succ.
  destruct (Z.abs (x + 1) <=? MAX_EXACT)%Z; [lia|].
  destruct (Z.abs x <? 2 * MAX_EXACT)%Z; [|lia].
  destruct (x mod 4 =? 0)%Z; lia.
Qed.

Lemma js_succ_exact (x : Z) :
  (- MAX_EXACT <= x + 1 <= MAX_EXACT)%Z -> js_succ x = (x + 1)%Z.
Proof.
  intros H. unfold js_succ.
  destruct (Z.leb_spec (Z.abs (x + 1)) MAX_EXACT) as [_ | Hgt]; [reflexivity | lia].
Qed.

Lemma assignedIndex_nonneg (s : State) : (0 <= assignedIndex s)%Z.
Proof. unfold assignedIndex. lia. Qed.

Lemma live_le_refl (a : option Z) : live_le a a.
Proof. destruct a; cbn; [lia | exact I]. Qed.

Lemma live_le_trans (a b c : option Z) : live_le a b -> live_le b c -> live_le a c.
Proof. destruct a, b, c; cbn; try tauto; lia. Qed.

Lemma live_le_advance (live e : option Z) : live_le live (advance live e).
Proof.
  unfold advance. destruct e as [e|]; [|apply live_le_refl].
  destruct live as [l|]; [|exact I].
  pose proof (js_succ_ge e).
  destruct (Z.leb_spec l e); cbn; lia.
Qed.

Lemma assignedIndex_above (s : State) (l : Z) :
  liveIndexRef s = Some l -> (l <= assignedIndex s)%Z.
Proof. intros H. unfold assignedIndex, Math_trunc. rewrite H. lia. Qed.

(** ** The next live index *)

Lemma dropEventDuplicates_frame (historyItems : list Item.t) (s : State) :
  dropEventDuplicates historyItems s
  = s <| items := items (dropEventDuplicates historyItems s) |>.
Proof.
  unfold dropEventDuplicates. destruct (_ || _); destruct s; reflexivity.
Qed.

Lemma mergeHistory_frame (message : Chunk.t) (historyItems : list Item.t) (s : State) :
  liveIndexRef (mergeHistory message historyItems s) = liveIndexRef s
  /\ seenEventRef (mergeHistory message historyItems s) = seenEventRef s
  /\ seenLineIndexRef (mergeHistory message historyItems s) = seenLineIndexRef s
  /\ historyWsRef (mergeHistory message historyItems s) = historyWsRef s
  /\ historyWsDisabledRef (mergeHistory message historyItems s) = historyWsDisabledRef s
  /\ outbox (mergeHistory message historyItems s) = outbox s
  /\ lastIndexRef (mergeHistory message historyItems s) = lastIndexRef s.
Proof.
  unfold mergeHistory.
  destruct (opt_string_eqb (Chunk.anchor message) (Some "head")).
  { destruct s; unfold cancelPrimeFill, clearTimeout; cbn. peel_cbn; by_fields. }
  destruct (opt_string_eqb (Chunk.anchor message) (Some "tail")).
  { destruct s; unfold schedulePrimeFill, cancelPrimeHistory, cancelPrimeFill, setTimeout,
      clearTimeout; cbn.
    peel_cbn; by_fields. }
  destruct (Chunk.before message) as [before|].
  { destruct (option_Z_eqb _ _).
    - rewrite dropEventDuplicates_frame. destruct s; by_fields.
    - rewrite dropEventDuplicates_frame. destruct s; by_fields. }
  destruct (Chunk.after message) as [after|]; [|by_fields].
  rewrite dropEventDuplicates_frame. destruct s; by_fields.
Qed.

Lemma recordRange_liveIndex (message : Chunk.t) (s : State) :
  liveIndexRef (recordRange message s) = advance (liveIndexRef s) (Chunk.end_index message).
Proof.
  destruct s; unfold recordRange, advance; cbn. peel_cbn; reflexivity.
Qed.

Lemma registered_frame (s : State) (X : gset Z) (Y : gset string) :
  liveIndexRef (registered s X Y) = liveIndexRef s
  /\ items (registered s X Y) = items s
  /\ historyWsRef (registered s X Y) = historyWsRef s
  /\ historyWsDisabledRef (registered s X Y) = historyWsDisabledRef s
  /\ outbox (registered s X Y) = outbox s
  /\ seenEventRef (registered s X Y) = Y
  /\ seenLineIndexRef (registered s X Y) = X.
Proof. repeat split. Qed.

(** [handleHistoryChunk], whatever the kind of response: the state it
    leaves is built from a registered state. *)
Lemma handleHistoryChunk_cases (message : Chunk.t) (s : State) :
  exists X Y,
    (handleHistoryChunk message s = Threw (registered s X Y))
    \/ (exists historyItems,
          handleHistoryChunk message s
          = Returned (recordRange message (mergeHistory message historyItems (registered s X Y)))).
Proof.
  destruct (is_anchor message) eqn:Ha.
  - rewrite (handleHistoryChunk_anchor message s Ha). do 2 eexists.
    destruct (anchorItems message); [right; eexists; reflexivity | left; reflexivity].
  - rewrite (handleHistoryChunk_paged message s Ha). do 2 eexists.
    destruct (parseHistoryItems _); [right; eexists; reflexivity | left; reflexivity].
Qed.

Lemma handleHistoryChunk_liveIndex (message : Chunk.t) (s : State) :
  match handleHistoryChunk message s with
  | Returned s' => liveIndexRef s' = advance (liveIndexRef s) (Chunk.end_index message)
  | Threw s' => liveIndexRef s' = liveIndexRef s
  end.
Proof.
  destruct (handleHistoryChunk_cases message s) as (X & Y & [-> | (historyItems & ->)]).
  - reflexivity.
  - rewrite recordRange_liveIndex.
    destruct (mergeHistory_frame message historyItems (registered s X Y)) as (-> & _).
    reflexivity.
Qed.

Lemma primeHistory_frame (s : State) :
  liveIndexRef (primeHistory s) = liveIndexRef s
  /\ items (primeHistory s) = items s
  /\ seenEventRef (primeHistory s) = seenEventRef s
  /\ historyWsRef (primeHistory s) = historyWsRef s
  /\ historyWsDisabledRef (primeHistory s) = historyWsDisabledRef s.
Proof.
  destruct s; unfold primeHistory, sendHistoryRequest, send, enqueueHistoryRequest; cbn.
  peel_cbn; by_fields.
Qed.

Lemma handleSnapshot_cases (message : Snapshot.t) (s : State) :
  match handleSnapshot message s with
  | Threw s' =>
      liveIndexRef s' = liveIndexRef s
      /\ items s' = items s
      /\ seenEventRef s' = keysAfter (Snapshot.rollout message) ∅ ∅
      /\ historyWsRef s' = historyWsRef s
      /\ historyWsDisabledRef s' = historyWsDisabledRef s
  | Returned s' =>
      liveIndexRef s' = advance (liveIndexRef s) (Snapshot.end_index message)
      /\ seenEventRef s' = keysAfter (Snapshot.rollout message) ∅ ∅
      /\ historyWsRef s' = historyWsRef s
      /\ historyWsDisabledRef s' = historyWsDisabledRef s
      /\ exists parsed,
           parseHistoryItems
             (freshOf (Snapshot.rollout message)
                (hasAssistantResponseItem (Snapshot.rollout message)) ∅) = Some parsed
           /\ items s' = List.map asHistory parsed
  end.
Proof.
  unfold handleSnapshot. rewrite registerHistoryLines_spec.
  change (seenLineIndexRef (resetHistoryTracking _)) with (∅ : gset Z).
  change (seenEventRef (resetHistoryTracking _)) with (∅ : gset string).
  destruct (parseHistoryItems _) as [parsed|]; [|destruct s; by_fields].
  match goal with
  | |- context [primeHistory ?a] =>
      pose proof (primeHistory_frame a) as P;
      remember (primeHistory a) as sp eqn:Esp; clear Esp
  end.
  destruct s; cbn in P. destruct P as (P1 & P2 & P3 & P4 & P5).
  destruct sp; cbn in P1, P2, P3, P4, P5; subst.
  cbn. unfold advance.
  peel_cbn; repeat split; exists parsed; split; reflexivity.
Qed.

Lemma deliver_liveIndex (d : Delivery) (s : State) :
  live_le (liveIndexRef s) (liveIndexRef (deliver d s)).
Proof.
  assert (Hchunk : forall message,
             live_le (liveIndexRef s) (liveIndexRef (onHistoryHistoryChunk message s))).
  { intros message. unfold onHistoryHistoryChunk.
    pose proof (handleHistoryChunk_liveIndex message s) as H.
    destruct (handleHistoryChunk message s) as [s'|s'].
    - change (liveIndexRef (s' <| historyPrimed := true |>)) with (liveIndexRef s').
      rewrite H. apply live_le_advance.
    - change (liveIndexRef (caught (Threw s'))) with (liveIndexRef s').
      rewrite H. apply live_le_refl. }
  assert (Hsnap : forall message,
             match handleSnapshot message s with
             | Returned s' | Threw s' => live_le (liveIndexRef s) (liveIndexRef s')
             end).
  { intros message. pose proof (handleSnapshot_cases message s) as H.
    destruct (handleSnapshot message s) as [s'|s']; destruct H as (-> & _).
    - apply live_le_advance.
    - apply live_le_refl. }
  destruct d as [from message | from closureId message | rnd ev]; cbn [deliver].
  - destruct from.
    + unfold onStreamHistoryChunk. destruct (negb _); [|apply live_le_refl].
      apply (Hchunk message).
    + apply Hchunk.
    + apply live_le_refl.
  - destruct from.
    + unfold onStreamSnapshot. destruct (negb _); [|apply live_le_refl].
      specialize (Hsnap message). destruct (handleSnapshot message s) as [s'|s'].
      * destruct (opt_string_eqb _ _); exact Hsnap.
      * exact Hsnap.
    + unfold onHistorySnapshot.
      specialize (Hsnap message). destruct (handleSnapshot message s) as [s'|s'].
      * destruct (opt_string_eqb _ _); exact Hsnap.
      * exact Hsnap.
    + apply live_le_refl.
  - unfold onStreamEvent.
    destruct (handleEvent_liveIndex rnd ev s) as (s' & -> & Hl).
    cbn [caught]. rewrite Hl.
    destruct (truthy ev && negb (duplicateEvent ev s)); [|apply live_le_refl].
    destruct (liveIndexRef s) as [l|] eqn:El; cbn; [|exact I].
    pose proof (assignedIndex_above s l El).
    pose proof (js_succ_ge (assignedIndex s)). lia.
Qed.

(** ** Events without a key *)

Lemma pushUnique_empty (item : Item.t) :
  pushUnique item (mkAcc [] ∅) = mkAcc [item] ({[ signatureFor item None ]} ∪ ∅).
Proof.
  unfold pushUnique. cbn [acc_seen acc_items].
  rewrite bool_decide_eq_false_2 by apply not_elem_of_empty. reflexivity.
Qed.

(** The entries of an event do not depend on the index, apart from the
    index and the id they carry. *)
Lemma eventEntries_content (i j : Z) (ev : json) :
  List.map entryContent (eventEntries i ev) = List.map entryContent (eventEntries j ev).
Proof.
  unfold eventEntries, parseEventEntry, parseReasoning. cbv zeta.
  cbn [entry_payload acc_items last_item List.map List.last].
  repeat (peel; cbv beta iota); rewrite ?pushUnique_empty; reflexivity.
Qed.

Lemma eventEntries_index (i : Z) (ev : json) :
  Forall (fun item => Item.index item = Some i /\ Item.origin item = Some event
                      /\ Item.eventKey item = eventKeyFromPayload ev)
    (eventEntries i ev).
Proof.
  unfold eventEntries, parseEventEntry, parseReasoning. cbv zeta.
  cbn [entry_payload acc_items last_item List.map List.last].
  repeat (peel; cbv beta iota); rewrite ?pushUnique_empty;
    cbn [acc_items List.map]; repeat constructor.
Qed.

Lemma keyless_not_duplicate (ev : json) (s : State) :
  eventKeyFromPayload ev = None -> duplicateEvent ev s = false.
Proof. intros H. unfold duplicateEvent. rewrite H. reflexivity. Qed.

Lemma keyless (ev : json) :
  match prop "id" ev with JStr id => id = "" | _ => True end ->
  nullish (prop "event_seq" ev) = true ->
  eventKeyFromPayload ev = None.
Proof.
  intros Hid Hseq. unfold eventKeyFromPayload.
  destruct (negb (truthy ev)); [reflexivity|]. rewrite Hseq.
  destruct (prop "id" ev); try reflexivity. subst. reflexivity.
Qed.

(** The item list after an event that is kept and is not a reasoning
    delta. *)
Lemma handleEvent_appends (rnd : string) (ev : json) (s : State) :
  truthy ev = true ->
  duplicateEvent ev s = false ->
  isReasoning ev = false ->
  exists s',
    handleEvent rnd ev s = Returned s'
    /\ items s' = (items s ++ eventEntries (assignedIndex s) ev)%list
    /\ liveIndexRef s' = Some (js_succ (assignedIndex s))
    /\ seenEventRef s'
       = (if truthy_str (eventKeyFromPayload ev)
          then {[ opt_str (eventKeyFromPayload ev) ]} ∪ seenEventRef s
          else seenEventRef s).
Proof.
  intros Hev Hdup Hr. rewrite (handleEvent_fresh rnd ev s Hev Hdup). rewrite Hr.
  destruct (eventPrelude_frame ev s) as (_ & _ & Hi & _ & Hk & _).
  eexists. split; [reflexivity|].
  destruct (eventEntries (assignedIndex s) ev) as [|item rest] eqn:E; cbn [List.length Nat.eqb negb].
  - rewrite List.app_nil_r. split; [exact Hi|]. split; [reflexivity | exact Hk].
  - split; [|split; [reflexivity | exact Hk]].
    change (items (?a <| items ::= ?f |>)) with (f (items a)). cbv beta.
    change (items ((eventPrelude ev s) <| liveIndexRef := Some (js_succ (assignedIndex s)) |>))
      with (items (eventPrelude ev s)).
    rewrite Hi. reflexivity.
Qed.

(** C10 (as the code has it).  An event whose payload has no string id (or
    an empty one) and no event_seq has no dedup key and is never dropped
    as a duplicate.  When it is not a reasoning delta, delivering the same
    payload twice appends its entries twice, at the assigned index and at
    the one after it (one more, up to 2^53): the second copies differ from
    the first in index and id only, and the set of seen keys does not
    change. *)
Theorem C10_keyless_event_twice (rnd1 rnd2 : string) (ev : json) (s : State) :
  truthy ev = true ->
  match prop "id" ev with JStr id => id = "" | _ => True end ->
  nullish (prop "event_seq" ev) = true ->
  isReasoning ev = false ->
  let i := assignedIndex s in
  eventKeyFromPayload ev = None
  /\ exists s1 s2,
       handleEvent rnd1 ev s = Returned s1
       /\ handleEvent rnd2 ev s1 = Returned s2
       /\ items s1 = (items s ++ eventEntries i ev)%list
       /\ items s2 = (items s ++ eventEntries i ev ++ eventEntries (js_succ i) ev)%list
       /\ List.map entryContent (eventEntries (js_succ i) ev)
          = List.map entryContent (eventEntries i ev)
       /\ (i + 1 <= MAX_EXACT -> js_succ i = i + 1)
       /\ seenEventRef s2 = seenEventRef s.
Proof.
  intros Hev Hid Hseq Hr. cbv zeta.
  pose proof (keyless ev Hid Hseq) as Hkey. split; [exact Hkey|].
  destruct (handleEvent_appends rnd1 ev s Hev (keyless_not_duplicate ev s Hkey) Hr)
    as (s1 & H1 & I1 & L1 & K1).
  destruct (handleEvent_appends rnd2 ev s1 Hev (keyless_not_duplicate ev s1 Hkey) Hr)
    as (s2 & H2 & I2 & L2 & K2).
  exists s1, s2.
  assert (Ha : assignedIndex s1 = js_succ (assignedIndex s)).
  { unfold assignedIndex at 1. rewrite L1. unfold Math_trunc.
    pose proof (js_succ_ge (assignedIndex s)). pose proof (assignedIndex_nonneg s). lia. }
  rewrite Ha in I2. rewrite Hkey in K1, K2. cbn [truthy_str] in K1, K2.
  split; [exact H1|]. split; [exact H2|]. split; [exact I1|].
  split; [rewrite I2, I1, <- List.app_assoc; reflexivity|].
  split; [apply eventEntries_content|]. split; [|congruence].
  intros Hi. apply js_succ_exact. pose proof (assignedIndex_nonneg s).
  unfold MAX_EXACT in *. lia.
Qed.

(** ** A page of older history *)

Lemma freshOf_app (l1 l2 : list Line.t) (skip : bool) (X : gset Z) :
  freshOf (l1 ++ l2) skip X = (freshOf l1 skip X ++ freshOf l2 skip (indexAfter l1 X))%list.
Proof.
  revert X. induction l1 as [|line rest IH]; intros X; cbn [freshOf indexAfter List.app].
  - reflexivity.
  - destruct (lineSeen X line); [apply IH|].
    destruct (lineSuperseded skip line); rewrite IH; reflexivity.
Qed.

Lemma indexAfter_app (l1 l2 : list Line.t) (X : gset Z) :
  indexAfter (l1 ++ l2) X = indexAfter l2 (indexAfter l1 X).
Proof.
  revert X. induction l1 as [|line rest IH]; intros X; cbn [indexAfter List.app].
  - reflexivity.
  - destruct (lineSeen X line); apply IH.
Qed.

Lemma freshOf_unseen (lines : list Line.t) (skip : bool) (X : gset Z) :
  unseen_run X lines ->
  freshOf lines skip X = List.filter (fun line => negb (lineSuperseded skip line)) lines.
Proof.
  revert X. induction lines as [|line rest IH]; intros X; cbn [unseen_run freshOf List.filter].
  - reflexivity.
  - intros [Hs Hrest]. rewrite Hs.
    destruct (lineSuperseded skip line); cbn [negb]; rewrite (IH _ Hrest); reflexivity.
Qed.

Lemma freshOf_seen (lines : list Line.t) (skip : bool) (X : gset Z) :
  Forall (fun line => lineSeen X line = true) lines ->
  freshOf lines skip X = [] /\ indexAfter lines X = X.
Proof.
  induction 1 as [|line rest Hs _ IH]; cbn [freshOf indexAfter].
  - split; reflexivity.
  - rewrite Hs. exact IH.
Qed.

Lemma indexed_cons (line : Line.t) (rest : list Line.t) (a n : Z) :
  List.map Line.index (line :: rest) = List.map Some (seqZ a n) ->
  Line.index line = Some a
  /\ List.map Line.index rest = List.map Some (seqZ (a + 1) (n - 1))
  /\ (0 < n)%Z.
Proof.
  intros H. destruct (Z.lt_ge_cases 0 n) as [Hn|Hn].
  - rewrite seqZ_cons in H by exact Hn. cbn [List.map] in H.
    injection H as H1 H2. replace (a + 1)%Z with (Z.succ a) by lia.
    replace (n - 1)%Z with (Z.pred n) by lia. auto.
  - rewrite seqZ_nil in H by exact Hn. discriminate.
Qed.

(** Lines with consecutive indices, none of them seen. *)
Lemma unseen_seq (lines : list Line.t) (a n : Z) (X : gset Z) :
  List.map Line.index lines = List.map Some (seqZ a n) ->
  (forall i, (a <= i < a + n)%Z -> i ∉ X) ->
  unseen_run X lines /\ indexAfter lines X = list_to_set (seqZ a n) ∪ X.
Proof.
  revert a n X. induction lines as [|line rest IH]; intros a n X Hidx HX.
  - cbn [unseen_run indexAfter]. split; [exact I|].
    destruct (Z.lt_ge_cases 0 n) as [Hn|Hn].
    + rewrite seqZ_cons in Hidx by exact Hn. discriminate.
    + rewrite seqZ_nil by exact Hn. cbn [list_to_set]. rewrite (left_id_L ∅ (∪)). reflexivity.
  - destruct (indexed_cons line rest a n Hidx) as (Ha & Hrest & Hn).
    assert (Hs : lineSeen X line = false).
    { unfold lineSeen. rewrite Ha. apply bool_decide_eq_false_2. apply HX. lia. }
    assert (Hm : markIndex line X = {[ a ]} ∪ X) by (unfold markIndex; rewrite Ha; reflexivity).
    destruct (IH (a + 1)%Z (n - 1)%Z ({[ a ]} ∪ X) Hrest) as (Hrun & Hset).
    { intros i Hi. rewrite elem_of_union, elem_of_singleton.
      intros [-> | Hx]; [lia | apply (HX i); [lia | exact Hx]]. }
    cbn [unseen_run indexAfter]. rewrite Hs, Hm. split; [split; [reflexivity | exact Hrun]|].
    rewrite Hset. apply set_eq. intros i.
    rewrite !elem_of_union, !elem_of_list_to_set, !elem_of_seqZ, elem_of_singleton.
    intuition lia.
Qed.

(** Lines with consecutive indices, all of them seen. *)
Lemma seen_seq (lines : list Line.t) (a n : Z) (X : gset Z) :
  List.map Line.index lines = List.map Some (seqZ a n) ->
  (forall i, (a <= i < a + n)%Z -> i ∈ X) ->
  Forall (fun line => lineSeen X line = true) lines.
Proof.
  revert a n. induction lines as [|line rest IH]; intros a n Hidx HX; constructor.
  - destruct (indexed_cons line rest a n Hidx) as (Ha & _ & Hn).
    unfold lineSeen. rewrite Ha. apply bool_decide_eq_true_2. apply HX. lia.
  - destruct (indexed_cons line rest a n Hidx) as (_ & Hrest & Hn).
    apply (IH (a + 1)%Z (n - 1)%Z Hrest). intros i Hi. apply HX. lia.
Qed.

Lemma dropEventDuplicates_items (historyItems : list Item.t) (s : State) :
  items (dropEventDuplicates historyItems s) = survivors historyItems (items s).
Proof.
  unfold dropEventDuplicates, survivors. destruct (_ || _); reflexivity.
Qed.

Lemma mergeHistory_before (message : Chunk.t) (historyItems : list Item.t) (s : State)
    (before : Z) :
  is_anchor message = false ->
  Chunk.before message = Some before ->
  items (mergeHistory message historyItems s)
  = (historyItems ++ survivors historyItems (items s))%list.
Proof.
  unfold is_anchor. intros Ha Hb. apply orb_false_elim in Ha as [Hh Ht].
  unfold mergeHistory. rewrite Hh, Ht, Hb.
  destruct (option_Z_eqb _ _).
  - change (items (?a <| items := ?v |> <| historyMode := _ |> <| hasMoreBefore := _ |>))
      with v.
    rewrite dropEventDuplicates_items. reflexivity.
  - change (items (?a <| items := ?v |> <| historyMode := _ |> <| hasMoreBefore := _ |>))
      with v.
    rewrite dropEventDuplicates_items. reflexivity.
Qed.

(** C6 (as the code has it).  With indices 10 to 50 seen, a before=10
    response whose lines carry the indices 0 to 15 in order drops the lines
    10 to 15 and keeps, of the lines 0 to 9, those that are not an
    agent_message event superseded by an assistant response item of the
    same response: all ten, when the response carries no assistant
    response item.  The kept lines are converted and prepended to the
    entries that survive [dropEventDuplicates], and the indices 0 to 50
    are then recorded; when the conversion of a kept line throws, the
    indices are recorded and the item list is left as it was. *)
Theorem C6_before_page (message : Chunk.t) (s : State) :
  is_anchor message = false ->
  Chunk.before message = Some 10 ->
  List.map Line.index (Chunk.items message) = List.map Some (seqZ 0 16) ->
  seenLineIndexRef s = list_to_set (seqZ 10 41) ->
  let skip := hasAssistantResponseItem (Chunk.items message) in
  let kept :=
    List.filter (fun line => negb (lineSuperseded skip line))
      (firstn 10 (Chunk.items message)) in
  (skip = false -> kept = firstn 10 (Chunk.items message))
  /\ match parseHistoryItems kept with
     | Some parsed =>
         exists s',
           handleHistoryChunk message s = Returned s'
           /\ seenLineIndexRef s' = list_to_set (seqZ 0 51)
           /\ items s'
              = (List.map asHistory parsed
                   ++ survivors (List.map asHistory parsed) (items s))%list
     | None =>
         exists s',
           handleHistoryChunk message s = Threw s'
           /\ seenLineIndexRef s' = list_to_set (seqZ 0 51)
           /\ items s' = items s
     end.
Proof.
  intros Ha Hb Hidx Hseen. cbv zeta.
  rewrite (handleHistoryChunk_paged message s Ha). cbv zeta.
  remember (Chunk.items message) as lines eqn:El.
  remember (hasAssistantResponseItem lines) as skip eqn:Es.
  remember (seenLineIndexRef s) as X eqn:EX.
  assert (Hsplit : lines = (firstn 10 lines ++ skipn 10 lines)%list)
    by (symmetry; apply List.firstn_skipn).
  assert (Hlow : List.map Line.index (firstn 10 lines) = List.map Some (seqZ 0 10)).
  { rewrite <- List.firstn_map, Hidx. reflexivity. }
  assert (Hhigh : List.map Line.index (skipn 10 lines) = List.map Some (seqZ 10 6)).
  { rewrite <- List.skipn_map, Hidx. reflexivity. }
  destruct (unseen_seq (firstn 10 lines) 0 10 X Hlow) as (Hrun & Hafter).
  { intros i Hi. rewrite Hseen, elem_of_list_to_set, elem_of_seqZ. lia. }
  destruct (freshOf_seen (skipn 10 lines) skip (indexAfter (firstn 10 lines) X))
    as (Hnone & Hsame).
  { apply (seen_seq _ 10 6 _ Hhigh). intros i Hi.
    rewrite Hafter, Hseen, elem_of_union, !elem_of_list_to_set, !elem_of_seqZ. lia. }
  assert (Hfresh : freshOf lines skip X
                   = List.filter (fun line => negb (lineSuperseded skip line))
                       (firstn 10 lines)).
  { rewrite Hsplit at 1. rewrite freshOf_app, Hnone, List.app_nil_r.
    apply freshOf_unseen. exact Hrun. }
  assert (Hindex : indexAfter lines X = list_to_set (seqZ 0 51)).
  { rewrite Hsplit. rewrite indexAfter_app, Hsame, Hafter, Hseen.
    apply set_eq. intros i.
    rewrite !elem_of_union, !elem_of_list_to_set, !elem_of_seqZ. lia. }
  split.
  { intros Hskip. apply List.forallb_filter_id. apply List.forallb_forall.
    intros line _. unfold lineSuperseded. rewrite Hskip.
    rewrite andb_false_r. reflexivity. }
  rewrite Hfresh, Hindex.
  remember (registered s (list_to_set (seqZ 0 51)) (keysAfter lines X (seenEventRef s)))
    as reg eqn:Ereg.
  destruct (parseHistoryItems _) as [parsed|] eqn:Hp.
  2: { exists reg. split; [reflexivity|]. rewrite Ereg. split; reflexivity. }
  eexists. split; [reflexivity|].
  destruct (recordRange_frame message (mergeHistory message (List.map asHistory parsed) reg))
    as (Ri & _ & _ & _ & _ & Rx & _).
  destruct (mergeHistory_frame message (List.map asHistory parsed) reg)
    as (_ & _ & Mx & _).
  split; [rewrite Rx, Mx, Ereg; reflexivity|].
  rewrite Ri. rewrite (mergeHistory_before message _ _ 10 Ha Hb). rewrite Ereg. reflexivity.
Qed.

(** ** Switching the session *)

Lemma opt_string_eqb_eq (a b : option string) : opt_string_eqb a b = true <-> a = b.
Proof.
  destruct a as [a|], b as [b|]; cbn; split; try congruence; try discriminate; auto.
  - intros H. apply String.eqb_eq in H. congruence.
  - intros H. injection H as ->. apply String.eqb_refl.
Qed.

Lemma opt_string_eqb_neq (a b : option string) : opt_string_eqb a b = false <-> a <> b.
Proof.
  rewrite <- opt_string_eqb_eq. destruct (opt_string_eqb a b); split; congruence.
Qed.

Lemma truthy_str_some (x : string) : x <> "" -> truthy_str (Some x) = true.
Proof.
  intros H. cbn. destruct (String.eqb_spec x ""); [contradiction | reflexivity].
Qed.

Lemma activateSession_takes_effect (b : string) (s : State) :
  b <> "" ->
  activeId s <> Some b ->
  knownSessionIdsRef s = ∅ \/ b ∈ knownSessionIdsRef s \/ runtimeId s = Some b ->
  activateSession (Some b) s = switched b s.
Proof.
  intros Hb Hne Hknown. unfold activateSession, switched.
  replace (opt_string_eqb (Some b) (activeId s)) with false
    by (symmetry; apply opt_string_eqb_neq; congruence).
  rewrite (truthy_str_some b Hb). cbn [andb opt_str].
  replace (negb (bool_decide (knownSessionIdsRef s = ∅))
           && negb (bool_decide (b ∈ knownSessionIdsRef s))
           && negb (opt_string_eqb (runtimeId s) (Some b))) with false.
  - reflexivity.
  - symmetry. destruct Hknown as [H | [H | H]].
    + rewrite (bool_decide_eq_true_2 _ H). reflexivity.
    + rewrite (bool_decide_eq_true_2 _ H). rewrite andb_false_r. reflexivity.
    + replace (opt_string_eqb (runtimeId s) (Some b)) with true
        by (symmetry; apply opt_string_eqb_eq; exact H).
      rewrite andb_false_r. reflexivity.
Qed.

Lemma switched_fields (b : string) (s : State) :
  activeId (switched b s) = Some b
  /\ items (switched b s) = []
  /\ pendingHistoryRequests (switched b s) = []
  /\ seenLineIndexRef (switched b s) = ∅
  /\ seenEventRef (switched b s) = ∅
  /\ liveIndexRef (switched b s) = None
  /\ primeFillTimerRef (switched b s) = None
  /\ primeFillInFlightRef (switched b s) = false
  /\ pendingResumeRef (switched b s) = Some b
  /\ historyWsDisabledRef (switched b s) = true
  /\ outbox (switched b s) = outbox s.
Proof.
  destruct s; unfold switched, schedulePrimeHistory, scheduleResume, resetHistoryTracking,
    resetActivity, cancelPrimeFill, setHistoryWsModeForSession, closeHistorySocket,
    setTimeout, clearTimeout; cbn.
  peel_cbn; by_fields.
Qed.







(** ** The history channel, once disabled *)

Lemma off_history_refl (o : list (Channel * Envelope)) : off_history o o.
Proof. exists []. split; [symmetry; apply List.app_nil_r | constructor]. Qed.

Lemma off_history_trans (o1 o2 o3 : list (Channel * Envelope)) :
  off_history o1 o2 -> off_history o2 o3 -> off_history o1 o3.
Proof.
  intros (e1 & -> & H1) (e2 & -> & H2). exists (e1 ++ e2)%list.
  split; [symmetry; apply List.app_assoc | apply List.Forall_app; split; assumption].
Qed.

Lemma off_history_snoc (o o' : list (Channel * Envelope)) (c : Channel) (e : Envelope) :
  off_history o o' -> off_history_socket (c, e) = true -> off_history o (o' ++ [(c, e)]).
Proof.
  intros H Hc. apply (off_history_trans o o'); [exact H|].
  exists [(c, e)]. split; [reflexivity | repeat constructor; exact Hc].
Qed.

Lemma keeps_off_refl (s : State) : keeps_off s s.
Proof. intros H. split; [exact H | apply off_history_refl]. Qed.

Lemma keeps_off_trans (s1 s2 s3 : State) :
  keeps_off s1 s2 -> keeps_off s2 s3 -> keeps_off s1 s3.
Proof.
  intros H12 H23 H1. destruct (H12 H1) as [H2 O12]. destruct (H23 H2) as [H3 O23].
  split; [exact H3 | exact (off_history_trans _ _ _ O12 O23)].
Qed.

(** A step that leaves the socket ref (or nulls it), the flag (or sets it)
    and the log alone. *)
Lemma keeps_off_frame (s s' : State) :
  historyWsRef s' = historyWsRef s \/ historyWsRef s' = None ->
  historyWsDisabledRef s' = historyWsDisabledRef s \/ historyWsDisabledRef s' = true ->
  outbox s' = outbox s ->
  keeps_off s s'.
Proof.
  intros Hw Hd Ho [Hw0 Hd0]. rewrite Ho. split; [|apply off_history_refl].
  split; [destruct Hw; congruence | destruct Hd; congruence].
Qed.

Ltac off_history_solve :=
  repeat first [ apply off_history_refl | apply off_history_snoc; [|reflexivity] ].

(** A function that after unfolding is a tree of record updates and sends:
    on a state without history socket, compute each branch. *)
Ltac keeps_off_compute :=
  let H := fresh in
  intros H; destruct H as [?Hw ?Hd];
  match goal with s : State |- _ => destruct s end;
  cbn in *; subst; cbn;
  peel_all; try discriminate;
  (split; [split; reflexivity | off_history_solve]).

Lemma sendHistoryRequest_off (request : Req.t) (s : State) :
  keeps_off s (sendHistoryRequest request s).
Proof. unfold sendHistoryRequest, send, enqueueHistoryRequest. keeps_off_compute. Qed.

Lemma flush_fold_off (queued : list Req.t) (s : State) :
  keeps_off s
    (fold_left (fun st request => send StreamWs (buildHistoryPayload request st) st)
       queued s).
Proof.
  revert s. induction queued as [|request rest IH]; intros s; cbn [fold_left].
  - apply keeps_off_refl.
  - eapply keeps_off_trans; [|apply IH].
    intros [Hw Hd]. split; [split; assumption|].
    unfold send. change (outbox (s <| outbox ::= ?f |>)) with (f (outbox s)). cbv beta.
    apply off_history_snoc; [apply off_history_refl | reflexivity].
Qed.

Lemma flushPendingHistoryRequests_off (s : State) :
  keeps_off s (flushPendingHistoryRequests s).
Proof.
  unfold flushPendingHistoryRequests.
  destruct (Nat.eqb _ 0); [apply keeps_off_refl|].
  intros [Hw Hd].
  assert (Ha : activeWs s = Some StreamWs \/ activeWs s = None).
  { unfold activeWs. rewrite Hw. cbn [is_open].
    destruct (historyWsModeRef s); destruct (is_open (wsRef s)); auto. }
  destruct Ha as [-> | ->]; [|apply keeps_off_refl; split; assumption].
  refine (keeps_off_trans s (s <| pendingHistoryRequests := [] |>) _ _ _ (conj Hw Hd)).
  - apply keeps_off_frame; auto.
  - apply flush_fold_off.
Qed.

Lemma primeHistory_off (s : State) : keeps_off s (primeHistory s).
Proof.
  unfold primeHistory. destruct (_ || _); [apply keeps_off_refl|].
  eapply keeps_off_trans; [|apply sendHistoryRequest_off].
  apply keeps_off_frame; auto.
Qed.

Lemma setTimeout_off (cb : TimerAction) (ms : Z) (s : State) :
  keeps_off s (snd (setTimeout cb ms s)).
Proof. apply keeps_off_frame; auto. Qed.

Lemma clearTimeout_off (h : nat) (s : State) : keeps_off s (clearTimeout h s).
Proof. apply keeps_off_frame; auto. Qed.

Lemma scheduleResume_off (id : string) (ms : Z) (s : State) :
  keeps_off s (scheduleResume id ms s).
Proof. apply keeps_off_frame; auto. Qed.

Lemma schedulePrimeHistory_off (force : bool) (s : State) :
  keeps_off s (schedulePrimeHistory force s).
Proof.
  unfold schedulePrimeHistory, setTimeout. keeps_off_compute.
Qed.

Lemma cancelPrimeHistory_off (s : State) : keeps_off s (cancelPrimeHistory s).
Proof.
  unfold cancelPrimeHistory. destruct (primeHistoryTimerRef s); [|apply keeps_off_refl].
  apply keeps_off_frame; auto.
Qed.

Lemma cancelPrimeFill_off (s : State) : keeps_off s (cancelPrimeFill s).
Proof.
  unfold cancelPrimeFill. destruct (primeFillTimerRef s); apply keeps_off_frame; auto.
Qed.

Lemma resumeAttempt_off (id : string) (s : State) : keeps_off s (resumeAttempt id s).
Proof.
  unfold resumeAttempt, sendControlMessage, send, setTimeout. keeps_off_compute.
Qed.

Lemma closeHistorySocket_off (s : State) : keeps_off s (closeHistorySocket s).
Proof.
  unfold closeHistorySocket. destruct (historyWsRef s); apply keeps_off_frame; auto.
Qed.

Lemma requestSessions_off (s : State) : keeps_off s (requestSessions s).
Proof. unfold requestSessions, send. keeps_off_compute. Qed.

Lemma activateSession_off (id : option string) (s : State) :
  keeps_off s (activateSession id s).
Proof.
  unfold activateSession, requestSessions, send, setHistoryWsModeForSession,
    closeHistorySocket, cancelPrimeFill, resetActivity, resetHistoryTracking,
    scheduleResume, schedulePrimeHistory, setTimeout, clearTimeout.
  keeps_off_compute.
Qed.

Lemma loadSession_off (id : string) (s : State) : keeps_off s (loadSession id s).
Proof.
  unfold loadSession, cancelPrimeFill, resetActivity, scheduleResume, setTimeout,
    clearTimeout.
  keeps_off_compute.
Qed.

Lemma onConversationResumed_off (message : Resumed) (s : State) :
  keeps_off s (onConversationResumed message s).
Proof. unfold onConversationResumed. keeps_off_compute. Qed.

Lemma paging_off (s : State) :
  keeps_off s (loadOlder s) /\ keeps_off s (loadNewer s)
  /\ keeps_off s (jumpToStart s) /\ keeps_off s (jumpToEnd s).
Proof.
  unfold loadOlder, loadNewer, jumpToStart, jumpToEnd.
  split; [|split; [|split]].
  - destruct (historyStart s); [|apply keeps_off_refl].
    eapply keeps_off_trans; [|apply sendHistoryRequest_off]. apply keeps_off_frame; auto.
  - destruct (historyEnd s); [|apply keeps_off_refl].
    eapply keeps_off_trans; [|apply sendHistoryRequest_off]. apply keeps_off_frame; auto.
  - eapply keeps_off_trans; [|apply sendHistoryRequest_off]. apply keeps_off_frame; auto.
  - eapply keeps_off_trans; [|apply sendHistoryRequest_off]. apply keeps_off_frame; auto.
Qed.

Lemma handleEvent_off (rnd : string) (ev : json) (s : State) :
  exists s', handleEvent rnd ev s = Returned s' /\ keeps_off s s'.
Proof.
  destruct (truthy ev) eqn:Hev.
  2: { exists s. split; [apply handleEvent_dropped; auto | apply keeps_off_refl]. }
  destruct (duplicateEvent ev s) eqn:Hdup.
  { exists s. split; [apply handleEvent_dropped; auto | apply keeps_off_refl]. }
  rewrite (handleEvent_fresh rnd ev s Hev Hdup). eexists. split; [reflexivity|].
  destruct (eventPrelude_frame ev s) as (_ & _ & _ & _ & _ & Pw & Pd & Po).
  destruct (isReasoning ev).
  - destruct (negb _).
    + destruct (appendReasoningDelta_frame rnd (extractReasoningText (prop "msg" ev))
                  (assignedIndex s) (eventKeyFromPayload ev)
                  ((eventPrelude ev s) <| liveIndexRef := Some (js_succ (assignedIndex s)) |>))
        as (_ & _ & Aw & Ad & Ao).
      apply keeps_off_frame;
        [left; rewrite Aw; exact Pw | left; rewrite Ad; exact Pd | rewrite Ao; exact Po].
    + apply keeps_off_frame; [left | left |]; assumption.
  - destruct (negb _); (apply keeps_off_frame; [left | left |]; assumption).
Qed.

Lemma handleHistoryChunk_off (message : Chunk.t) (s : State) :
  match handleHistoryChunk message s with
  | Returned s' | Threw s' => keeps_off s s'
  end.
Proof.
  destruct (handleHistoryChunk_cases message s) as (X & Y & [-> | (historyItems & ->)]).
  - apply keeps_off_frame; auto.
  - destruct (recordRange_frame message
                (mergeHistory message historyItems (registered s X Y)))
      as (_ & Rw & _ & _ & _ & _ & Ro & _ & _ & Rd).
    destruct (mergeHistory_frame message historyItems (registered s X Y))
      as (_ & _ & _ & Mw & Md & Mo & _).
    destruct (registered_frame s X Y) as (_ & _ & Gw & Gd & Go & _).
    apply keeps_off_frame; [left | left |]; congruence.
Qed.

Lemma handleSnapshot_off (message : Snapshot.t) (s : State) :
  match handleSnapshot message s with
  | Returned s' | Threw s' => keeps_off s s'
  end.
Proof.
  unfold handleSnapshot. rewrite registerHistoryLines_spec.
  destruct (parseHistoryItems _) as [parsed|]; [|apply keeps_off_frame; auto].
  match goal with
  | |- context [if ?c then primeHistory ?a else ?b] =>
      assert (Ha : keeps_off s (if c then primeHistory a else b));
      [ destruct c;
        [ eapply keeps_off_trans; [|apply primeHistory_off]; apply keeps_off_frame; auto
        | apply keeps_off_frame; auto ]
      | remember (if c then primeHistory a else b) as s4 eqn:E4; clear E4 ]
  end.
  eapply keeps_off_trans; [exact Ha|].
  destruct (Snapshot.end_index message); [|apply keeps_off_refl].
  destruct (liveIndexRef s4); [destruct (_ <=? _)%Z|];
    first [apply keeps_off_refl | apply keeps_off_frame; auto].
Qed.

Lemma keeps_off_caught (s s' : State) : keeps_off s s' -> keeps_off s (caught (Threw s')).
Proof.
  intros H. eapply keeps_off_trans; [exact H|]. apply keeps_off_frame; auto.
Qed.

Lemma deliver_off (d : Delivery) (s : State) : keeps_off s (deliver d s).
Proof.
  assert (Hchunk : forall message, keeps_off s (onHistoryHistoryChunk message s)).
  { intros message. unfold onHistoryHistoryChunk.
    pose proof (handleHistoryChunk_off message s) as H.
    destruct (handleHistoryChunk message s) as [s'|s'].
    - eapply keeps_off_trans; [exact H|]. apply keeps_off_frame; auto.
    - apply keeps_off_caught. exact H. }
  assert (Hsnap : forall message (c : bool),
             keeps_off s
               match handleSnapshot message s with
               | Returned s' => if c then s' <| sessionLoading := false |> else s'
               | Threw s' => caught (Threw s')
               end).
  { intros message c. pose proof (handleSnapshot_off message s) as H.
    destruct (handleSnapshot message s) as [s'|s'].
    - destruct c; [|exact H].
      eapply keeps_off_trans; [exact H|]. apply keeps_off_frame; auto.
    - apply keeps_off_caught. exact H. }
  destruct d as [from message | from closureId message | rnd ev]; cbn [deliver].
  - destruct from; [|apply Hchunk|apply keeps_off_refl].
    unfold onStreamHistoryChunk. destruct (negb _); [apply (Hchunk message)|apply keeps_off_refl].
  - destruct from; [| |apply keeps_off_refl].
    + unfold onStreamSnapshot. destruct (negb _); [|apply keeps_off_refl].
      pose proof (Hsnap message) as H.
      destruct (handleSnapshot message s) as [s'|s']; [|exact (H true)].
      exact (H (opt_string_eqb closureId (activeId s'))).
    + unfold onHistorySnapshot.
      pose proof (Hsnap message) as H.
      destruct (handleSnapshot message s) as [s'|s']; [|exact (H true)].
      exact (H (opt_string_eqb (Some (opt_str closureId)) (activeId s'))).
  - unfold onStreamEvent. destruct (handleEvent_off rnd ev s) as (s' & -> & H). exact H.
Qed.

Lemma streamOnOpen_off (s : State) : keeps_off s (streamOnOpen s).
Proof.
  unfold streamOnOpen.
  assert (H1 : keeps_off s
                 (if sessionLoading (s <| wsRef := Some OPEN |>)
                  then s <| wsRef := Some OPEN |> <| status := "Syncing" |>
                  else s <| wsRef := Some OPEN |>)).
  { destruct (sessionLoading _); apply keeps_off_frame; auto. }
  remember (if sessionLoading (s <| wsRef := Some OPEN |>) then _ else _) as s1 eqn:E1.
  clear E1. eapply keeps_off_trans; [exact H1|].
  eapply keeps_off_trans; [apply flushPendingHistoryRequests_off|].
  remember (flushPendingHistoryRequests s1) as s2 eqn:E2. clear E2.
  destruct (negb (lazyHistory s2)); [apply sendHistoryRequest_off|].
  destruct (_ && _); [apply primeHistory_off | apply keeps_off_refl].
Qed.

Lemma streamConnect_off (s : State) : keeps_off s (streamConnect s).
Proof. unfold streamConnect, clearTimeout. keeps_off_compute. Qed.

Lemma streamWatch_off (s : State) : keeps_off s (streamWatch s).
Proof.
  unfold streamWatch. destruct (streamTarget s); [apply streamConnect_off | apply keeps_off_refl].
Qed.

Lemma streamCleanup_off (s : State) : keeps_off s (streamCleanup s).
Proof.
  unfold streamCleanup, cancelPrimeFill, cancelPrimeHistory, clearTimeout.
  keeps_off_compute.
Qed.

Lemma streamOnClose_off (closed : bool) (retries : Z) (s : State) :
  keeps_off s (snd (streamOnClose closed retries s)).
Proof. unfold streamOnClose, setTimeout. keeps_off_compute. Qed.

Lemma handleHistoryHandshakeFailure_off (s : State) :
  keeps_off s (handleHistoryHandshakeFailure s).
Proof.
  unfold handleHistoryHandshakeFailure, scheduleResume, setTimeout. keeps_off_compute.
Qed.

Lemma historyConnect_off (run : HistoryRun) (s : State) :
  keeps_off s (historyConnect run s).
Proof. unfold historyConnect, setTimeout, clearTimeout. keeps_off_compute. Qed.

Lemma historyConnectBody_off (run : HistoryRun) (now : Z) (s : State) :
  keeps_off s (historyConnectBody run now s).
Proof. unfold historyConnectBody, setTimeout. keeps_off_compute. Qed.

(** A close of a history socket nulls the ref whatever it was; the rest
    keeps the history socket out of use. *)
Lemma historyOnClose_after (run : HistoryRun) (closed opened : bool) (retries : Z)
    (s : State) :
  historyWsDisabledRef s = true ->
  no_history_socket (snd (historyOnClose run closed opened retries s))
  /\ off_history (outbox s) (outbox (snd (historyOnClose run closed opened retries s))).
Proof.
  intros Hd. unfold historyOnClose.
  assert (H1 : no_history_socket (s <| historyWsRef := None |>)) by (split; [reflexivity|exact Hd]).
  assert (O1 : outbox (s <| historyWsRef := None |>) = outbox s) by reflexivity.
  remember (s <| historyWsRef := None |>) as s1 eqn:E1. clear E1. rewrite <- O1. clear O1 Hd.
  assert (K2 : keeps_off s1 (if negb opened then handleHistoryHandshakeFailure s1 else s1))
    by (destruct (negb opened); [apply handleHistoryHandshakeFailure_off | apply keeps_off_refl]).
  remember (if negb opened then handleHistoryHandshakeFailure s1 else s1) as s2 eqn:E2.
  clear E2.
  apply (keeps_off_trans s1 s2); [exact K2 | | exact H1].
  destruct (negb (negb closed && _)); cbn [snd]; [apply keeps_off_refl|].
  assert (K3 : keeps_off s2
                 (if negb opened then s2 <| historyWsAttemptRef ::= (fun n => n + 1) |>
                  else s2))
    by (destruct (negb opened); [apply keeps_off_frame; auto | apply keeps_off_refl]).
  remember (if negb opened then s2 <| historyWsAttemptRef ::= (fun n => n + 1) |> else s2)
    as s3 eqn:E3.
  clear E3. apply (keeps_off_trans s2 s3); [exact K3|].
  destruct (negb opened && _); cbn [snd].
  - eapply keeps_off_trans; [|apply flushPendingHistoryRequests_off].
    apply keeps_off_frame; auto.
  - unfold setTimeout. cbn [snd]. apply keeps_off_frame; auto.
Qed.

Lemma historyOnClose_off (run : HistoryRun) (closed opened : bool) (retries : Z)
    (s : State) :
  keeps_off s (snd (historyOnClose run closed opened retries s)).
Proof. intros [_ Hd]. apply historyOnClose_after. exact Hd. Qed.

Lemma historyKey_disabled (s : State) :
  historyWsDisabledRef s = true -> historyKey s = None.
Proof.
  intros H. unfold historyKey. rewrite H.
  destruct (_ || _); [reflexivity|]. destruct (negb _); reflexivity.
Qed.

Lemma historyWatch_off (url : string) (s : State) :
  keeps_off s (historyWatch url (historyKeyReady s)).
Proof.
  intros [Hw Hd]. unfold historyKeyReady. rewrite (historyKey_disabled s Hd).
  cbn [truthy_str]. unfold historyWatch. rewrite (historyKey_disabled s Hd).
  cbn [truthy_str negb]. apply closeHistorySocket_off. split; assumption.
Qed.

Lemma historyCleanup_off (s : State) : keeps_off s (historyCleanup s).
Proof.
  unfold historyCleanup, cancelPrimeFill, cancelPrimeHistory, clearTimeout.
  keeps_off_compute.
Qed.

Lemma fireTimer_off (h : nat) (now : Z) (s : State) : keeps_off s (fireTimer h now s).
Proof.
  unfold fireTimer. destruct (find_timer h s) as [t|]; [|apply keeps_off_refl].
  eapply keeps_off_trans; [apply (clearTimeout_off h)|].
  remember (clearTimeout h s) as s1 eqn:E1. clear E1.
  destruct (action t).
  - apply resumeAttempt_off.
  - eapply keeps_off_trans; [|apply primeHistory_off]. apply keeps_off_frame; auto.
  - eapply keeps_off_trans; [|apply sendHistoryRequest_off]. apply keeps_off_frame; auto.
  - apply streamConnect_off.
  - apply historyConnect_off.
  - apply historyConnectBody_off.
  - eapply keeps_off_trans; [|apply historyConnect_off]. apply keeps_off_frame; auto.
Qed.

Lemma callback_off (c : Callback) (s : State) : keeps_off s (callback c s).
Proof.
  destruct c; cbn [callback].
  - apply deliver_off.
  - apply fireTimer_off.
  - apply streamOnOpen_off.
  - apply streamOnClose_off.
  - apply streamWatch_off.
  - apply streamCleanup_off.
  - apply historyOnClose_off.
  - apply historyWatch_off.
  - apply historyCleanup_off.
  - apply onConversationResumed_off.
  - apply activateSession_off.
  - apply loadSession_off.
  - apply paging_off.
  - apply paging_off.
  - apply paging_off.
  - apply paging_off.
Qed.

Lemma callbacks_off (cs : list Callback) (s : State) : keeps_off s (callbacks cs s).
Proof.
  unfold callbacks. revert s. induction cs as [|c cs IH]; intros s; cbn [fold_left].
  - apply keeps_off_refl.
  - eapply keeps_off_trans; [apply callback_off | apply IH].
Qed.

(** ** The history channel along a run *)






(** A function that after unfolding is a tree of record updates that leave
    the fields of the channel alone. *)
Ltac same_channel_compute :=
  match goal with s : State |- _ => destruct s end;
  cbn; peel_cbn; repeat split.

(** A function that after unfolding is a tree of record updates and sends:
    on an idle state, compute each branch. *)
Ltac keeps_idle_compute :=
  let H := fresh in
  intros H; destruct H as [?Hw ?Hj];
  match goal with s : State |- _ => destruct s end;
  cbn in *; subst;
  match goal with Hj : _ \/ _ |- _ => destruct Hj as [?Ha | [?Hd ?Hm]] end;
  subst; cbn; peel_all; try discriminate;
  (split;
   [ split; [reflexivity | first [left; reflexivity | right; split; reflexivity]]
   | off_history_solve ]).

Lemma setTimeout_channel (cb : TimerAction) (ms : Z) (s : State) :
  same_channel s (snd (setTimeout cb ms s)).
Proof. repeat split. Qed.


Lemma scheduleResume_channel (id : string) (ms : Z) (s : State) :
  same_channel s (scheduleResume id ms s).
Proof. repeat split. Qed.

Lemma schedulePrimeHistory_channel (force : bool) (s : State) :
  same_channel s (schedulePrimeHistory force s).
Proof. unfold schedulePrimeHistory, setTimeout. same_channel_compute. Qed.

Lemma cancelPrimeHistory_channel (s : State) : same_channel s (cancelPrimeHistory s).
Proof. unfold cancelPrimeHistory, clearTimeout. same_channel_compute. Qed.

Lemma cancelPrimeFill_channel (s : State) : same_channel s (cancelPrimeFill s).
Proof. unfold cancelPrimeFill, clearTimeout. same_channel_compute. Qed.

















Lemma requestSessions_idle (s : State) : keeps_idle s (requestSessions s).
Proof. unfold requestSessions, send. keeps_idle_compute. Qed.





















(** ** Keys in the item list *)

Lemma eventKey_nonempty (payload : json) (k : string) :
  eventKeyFromPayload payload = Some k -> k <> "".
Proof.
  unfold eventKeyFromPayload. destruct (negb (truthy payload)); [discriminate|].
  destruct (_ && _); [discriminate|].
  intros [= <-].
  destruct (match prop "id" payload with JStr s => s | _ => "" end); cbn; discriminate.
Qed.

Lemma keys_in_mono (K K' : gset string) (l : list Item.t) :
  K ⊆ K' -> keys_in K l -> keys_in K' l.
Proof.
  intros HK H. unfold keys_in in *. eapply List.Forall_impl; [|exact H].
  intros item Hi k Hk. destruct (Hi k Hk). split; [assumption | apply HK; assumption].
Qed.

Lemma keyless_key_in (K : gset string) (item : Item.t) :
  Item.eventKey item = None -> key_in K item.
Proof. intros H k E. congruence. Qed.

Lemma pushUnique_keys (K : gset string) (item : Item.t) (acc : ParseAcc) :
  key_in K item -> keys_in K (acc_items acc) ->
  keys_in K (acc_items (pushUnique item acc)).
Proof.
  intros Hi Ha. unfold pushUnique. destruct (bool_decide _); [exact Ha|].
  cbn [acc_items]. apply List.Forall_app. split; [exact Ha | constructor; [exact Hi | constructor]].
Qed.

Lemma last_item_split (l : list Item.t) (x : Item.t) :
  last_item l = Some x -> l = (List.removelast l ++ [x])%list.
Proof.
  unfold last_item. induction l as [|a l IH]; [discriminate|].
  destruct l as [|b l]; [intros [= ->]; reflexivity|].
  intros H. change (a :: b :: l = a :: (List.removelast (b :: l) ++ [x])%list).
  f_equal. apply IH. exact H.
Qed.

Lemma parseEventEntry_keys (K : gset string) (index : option Z) (entry : RolloutEntry)
    (acc : ParseAcc) :
  (forall k, eventKeyFromPayload (entry_payload entry) = Some k -> k ∈ K) ->
  keys_in K (acc_items acc) ->
  keys_in K (acc_items (parseEventEntry index entry acc)).
Proof.
  intros Hk Ha.
  assert (Hi : forall suffix kd sub ttl txt m,
             key_in K (eventItem index (eventKeyFromPayload (entry_payload entry))
                         suffix kd sub ttl txt m)).
  { intros suffix kd sub ttl txt m k E. cbn in E.
    split; [eapply eventKey_nonempty; exact E | apply Hk; exact E]. }
  unfold parseEventEntry, parseReasoning. cbv zeta.
  repeat (peel; cbv beta iota);
    try exact Ha; try (apply pushUnique_keys; [apply Hi | exact Ha]).
  cbn [acc_items].
  match goal with
  | H : last_item _ = Some _ |- _ => rewrite (last_item_split _ _ H) in Ha
  end.
  apply List.Forall_app in Ha as [H1 H2].
  apply List.Forall_app. split; [exact H1|].
  inversion H2 as [|? ? H3 _]; subst. constructor; [exact H3 | constructor].
Qed.

Lemma pushImages_keys (K : gset string) (index : option Z) (kd : TimelineKind)
    (content : list json) :
  forall (idx : Z) (acc : ParseAcc),
    keys_in K (acc_items acc) ->
    keys_in K (acc_items (pushImages index kd idx content acc)).
Proof.
  induction content as [|segment rest IH]; intros idx acc Ha; cbn [pushImages];
    [exact Ha|].
  apply IH. destruct (_ || _); [|exact Ha].
  apply pushUnique_keys; [apply keyless_key_in; reflexivity | exact Ha].
Qed.

Lemma parseResponseItem_keys (K : gset string) (index : option Z) (entry : RolloutEntry)
    (acc acc' : ParseAcc) :
  parseResponseItem index entry acc = Some acc' ->
  keys_in K (acc_items acc) -> keys_in K (acc_items acc').
Proof.
  unfold parseResponseItem. cbv zeta. intros H Ha.
  destruct (is_str _ "reasoning").
  { injection H as <-. apply pushUnique_keys; [apply keyless_key_in; reflexivity | exact Ha]. }
  destruct (negb _).
  { injection H as <-. apply pushUnique_keys; [apply keyless_key_in; reflexivity | exact Ha]. }
  destruct (existsb _ _); [discriminate|]. injection H as <-.
  apply pushImages_keys. destruct (negb _); [|exact Ha].
  apply pushUnique_keys; [apply keyless_key_in; reflexivity | exact Ha].
Qed.

Lemma markKey_mono (line : Line.t) (K : gset string) : K ⊆ markKey line K.
Proof. unfold markKey. destruct (_ && _); [apply union_subseteq_r | reflexivity]. Qed.

Lemma keysAfter_mono (lines : list Line.t) :
  forall (X : gset Z) (Y : gset string), Y ⊆ keysAfter lines X Y.
Proof.
  induction lines as [|line rest IH]; intros X Y; cbn [keysAfter]; [reflexivity|].
  destruct (lineSeen X line); [apply IH|].
  etransitivity; [apply markKey_mono | apply IH].
Qed.

Lemma parseLine_keys (K : gset string) (line : Line.t) (acc acc' : ParseAcc) :
  parseLine line acc = Some acc' ->
  keys_in K (acc_items acc) -> keys_in (markKey line K) (acc_items acc').
Proof.
  unfold parseLine. cbv zeta. intros H Ha.
  apply (keys_in_mono K (markKey line K)) in Ha; [|apply markKey_mono].
  destruct (String.eqb (entry_type (extractEntry line)) "event") eqn:He.
  - injection H as <-. apply parseEventEntry_keys; [|exact Ha].
    intros k E. unfold markKey. rewrite He, E.
    rewrite (truthy_str_some k) by (eapply eventKey_nonempty; exact E).
    apply elem_of_union_l, elem_of_singleton. reflexivity.
  - destruct (String.eqb _ "response_item").
    + eapply parseResponseItem_keys; [exact H | exact Ha].
    + injection H as <-. exact Ha.
Qed.

(** The keys of the entries converted from the fresh lines of a response
    are among the keys the registration records. *)
Lemma parseLines_fresh_keys (skip : bool) (lines : list Line.t) :
  forall (X : gset Z) (Y : gset string) (acc acc' : ParseAcc),
    parseLines (freshOf lines skip X) acc = Some acc' ->
    keys_in Y (acc_items acc) ->
    keys_in (keysAfter lines X Y) (acc_items acc').
Proof.
  induction lines as [|line rest IH]; intros X Y acc acc' H Ha;
    cbn [freshOf keysAfter] in *.
  - injection H as <-. exact Ha.
  - destruct (lineSeen X line); [eapply IH; eassumption|].
    destruct (lineSuperseded skip line).
    + eapply IH; [exact H|]. eapply keys_in_mono; [apply markKey_mono | exact Ha].
    + cbn [parseLines] in H. destruct (parseLine line acc) as [acc1|] eqn:E1; [|discriminate].
      eapply IH; [exact H|]. eapply parseLine_keys; eassumption.
Qed.

Lemma parseHistoryItems_keys (skip : bool) (lines : list Line.t) (X : gset Z)
    (Y : gset string) (parsed : list Item.t) :
  parseHistoryItems (freshOf lines skip X) = Some parsed ->
  keys_in (keysAfter lines X Y) (List.map asHistory parsed).
Proof.
  unfold parseHistoryItems. intros H.
  destruct (parseLines _ _) as [acc'|] eqn:E; [|discriminate]. injection H as <-.
  assert (Hk : keys_in (keysAfter lines X Y) (acc_items acc')).
  { eapply parseLines_fresh_keys; [exact E | constructor]. }
  unfold keys_in in *. apply List.Forall_map. eapply List.Forall_impl; [|exact Hk].
  intros item Hi. exact Hi.
Qed.

(** *** Lines whose conversion throws *)

Lemma parseLine_total (line : Line.t) (acc : ParseAcc) :
  throws line = false -> exists acc', parseLine line acc = Some acc'.
Proof.
  unfold throws, parseLine, parseResponseItem. cbv zeta. intros H.
  destruct (String.eqb _ "event"); [eexists; reflexivity|].
  destruct (String.eqb _ "response_item"); [|eexists; reflexivity].
  destruct (is_str _ "reasoning"); [eexists; reflexivity|].
  destruct (negb _); [eexists; reflexivity|].
  destruct (existsb _ _); [discriminate | eexists; reflexivity].
Qed.

Lemma parseLines_total (lines : list Line.t) :
  forall acc : ParseAcc,
    forallb (fun line => negb (throws line)) lines = true ->
    exists acc', parseLines lines acc = Some acc'.
Proof.
  induction lines as [|line rest IH]; intros acc H; cbn [parseLines forallb] in *.
  - eexists; reflexivity.
  - apply andb_prop in H as [H1 H2]. apply negb_true_iff in H1.
    destruct (parseLine_total line acc H1) as (acc1 & ->). apply IH. exact H2.
Qed.

Lemma freshOf_converts (skip : bool) (lines : list Line.t) :
  forall X : gset Z,
    forallb (fun line => negb (throws line)) lines = true ->
    forallb (fun line => negb (throws line)) (freshOf lines skip X) = true.
Proof.
  induction lines as [|line rest IH]; intros X H; cbn [freshOf forallb] in *; [reflexivity|].
  apply andb_prop in H as [H1 H2].
  destruct (lineSeen X line); [apply IH; exact H2|].
  destruct (lineSuperseded skip line); [apply IH; exact H2|].
  cbn [forallb]. rewrite H1. apply IH. exact H2.
Qed.

Lemma parseHistoryItems_total (skip : bool) (lines : list Line.t) (X : gset Z) :
  forallb (fun line => negb (throws line)) lines = true ->
  exists parsed, parseHistoryItems (freshOf lines skip X) = Some parsed.
Proof.
  intros H. unfold parseHistoryItems.
  destruct (parseLines_total _ (mkAcc [] ∅) (freshOf_converts skip lines X H)) as (acc' & ->).
  eexists; reflexivity.
Qed.

(** *** Lists without a clash *)

Lemma clash_sym (a b : Item.t) : clash a b -> clash b a.
Proof. intros (k & Ha & Hb & Hn). exists k. tauto. Qed.

Lemma live_unique_app (l1 l2 : list Item.t) :
  live_unique (l1 ++ l2)
  <-> live_unique l1 /\ live_unique l2
      /\ (forall a b, In a l1 -> In b l2 -> ~ clash a b).
Proof.
  induction l1 as [|x l1 IH]; cbn [live_unique app].
  - split; [intros H; repeat split; [exact H | intros a b []] | tauto].
  - rewrite IH, List.Forall_app, !List.Forall_forall. split.
    + intros ((F1 & F2) & U1 & U2 & C). repeat split; try assumption.
      intros a b [<- | Ha] Hb; [apply F2; exact Hb | apply C; assumption].
    + intros ((F1 & U1) & U2 & C). repeat split; try assumption.
      * intros b Hb. apply C; [left; reflexivity | exact Hb].
      * intros a b Ha Hb. apply C; [right; exact Ha | exact Hb].
Qed.

Lemma live_unique_filter (f : Item.t -> bool) (l : list Item.t) :
  live_unique l -> live_unique (List.filter f l).
Proof.
  induction l as [|x l IH]; cbn [live_unique List.filter]; [tauto|].
  intros [F U]. destruct (f x); [|apply IH; exact U].
  cbn [live_unique]. split; [|apply IH; exact U].
  rewrite List.Forall_forall in *. intros b Hb. apply F.
  apply List.filter_In in Hb. tauto.
Qed.

Lemma live_unique_history (l : list Item.t) :
  Forall (fun item => Item.origin item = Some history) l -> live_unique l.
Proof.
  induction l as [|x l IH]; intros H; cbn [live_unique]; [exact I|].
  inversion H as [|? ? Hx Hl]; subst. split; [|apply IH; exact Hl].
  rewrite List.Forall_forall in *. intros b Hb (k & _ & _ & Hn). apply Hn.
  split; [exact Hx | apply Hl; exact Hb].
Qed.

(** An entry put in the place of another, clashing with no more entries. *)
Lemma live_unique_replace (l1 l2 : list Item.t) (c c' : Item.t) :
  live_unique (l1 ++ c :: l2) ->
  (forall x, In x (l1 ++ l2) -> clash c' x -> clash c x) ->
  live_unique (l1 ++ c' :: l2).
Proof.
  intros U Hc. apply live_unique_app in U as (U1 & U2 & C).
  cbn [live_unique] in U2. destruct U2 as [F U2].
  apply live_unique_app. split; [exact U1|]. split.
  - cbn [live_unique]. split; [|exact U2].
    rewrite List.Forall_forall in *. intros b Hb Hcl.
    apply (F b Hb). apply Hc; [apply List.in_or_app; right; exact Hb | exact Hcl].
  - intros a b Ha [<- | Hb].
    + intros Hcl. apply (C a c Ha); [left; reflexivity|].
      apply clash_sym, Hc; [apply List.in_or_app; left; exact Ha | apply clash_sym; exact Hcl].
    + apply C; [exact Ha | right; exact Hb].
Qed.

(** An entry put between two parts of a list. *)
Lemma live_unique_insert (l1 l2 h : list Item.t) :
  live_unique (l1 ++ l2) -> live_unique h ->
  (forall a b, In a h -> In b (l1 ++ l2) -> ~ clash a b) ->
  live_unique (l1 ++ h ++ l2).
Proof.
  intros U Uh C. apply live_unique_app in U as (U1 & U2 & C12).
  apply live_unique_app. split; [exact U1|]. split.
  - apply live_unique_app. split; [exact Uh|]. split; [exact U2|].
    intros a b Ha Hb. apply C; [exact Ha | apply List.in_or_app; right; exact Hb].
  - intros a b Ha Hb Hcl. apply List.in_app_or in Hb as [Hb | Hb].
    + apply (C b a Hb); [apply List.in_or_app; left; exact Ha | apply clash_sym; exact Hcl].
    + exact (C12 a b Ha Hb Hcl).
Qed.

Lemma live_unique_lookup (l : list Item.t) :
  live_unique l ->
  forall (i j : nat) (a b : Item.t),
    i <> j -> l !! i = Some a -> l !! j = Some b -> ~ clash a b.
Proof.
  induction l as [|x l IH]; intros U i j a b Hij Ha Hb; [discriminate|].
  cbn [live_unique] in U. destruct U as [F U]. rewrite List.Forall_forall in F.
  destruct i as [|i], j as [|j]; cbn in Ha, Hb.
  - congruence.
  - injection Ha as <-. apply F. apply list_elem_of_In. eapply list_elem_of_lookup_2. exact Hb.
  - injection Hb as <-. intros Hcl. apply clash_sym in Hcl. revert Hcl. apply F.
    apply list_elem_of_In. eapply list_elem_of_lookup_2. exact Ha.
  - eapply IH; [exact U | | exact Ha | exact Hb]. congruence.
Qed.

(** *** Live entries against a page of history *)

Lemma survivors_In (h l : list Item.t) (x : Item.t) :
  In x (survivors h l) -> In x l.
Proof.
  unfold survivors. destruct (_ || _); [tauto|].
  intros H. apply List.filter_In in H. tauto.
Qed.

Lemma survivors_unique (h l : list Item.t) :
  live_unique l -> live_unique (survivors h l).
Proof.
  unfold survivors. destruct (_ || _); [tauto | apply live_unique_filter].
Qed.

(** A live entry that carries the key of an entry of the page does not
    survive [dropEventDuplicates]. *)
Lemma survivors_no_clash (K : gset string) (h l : list Item.t) (a b : Item.t) :
  Forall (fun item => Item.origin item = Some history) h ->
  keys_in K h -> has_origin l ->
  In a h -> In b (survivors h l) -> ~ clash a b.
Proof.
  unfold keys_in, has_origin. rewrite !List.Forall_forall.
  intros Hh Hk Ho Ha Hb (k & Ea & Eb & Hn).
  destruct (Hk a Ha k Ea) as [Hne _].
  assert (Hbl : In b l /\ survivesHistory h b = true).
  { unfold survivors in Hb. destruct (Nat.eqb (List.length l) 0) eqn:E1; cbn [orb] in Hb.
    - apply Nat.eqb_eq in E1. destruct l; [destruct Hb | discriminate].
    - destruct (Nat.eqb (List.length h) 0) eqn:E2.
      + apply Nat.eqb_eq in E2. destruct h; [destruct Ha | discriminate].
      + apply List.filter_In in Hb. exact Hb. }
  destruct Hbl as [Hbl Hs].
  assert (Ob : Item.origin b = Some event).
  { destruct (Item.origin b) as [[|]|] eqn:E.
    - exfalso. apply Hn. split; [apply Hh; exact Ha | reflexivity].
    - reflexivity.
    - specialize (Ho b Hbl E). congruence. }
  unfold survivesHistory in Hs. cbv zeta in Hs. rewrite Ob, Eb in Hs.
  cbn [is_origin negb] in Hs. rewrite (truthy_str_some k Hne) in Hs.
  cbn [andb opt_str default] in Hs.
  rewrite bool_decide_eq_true_2 in Hs; [discriminate|].
  apply elem_of_list_to_set, list_elem_of_In, List.filter_In. split.
  - apply list_elem_of_In, list_elem_of_omap. exists a.
    split; [apply list_elem_of_In; exact Ha | exact Ea].
  - change (negb (String.eqb k "") = true).
    apply negb_true_iff, String.eqb_neq. exact Hne.
Qed.

(** A page of history put into the list of the survivors. *)
Lemma merged_ok (K K' : gset string) (h l l1 l2 : list Item.t) :
  K ⊆ K' ->
  Forall (fun item => Item.origin item = Some history) h ->
  keys_in K' h ->
  live_unique l -> keys_in K l -> has_origin l ->
  survivors h l = (l1 ++ l2)%list ->
  live_unique (l1 ++ h ++ l2) /\ keys_in K' (l1 ++ h ++ l2) /\ has_origin (l1 ++ h ++ l2).
Proof.
  intros HK Hh Hkh U Hk Ho E.
  assert (Hin : forall x, In x (l1 ++ h ++ l2) -> In x h \/ In x l).
  { intros x Hx. apply List.in_app_or in Hx as [Hx | Hx].
    - right. apply (survivors_In h). rewrite E. apply List.in_or_app. left. exact Hx.
    - apply List.in_app_or in Hx as [Hx | Hx]; [left; exact Hx|].
      right. apply (survivors_In h). rewrite E. apply List.in_or_app. right. exact Hx. }
  split; [|split].
  - apply live_unique_insert.
    + rewrite <- E. apply survivors_unique. exact U.
    + apply live_unique_history. exact Hh.
    + intros a b Ha Hb. rewrite <- E in Hb.
      apply (survivors_no_clash K' h l); assumption.
  - apply (keys_in_mono K K') in Hk; [|exact HK].
    unfold keys_in in *. rewrite List.Forall_forall in *.
    intros x Hx. destruct (Hin x Hx); auto.
  - unfold has_origin in *. rewrite List.Forall_forall in *.
    intros x Hx. destruct (Hin x Hx) as [H | H]; [|auto].
    intros Hnone. rewrite (Hh x H) in Hnone. discriminate.
Qed.

Lemma history_items_ok (skip : bool) (lines : list Line.t) (X : gset Z) (Y : gset string)
    (parsed : list Item.t) :
  parseHistoryItems (freshOf lines skip X) = Some parsed ->
  Forall (fun item => Item.origin item = Some history) (List.map asHistory parsed)
  /\ keys_in (keysAfter lines X Y) (List.map asHistory parsed).
Proof.
  intros H. split; [|eapply parseHistoryItems_keys; exact H].
  apply List.Forall_map. apply List.Forall_forall. reflexivity.
Qed.

Lemma history_only_ok (K : gset string) (h : list Item.t) :
  Forall (fun item => Item.origin item = Some history) h ->
  keys_in K h ->
  live_unique h /\ keys_in K h /\ has_origin h.
Proof.
  intros Hh Hk. split; [apply live_unique_history; exact Hh|]. split; [exact Hk|].
  unfold has_origin. eapply List.Forall_impl; [|exact Hh].
  intros item Hi Hnone. rewrite Hi in Hnone. discriminate.
Qed.

Lemma mergeHistory_anchor_items (message : Chunk.t) (h : list Item.t) (s : State) :
  is_anchor message = true -> items (mergeHistory message h s) = h.
Proof.
  unfold is_anchor, mergeHistory. intros H.
  destruct (opt_string_eqb (Chunk.anchor message) (Some "head")).
  - destruct s; unfold cancelPrimeFill, clearTimeout; cbn. peel_cbn; reflexivity.
  - cbn [orb] in H. rewrite H.
    match goal with
    | |- items (schedulePrimeFill _ _ ?st) = _ =>
        destruct (schedulePrimeFill_frame message h st) as [-> _]
    end.
    destruct s; unfold cancelPrimeHistory, cancelPrimeFill, clearTimeout; cbn.
    peel_cbn; reflexivity.
Qed.

Lemma mergeHistory_paged_items (message : Chunk.t) (h : list Item.t) (s : State) :
  is_anchor message = false ->
  (exists l1 l2,
      items (mergeHistory message h s) = (l1 ++ h ++ l2)%list
      /\ survivors h (items s) = (l1 ++ l2)%list)
  \/ items (mergeHistory message h s) = items s.
Proof.
  intros Ha. destruct (Chunk.before message) as [before|] eqn:Hb.
  - left. exists [], (survivors h (items s)).
    rewrite (mergeHistory_before message h s before Ha Hb).
    split; reflexivity.
  - unfold is_anchor in Ha. apply orb_false_elim in Ha as [Hh Ht].
    unfold mergeHistory. rewrite Hh, Ht, Hb.
    destruct (Chunk.after message); [|right; reflexivity].
    left.
    change (items (?a <| items := ?v |> <| historyMode := _ |> <| hasMoreAfter := _ |>))
      with v.
    rewrite dropEventDuplicates_items.
    destruct (findLiveStart (survivors h (items s))) as [n|].
    + exists (firstn n (survivors h (items s))), (skipn n (survivors h (items s))).
      split; [reflexivity | symmetry; apply List.firstn_skipn].
    + exists (survivors h (items s)), [].
      rewrite !List.app_nil_r. split; reflexivity.
Qed.

(** A history response none of whose lines throws keeps the invariant. *)
Lemma handleHistoryChunk_keys_ok (message : Chunk.t) (s : State) :
  forallb (fun line => negb (throws line)) (Chunk.items message) = true ->
  keys_ok s ->
  exists s', handleHistoryChunk message s = Returned s' /\ keys_ok s'.
Proof.
  intros Hc (U & Hk & Ho).
  destruct (is_anchor message) eqn:Ha.
  - rewrite (handleHistoryChunk_anchor message s Ha). unfold anchorItems.
    destruct (parseHistoryItems_total (hasAssistantResponseItem (Chunk.items message))
                (Chunk.items message) ∅ Hc) as (parsed & Hp).
    rewrite Hp. cbn [option_map]. eexists. split; [reflexivity|].
    destruct (history_items_ok _ _ _ ∅ _ Hp) as (Hh & Hkh).
    match goal with
    | |- keys_ok (recordRange _ (mergeHistory _ _ ?r)) =>
        destruct (recordRange_frame message (mergeHistory message (List.map asHistory parsed) r))
          as (Ri & _ & _ & _ & Rs & _);
        destruct (mergeHistory_frame message (List.map asHistory parsed) r)
          as (_ & Ms & _);
        pose proof (mergeHistory_anchor_items message (List.map asHistory parsed) r Ha) as Mi
    end.
    unfold keys_ok. rewrite Ri, Rs, Mi, Ms.
    apply history_only_ok; assumption.
  - rewrite (handleHistoryChunk_paged message s Ha). cbv zeta.
    destruct (parseHistoryItems_total (hasAssistantResponseItem (Chunk.items message))
                (Chunk.items message) (seenLineIndexRef s) Hc) as (parsed & Hp).
    rewrite Hp. eexists. split; [reflexivity|].
    destruct (history_items_ok _ _ _ (seenEventRef s) _ Hp) as (Hh & Hkh).
    match goal with
    | |- keys_ok (recordRange _ (mergeHistory _ _ ?r)) =>
        destruct (recordRange_frame message (mergeHistory message (List.map asHistory parsed) r))
          as (Ri & _ & _ & _ & Rs & _);
        destruct (mergeHistory_frame message (List.map asHistory parsed) r)
          as (_ & Ms & _);
        pose proof (mergeHistory_paged_items message (List.map asHistory parsed) r Ha) as Mi
    end.
    unfold keys_ok. rewrite Ri, Rs, Ms.
    change (seenEventRef (registered s ?X ?Y)) with Y.
    change (items (registered s ?X ?Y)) with (items s) in Mi.
    destruct Mi as [(l1 & l2 & -> & Es) | ->].
    + apply (merged_ok (seenEventRef s) _ _ (items s)); try assumption.
      apply keysAfter_mono.
    + split; [exact U|]. split; [|exact Ho].
      eapply keys_in_mono; [apply keysAfter_mono | exact Hk].
Qed.

Lemma handleSnapshot_keys_ok (message : Snapshot.t) (s : State) :
  forallb (fun line => negb (throws line)) (Snapshot.rollout message) = true ->
  exists s', handleSnapshot message s = Returned s' /\ keys_ok s'.
Proof.
  intros Hc. pose proof (handleSnapshot_cases message s) as H.
  destruct (parseHistoryItems_total (hasAssistantResponseItem (Snapshot.rollout message))
              (Snapshot.rollout message) ∅ Hc) as (parsed & Hp).
  assert (Hr : exists s', handleSnapshot message s = Returned s').
  { unfold handleSnapshot. rewrite registerHistoryLines_spec.
    change (seenLineIndexRef (resetHistoryTracking _)) with (∅ : gset Z).
    rewrite Hp. eexists. reflexivity. }
  destruct Hr as (s' & Hr). rewrite Hr in H. exists s'. split; [exact Hr|].
  destruct H as (_ & Hs & _ & _ & parsed' & Hp' & Hi).
  unfold keys_ok. rewrite Hi, Hs.
  destruct (history_items_ok _ _ _ ∅ _ Hp') as (Hh & Hkh).
  apply history_only_ok; assumption.
Qed.

(** *** Live events *)

Lemma mergeDelta_fields (delta : string) (key : option string) (current : Item.t) :
  Item.eventKey (mergeDelta delta key current)
  = match Item.eventKey current with Some k => Some k | None => key end
  /\ Item.origin (mergeDelta delta key current)
     = match Item.origin current with Some o => Some o | None => Some event end.
Proof. destruct current; split; reflexivity. Qed.

Lemma split_at (l1 l2 : list Item.t) (c : Item.t) :
  firstn (List.length l1) (l1 ++ c :: l2) = l1
  /\ skipn (S (List.length l1)) (l1 ++ c :: l2) = l2.
Proof.
  induction l1 as [|x l1 [IH1 IH2]]; [split; reflexivity|].
  split; [cbn; f_equal; exact IH1 | exact IH2].
Qed.

Lemma appendReasoningDelta_items (rnd delta : string) (i : Z) (key : option string)
    (s : State) :
  delta_step key (items s) (items (appendReasoningDelta rnd delta i key s)).
Proof.
  unfold appendReasoningDelta. destruct (String.eqb delta ""); [constructor|].
  destruct (reasoningTarget s) as [t|].
  - destruct (nth_error (items s) t) as [current|] eqn:E; [|constructor].
    apply List.nth_error_split in E as (l1 & l2 & El & Hlen).
    change (items (?a <| reasoningIdRef := _ |> <| items := ?v |>)) with v.
    subst t. rewrite El. destruct (split_at l1 l2 current) as [-> ->].
    rewrite <- El. apply delta_merged. exact El.
  - change (items (?a <| reasoningIdRef := _ |> <| items ::= ?f |>)) with (f (items a)).
    cbv beta. apply delta_new; reflexivity.
Qed.

(** ** The index of a live event *)

(** The indices of the list after [appendReasoningDelta]: those before,
    followed by the index given when an entry is appended. *)
Lemma appendReasoningDelta_indices (rnd delta : string) (i : Z) (key : option string)
    (s : State) :
  exists n,
    (n <= 1)%nat
    /\ List.map Item.index (items (appendReasoningDelta rnd delta i key s))
       = (List.map Item.index (items s) ++ List.repeat (Some i) n)%list.
Proof.
  unfold appendReasoningDelta.
  destruct (String.eqb delta "");
    [exists 0%nat; split; [lia | symmetry; apply List.app_nil_r]|].
  destruct (reasoningTarget s) as [t|].
  - exists 0%nat. split; [lia|]. cbn [List.repeat]. rewrite List.app_nil_r.
    destruct (nth_error (items s) t) as [current|] eqn:E; [|reflexivity].
    apply List.nth_error_split in E as (l1 & l2 & El & Hlen).
    change (items (?a <| reasoningIdRef := _ |> <| items := ?v |>)) with v.
    subst t. rewrite El. destruct (split_at l1 l2 current) as [-> ->].
    rewrite !List.map_app. cbn [List.map]. destruct current; reflexivity.
  - exists 1%nat. split; [lia|].
    change (items (?a <| reasoningIdRef := _ |> <| items ::= ?f |>)) with (f (items a)).
    cbv beta. rewrite List.map_app. reflexivity.
Qed.

(** Without a reasoning entry to merge into, a delta that is not empty is
    appended as a new entry, at the index given. *)
Lemma appendReasoningDelta_new (rnd delta : string) (i : Z) (key : option string)
    (s : State) :
  delta <> "" -> reasoningTarget s = None ->
  exists e,
    items (appendReasoningDelta rnd delta i key s) = (items s ++ [e])%list
    /\ Item.index e = Some i /\ Item.text e = Some delta.
Proof.
  intros Hd Ht. unfold appendReasoningDelta.
  replace (String.eqb delta "") with false by (symmetry; apply String.eqb_neq; exact Hd).
  rewrite Ht. eexists. split; [reflexivity|]. split; reflexivity.
Qed.

Lemma eventEntries_indices (i : Z) (ev : json) :
  Forall (fun item => Item.index item = Some i) (eventEntries i ev).
Proof.
  eapply List.Forall_impl; [|apply eventEntries_index]. intros item (H & _). exact H.
Qed.

(** A reasoning event is not a message: its prelude leaves the open
    reasoning entry as it is. *)
Lemma eventPrelude_reasoning (ev : json) (s : State) :
  isReasoning ev = true ->
  reasoningIdRef (eventPrelude ev s) = reasoningIdRef s.
Proof.
  unfold isReasoning, eventPrelude. intros Hr.
  destruct (prop "type" (prop "msg" ev)) as [| | | |t| |]; try discriminate.
  assert (Hm : is_str (JStr t) "user_message" || is_str (JStr t) "agent_message" = false).
  { cbn [is_str] in *. apply orb_true_iff in Hr as [H | H];
      apply String.eqb_eq in H; subst t; reflexivity. }
  rewrite Hm.
  destruct (negb (String.eqb t ""));
    [rewrite updateActivityFromEvent_eta|];
    destruct (truthy_str (eventKeyFromPayload ev)); destruct s; reflexivity.
Qed.

(** What a kept event does to the counter and to the list. *)
Lemma handleEvent_assigns (rnd : string) (ev : json) (s : State) :
  truthy ev = true ->
  duplicateEvent ev s = false ->
  exists s',
    handleEvent rnd ev s = Returned s'
    /\ liveIndexRef s' = Some (js_succ (assignedIndex s))
    /\ if isReasoning ev
       then (exists n,
                (n <= 1)%nat
                /\ List.map Item.index (items s')
                   = (List.map Item.index (items s)
                        ++ List.repeat (Some (assignedIndex s)) n)%list)
            /\ (extractReasoningText (prop "msg" ev) <> "" -> reasoningTarget s = None ->
                exists e,
                  items s' = (items s ++ [e])%list
                  /\ Item.index e = Some (assignedIndex s)
                  /\ Item.text e = Some (extractReasoningText (prop "msg" ev)))
       else items s' = (items s ++ eventEntries (assignedIndex s) ev)%list.
Proof.
  intros Hev Hdup. rewrite (handleEvent_fresh rnd ev s Hev Hdup).
  destruct (eventPrelude_frame ev s) as (_ & _ & Hi & _).
  destruct (isReasoning ev) eqn:Hr.
  - pose proof (eventPrelude_reasoning ev s Hr) as Hid.
    remember ((eventPrelude ev s) <| liveIndexRef := Some (js_succ (assignedIndex s)) |>)
      as s4 eqn:E4.
    assert (I4 : items s4 = items s) by (subst s4; exact Hi).
    assert (T4 : reasoningTarget s4 = reasoningTarget s).
    { unfold reasoningTarget. rewrite I4.
      replace (reasoningIdRef s4) with (reasoningIdRef s) by (subst s4; symmetry; exact Hid).
      reflexivity. }
    assert (L4 : liveIndexRef s4 = Some (js_succ (assignedIndex s)))
      by (subst s4; reflexivity).
    clear E4.
    destruct (String.eqb (extractReasoningText (prop "msg" ev)) "") eqn:Ed; cbn [negb].
    + eexists. split; [reflexivity|]. split; [exact L4|]. split.
      * exists 0%nat. split; [lia|]. rewrite I4. symmetry. apply List.app_nil_r.
      * intros Hd. apply String.eqb_eq in Ed. contradiction.
    + destruct (appendReasoningDelta_indices rnd (extractReasoningText (prop "msg" ev))
                  (assignedIndex s) (eventKeyFromPayload ev) s4) as (n & Hn & Hmap).
      destruct (appendReasoningDelta_frame rnd (extractReasoningText (prop "msg" ev))
                  (assignedIndex s) (eventKeyFromPayload ev) s4) as (Hl & _).
      eexists. split; [reflexivity|]. split; [rewrite Hl; exact L4|]. split.
      * exists n. split; [exact Hn|]. rewrite Hmap, I4. reflexivity.
      * intros Hd Ht. rewrite <- T4 in Ht.
        destruct (appendReasoningDelta_new rnd (extractReasoningText (prop "msg" ev))
                    (assignedIndex s) (eventKeyFromPayload ev) s4 Hd Ht)
          as (e & He & Hidx & Htxt).
        exists e. rewrite He, I4. split; [reflexivity|]. split; assumption.
  - eexists. split; [reflexivity|].
    destruct (eventEntries (assignedIndex s) ev) as [|item rest] eqn:E;
      cbn [List.length Nat.eqb negb].
    + split; [reflexivity|].
      change (items ((eventPrelude ev s) <| liveIndexRef := _ |>))
        with (items (eventPrelude ev s)).
      rewrite Hi. symmetry. apply List.app_nil_r.
    + split; [reflexivity|].
      change (items (?a <| items ::= ?f |>)) with (f (items a)). cbv beta.
      change (items ((eventPrelude ev s) <| liveIndexRef := _ |>))
        with (items (eventPrelude ev s)).
      rewrite Hi. reflexivity.
Qed.

(** C9 (as the code has it).  The next live index never decreases along
    deliveries of history_chunk, snapshot and event messages.  An event
    that is kept is assigned [Math.max(0, Math.trunc(next))], which is the
    next live index itself when that is not negative: the entries it
    appends carry that index, and the counter is left at the assigned
    index plus one.  (A reasoning delta is merged into the reasoning entry
    that is open, which keeps its index, or appended as a new entry at the
    assigned index.)  A dropped event leaves the state alone.  A history
    response that ends at [end] moves the counter to [end + 1] when it is
    unset or not past [end], and leaves it alone otherwise, as does a
    response whose conversion throws.  The sums are sums of numbers: exact
    up to 2^53, rounded from there on. *)
Theorem C9_live_index_never_decreases :
  (forall (ds : list Delivery) (s : State),
      live_le (liveIndexRef s) (liveIndexRef (deliverAll ds s)))
  /\ (forall (rnd : string) (ev : json) (s : State),
        let i := assignedIndex s in
        (forall next, liveIndexRef s = Some next -> i = Z.max 0 next)
        /\ Forall (fun item => Item.index item = Some i) (eventEntries i ev)
        /\ exists s',
             handleEvent rnd ev s = Returned s'
             /\ if truthy ev && negb (duplicateEvent ev s)
                then liveIndexRef s' = Some (js_succ i)
                     /\ if isReasoning ev
                        then (exists n,
                                 (n <= 1)%nat
                                 /\ List.map Item.index (items s')
                                    = (List.map Item.index (items s)
                                         ++ List.repeat (Some i) n)%list)
                             /\ (extractReasoningText (prop "msg" ev) <> "" ->
                                 reasoningTarget s = None ->
                                 exists e,
                                   items s' = (items s ++ [e])%list
                                   /\ Item.index e = Some i
                                   /\ Item.text e
                                      = Some (extractReasoningText (prop "msg" ev)))
                        else items s' = (items s ++ eventEntries i ev)%list
                else s' = s)
  /\ (forall (message : Chunk.t) (s : State),
        match handleHistoryChunk message s with
        | Returned s' =>
            liveIndexRef s'
            = match Chunk.end_index message, liveIndexRef s with
              | Some e, None => Some (js_succ e)
              | Some e, Some next => if (next <=? e)%Z then Some (js_succ e) else Some next
              | None, live => live
              end
        | Threw s' => liveIndexRef s' = liveIndexRef s
        end)
  /\ (forall x : Z, (- MAX_EXACT <= x + 1 <= MAX_EXACT)%Z -> js_succ x = (x + 1)%Z).
Proof.
  split; [|split; [|split]].
  - intros ds. unfold deliverAll. induction ds as [|d ds IH]; intros s; cbn [fold_left].
    + apply live_le_refl.
    + eapply live_le_trans; [apply (deliver_liveIndex d s) | apply IH].
  - intros rnd ev s. cbv zeta. split; [|split].
    + intros next Hn. unfold assignedIndex, Math_trunc. rewrite Hn. reflexivity.
    + apply eventEntries_indices.
    + destruct (truthy ev) eqn:Hev; cbn [andb].
      * destruct (duplicateEvent ev s) eqn:Hdup; cbn [negb].
        -- exists s. split; [apply handleEvent_dropped; right; exact Hdup | reflexivity].
        -- destruct (handleEvent_assigns rnd ev s Hev Hdup) as (s' & He & Hl & Hi).
           exists s'. split; [exact He|]. split; [exact Hl | exact Hi].
      * exists s. split; [apply handleEvent_dropped; left; exact Hev | reflexivity].
  - intros message s. pose proof (handleHistoryChunk_liveIndex message s) as Hl.
    destruct (handleHistoryChunk message s) as [s'|s']; [|exact Hl].
    rewrite Hl. unfold advance.
    destruct (Chunk.end_index message); destruct (liveIndexRef s); reflexivity.
  - exact js_succ_exact.
Qed.

(** ** Keys in the item list: the steps *)

Lemma eventEntries_step (i : Z) (ev : json) (l : list Item.t) :
  delta_step (eventKeyFromPayload ev) l (l ++ eventEntries i ev).
Proof.
  assert (H : eventEntries i ev = []
              \/ exists e, eventEntries i ev = [e]
                           /\ Item.eventKey e = eventKeyFromPayload ev
                           /\ Item.origin e = Some event).
  { unfold eventEntries, parseEventEntry, parseReasoning. cbv zeta.
    cbn [entry_payload acc_items last_item List.map List.last].
    repeat (peel; cbv beta iota); rewrite ?pushUnique_empty;
      cbn [acc_items List.map];
      first [ left; reflexivity
            | right; eexists; split; [reflexivity | split; reflexivity] ]. }
  destruct H as [-> | (e & -> & Hk & Ho)].
  - rewrite List.app_nil_r. constructor.
  - apply delta_new; assumption.
Qed.

Lemma live_unique_snoc (K : gset string) (l : list Item.t) (e : Item.t) :
  live_unique l -> keys_in K l ->
  (forall k, Item.eventKey e = Some k -> k ∉ K) ->
  live_unique (l ++ [e]).
Proof.
  intros U Hk Hf. apply live_unique_app. split; [exact U|]. split.
  - cbn [live_unique]. split; [constructor | exact I].
  - intros a b Ha [<- | []] (k & Ea & Eb & _).
    unfold keys_in in Hk. rewrite List.Forall_forall in Hk.
    destruct (Hk a Ha k Ea) as [_ Hin]. exact (Hf k Eb Hin).
Qed.

(** A step on the list with a key that was not seen keeps the invariant,
    once the key is recorded. *)
Lemma delta_step_ok (K K' : gset string) (key : option string) (l l' : list Item.t) :
  K ⊆ K' ->
  (forall k, key = Some k -> k <> "" /\ (k ∉ K) /\ k ∈ K') ->
  live_unique l -> keys_in K l -> has_origin l ->
  delta_step key l l' ->
  live_unique l' /\ keys_in K' l' /\ has_origin l'.
Proof.
  intros HK Hf U Hk Ho Hstep.
  pose proof (keys_in_mono K K' l HK Hk) as Hk'.
  destruct Hstep as [|l1 l2 current delta El|e Ek Eo].
  - auto.
  - subst l. destruct (mergeDelta_fields delta key current) as [Mk Mo].
    unfold keys_in, has_origin in *.
    apply List.Forall_app in Hk' as [Hk1 Hk2]. apply List.Forall_app in Ho as [Ho1 Ho2].
    inversion Hk2 as [|? ? Hkc Hk2']; subst. inversion Ho2 as [|? ? Hoc Ho2']; subst.
    split; [|split].
    + apply (live_unique_replace l1 l2 current); [exact U|].
      intros x Hx (k & Ec & Ex & Hn). rewrite Mk in Ec.
      destruct (Item.eventKey current) as [kc|] eqn:Ekc.
      * exists k. split; [congruence|]. split; [exact Ex|].
        rewrite Mo in Hn. destruct (Item.origin current) as [o|] eqn:Eo.
        -- intros [H1 H2]. apply Hn. split; [congruence | exact H2].
        -- specialize (Hoc eq_refl). discriminate.
      * exfalso. destruct (Hf k Ec) as (_ & Hnot & _). apply Hnot.
        rewrite List.Forall_forall in Hk.
        assert (Hxl : In x (l1 ++ current :: l2)).
        { apply List.in_app_or in Hx as [Hx | Hx]; apply List.in_or_app;
            [left; exact Hx | right; right; exact Hx]. }
        destruct (Hk x Hxl k Ex) as [_ Hin]. exact Hin.
    + apply List.Forall_app. split; [exact Hk1|]. constructor; [|exact Hk2'].
      intros k Ec. rewrite Mk in Ec.
      destruct (Item.eventKey current) as [kc|] eqn:Ekc.
      * apply Hkc. congruence.
      * destruct (Hf k Ec) as (Hne & _ & Hin). split; assumption.
    + apply List.Forall_app. split; [exact Ho1|]. constructor; [|exact Ho2'].
      rewrite Mo. destruct (Item.origin current); discriminate.
  - split; [|split].
    + apply (live_unique_snoc K); [exact U | exact Hk|].
      intros k Ee. rewrite Ek in Ee. apply (Hf k Ee).
    + apply List.Forall_app. split; [exact Hk'|]. constructor; [|constructor].
      intros k Ee. rewrite Ek in Ee. destruct (Hf k Ee) as (Hne & _ & Hin). split; assumption.
    + apply List.Forall_app. split; [exact Ho|]. constructor; [|constructor].
      rewrite Eo. discriminate.
Qed.

Lemma handleEvent_keys_ok (rnd : string) (ev : json) (s : State) :
  keys_ok s -> exists s', handleEvent rnd ev s = Returned s' /\ keys_ok s'.
Proof.
  intros (U & Hk & Ho).
  destruct (truthy ev) eqn:Hev.
  2: { exists s. split; [apply handleEvent_dropped; auto | repeat split; assumption]. }
  destruct (duplicateEvent ev s) eqn:Hdup.
  { exists s. split; [apply handleEvent_dropped; auto | repeat split; assumption]. }
  set (K' := if truthy_str (eventKeyFromPayload ev)
             then {[ opt_str (eventKeyFromPayload ev) ]} ∪ seenEventRef s
             else seenEventRef s).
  assert (HK : seenEventRef s ⊆ K').
  { unfold K'. destruct (truthy_str _); [apply union_subseteq_r | reflexivity]. }
  assert (Hf : forall k, eventKeyFromPayload ev = Some k ->
                         k <> "" /\ (k ∉ seenEventRef s) /\ k ∈ K').
  { intros k E. pose proof (eventKey_nonempty ev k E) as Hne.
    unfold duplicateEvent in Hdup. unfold K'. rewrite E in *.
    rewrite (truthy_str_some k Hne) in *. cbn [andb opt_str default] in *.
    apply bool_decide_eq_false in Hdup.
    split; [exact Hne|]. split; [exact Hdup|].
    apply elem_of_union_l, elem_of_singleton. reflexivity. }
  assert (Hstep : exists s', handleEvent rnd ev s = Returned s'
                             /\ seenEventRef s' = K'
                             /\ delta_step (eventKeyFromPayload ev) (items s) (items s')).
  { destruct (isReasoning ev) eqn:Hr.
    - rewrite (handleEvent_fresh rnd ev s Hev Hdup). rewrite Hr.
      eexists. split; [reflexivity|].
      destruct (eventPrelude_frame ev s) as (_ & _ & Pi & _ & Ps & _).
      destruct (negb _).
      + match goal with
        | |- context [appendReasoningDelta ?r ?d ?i ?k ?st] =>
            destruct (appendReasoningDelta_frame r d i k st) as (_ & As & _);
            pose proof (appendReasoningDelta_items r d i k st) as Ai;
            assert (Ei : items st = items s) by exact Pi
        end.
        split; [rewrite As; exact Ps|]. rewrite Ei in Ai. exact Ai.
      + split; [exact Ps|].
        match goal with
        | |- delta_step _ _ (items ?st) =>
            assert (Ei : items st = items s) by exact Pi; rewrite Ei
        end.
        constructor.
    - destruct (handleEvent_appends rnd ev s Hev Hdup Hr) as (s' & E & Hi & _ & Hs).
      exists s'. split; [exact E|]. split; [exact Hs|].
      rewrite Hi. apply eventEntries_step. }
  destruct Hstep as (s' & E & Hs & Hstep). exists s'. split; [exact E|].
  unfold keys_ok. rewrite Hs.
  apply (delta_step_ok (seenEventRef s) K' (eventKeyFromPayload ev) (items s)); assumption.
Qed.

(** *** Deliveries *)

Lemma deliver_keys_ok (d : Delivery) (s : State) :
  converts d = true -> keys_ok s -> keys_ok (deliver d s).
Proof.
  intros Hc Hs.
  assert (Hchunk : forall message,
             forallb (fun line => negb (throws line)) (Chunk.items message) = true ->
             keys_ok (onHistoryHistoryChunk message s)).
  { intros message Hm. unfold onHistoryHistoryChunk.
    destruct (handleHistoryChunk_keys_ok message s Hm Hs) as (s' & -> & H). exact H. }
  assert (Hsnap : forall message (c : State -> bool),
             forallb (fun line => negb (throws line)) (Snapshot.rollout message) = true ->
             keys_ok
               match handleSnapshot message s with
               | Returned s' => if c s' then s' <| sessionLoading := false |> else s'
               | Threw s' => caught (Threw s')
               end).
  { intros message c Hm.
    destruct (handleSnapshot_keys_ok message s Hm) as (s' & -> & H).
    destruct (c s'); exact H. }
  destruct d as [from message | from closureId message | rnd ev]; cbn [deliver converts] in *.
  - destruct from; [|apply Hchunk; exact Hc|exact Hs].
    unfold onStreamHistoryChunk. destruct (negb _); [|exact Hs].
    apply (Hchunk message Hc).
  - destruct from; [| |exact Hs].
    + unfold onStreamSnapshot. destruct (negb _); [|exact Hs].
      exact (Hsnap message (fun s' => opt_string_eqb closureId (activeId s')) Hc).
    + unfold onHistorySnapshot.
      exact (Hsnap message
               (fun s' => opt_string_eqb (Some (opt_str closureId)) (activeId s')) Hc).
  - unfold onStreamEvent. destruct (handleEvent_keys_ok rnd ev s Hs) as (s' & -> & H).
    exact H.
Qed.

Lemma deliverAll_keys_ok (ds : list Delivery) :
  forall s : State,
    forallb converts ds = true -> keys_ok s -> keys_ok (deliverAll ds s).
Proof.
  unfold deliverAll.
  induction ds as [|d ds IH]; intros s Hc Hs; cbn [fold_left forallb] in *; [exact Hs|].
  apply andb_prop in Hc as [Hd Hds]. apply IH; [exact Hds|].
  apply deliver_keys_ok; assumption.
Qed.

(** C1 (as the code has it).  From an empty item list, after every sequence
    of history_chunk, snapshot and event deliveries in any interleaving,
    none of which carries a line whose conversion throws, two entries of
    the item list at distinct positions carry the same non-null eventKey
    only if both came from history: a live entry shares its key with no
    other entry. *)
Theorem C1_live_keys_unique (ds : list Delivery) (s : State) (i j : nat)
    (a b : Item.t) (k : string) :
  items s = [] ->
  forallb converts ds = true ->
  i <> j ->
  items (deliverAll ds s) !! i = Some a ->
  items (deliverAll ds s) !! j = Some b ->
  Item.eventKey a = Some k ->
  Item.eventKey b = Some k ->
  Item.origin a = Some history /\ Item.origin b = Some history.
Proof.
  intros Hempty Hc Hij Ha Hb Ka Kb.
  assert (Hs : keys_ok s).
  { unfold keys_ok. rewrite Hempty. repeat split; constructor. }
  destruct (deliverAll_keys_ok ds s Hc Hs) as (U & _ & _).
  pose proof (live_unique_lookup _ U i j a b Hij Ha Hb) as Hn.
  destruct (Item.origin a) as [[|]|] eqn:Oa; destruct (Item.origin b) as [[|]|] eqn:Ob;
    try (split; reflexivity);
    exfalso; apply Hn; exists k; (split; [exact Ka|]); (split; [exact Kb|]);
    intros [H1 H2]; congruence.
Qed.

(** ** The activity label *)

(** C5 (as the code has it).  From a reset activity state the event types
    task_started, exec_command_begin (twice), exec_command_end (twice),
    task_complete give the labels Thinking, Running command (four times) and
    then no label; the command counter is 1, 2, 1, 0 and reaches zero only
    after both end events.  After the second end event the task is still
    active, so [settleActivity] keeps the label "Running command": the label
    is cleared by task_complete, not by the last exec_command_end. *)
Theorem C5_activity_labels (s : State) :
  activityTrace
    ["task_started"; "exec_command_begin"; "exec_command_begin";
     "exec_command_end"; "exec_command_end"; "task_complete"]
    (resetActivity s)
  = [ (Some "Thinking", 0); (Some "Running command", 1);
      (Some "Running command", 2); (Some "Running command", 1);
      (Some "Running command", 0); (None, 0) ].
Proof. reflexivity. Qed.

(** While the task is active and nothing runs, [settleActivity] leaves the
    label alone, whatever it is. *)
Lemma settleActivity_keeps_label (s : State) :
  activeExecCountRef s = 0 -> activeToolCountRef s = 0 -> taskActiveRef s = true ->
  settleActivity s = s.
Proof.
  intros He Ht Ha. unfold settleActivity. rewrite He, Ht, Ha. reflexivity.
Qed.

(** The counters never go below zero. *)
Lemma updateActivity_counters_nonneg (t : string) (s : State) :
  0 <= activeExecCountRef s -> 0 <= activeToolCountRef s ->
  0 <= activeExecCountRef (updateActivityFromEvent t s)
  /\ 0 <= activeToolCountRef (updateActivityFromEvent t s).
Proof.
  destruct s; cbn. intros He Ht.
  unfold updateActivityFromEvent, noteActivity, settleActivity; cbn.
  peel_all; lia.
Qed.

(** ** The confirmation of a resume *)

(** C8 (as the code has it).  A conversation_resumed message that carries a
    requested id is ignored unless that id is the active id and, when a
    last requested id is recorded, also that one; when it is both, the
    pending resume is cleared, the runtime id recorded and the status
    becomes Streaming. *)
Theorem C8_resumed_requested_id (message : Resumed) (s : State) :
  truthy_str (requested_id message) = true ->
  (requested_id message = activeId s /\
   (truthy_str (lastRequestedSessionRef s) = true ->
    requested_id message = lastRequestedSessionRef s) ->
   pendingResumeRef (onConversationResumed message s) = None
   /\ status (onConversationResumed message s) = "Streaming"
   /\ error (onConversationResumed message s) = None
   /\ runtimeId (onConversationResumed message s)
      = (if truthy_str (resumed_conversation_id message)
         then resumed_conversation_id message else runtimeId s))
  /\ (requested_id message <> activeId s \/
      (truthy_str (lastRequestedSessionRef s) = true /\
       requested_id message <> lastRequestedSessionRef s) ->
      onConversationResumed message s = s).
Proof.
  intros Hreq. unfold onConversationResumed. rewrite Hreq. cbn [andb].
  assert (Heq : forall a b, opt_string_eqb a b = true <-> a = b).
  { intros [a|] [b|]; cbn; split; try congruence; try discriminate; auto.
    - intros H. apply String.eqb_eq in H. congruence.
    - intros H. injection H as ->. apply String.eqb_refl. }
  split.
  - intros [Ha Hl].
    replace (opt_string_eqb (requested_id message) (activeId s)) with true
      by (symmetry; apply Heq; exact Ha).
    cbn [negb].
    destruct (truthy_str (lastRequestedSessionRef s)) eqn:Hlast; cbn [andb].
    + replace (opt_string_eqb (requested_id message) (lastRequestedSessionRef s)) with true
        by (symmetry; apply Heq; auto).
      cbn [negb]. destruct (truthy_str (resumed_conversation_id message)); repeat split.
    + destruct (truthy_str (resumed_conversation_id message)); repeat split.
  - intros [Ha | [Hlast Hl]].
    + destruct (opt_string_eqb (requested_id message) (activeId s)) eqn:E.
      * apply Heq in E. contradiction.
      * reflexivity.
    + destruct (opt_string_eqb (requested_id message) (activeId s)); cbn [negb]; [|reflexivity].
      rewrite Hlast. cbn [andb].
      destruct (opt_string_eqb (requested_id message) (lastRequestedSessionRef s)) eqn:E.
      * apply Heq in E. contradiction.
      * reflexivity.
Qed.

(** A message without a requested id is accepted whatever the active id. *)
Lemma resumed_without_requested_id (message : Resumed) (s : State) :
  truthy_str (requested_id message) = false ->
  pendingResumeRef (onConversationResumed message s) = None
  /\ status (onConversationResumed message s) = "Streaming".
Proof.
  intros H. unfold onConversationResumed. rewrite H. cbn [andb].
  rewrite andb_false_r. cbn [andb].
  destruct (truthy_str (resumed_conversation_id message)); split; reflexivity.
Qed.

(** The last requested id is the active id once a session was activated. *)
Lemma activateSession_lastRequested (id : option string) (s : State) :
  lastRequestedSessionRef s = activeId s ->
  lastRequestedSessionRef (activateSession id s) = activeId (activateSession id s).
Proof.
  destruct s; cbn. intros H.
  unfold activateSession, requestSessions, schedulePrimeHistory, scheduleResume,
    setHistoryWsModeForSession, closeHistorySocket, cancelPrimeFill; cbn.
  peel_all; congruence.
Qed.

(** * Further properties *)

(** ** Events with a key *)

Lemma keyed_is_truthy (ev : json) (k : string) :
  eventKeyFromPayload ev = Some k -> truthy ev = true.
Proof.
  unfold eventKeyFromPayload. destruct (truthy ev); [reflexivity | discriminate].
Qed.

Lemma handleEvent_records_key (rnd : string) (ev : json) (s : State) :
  truthy ev = true ->
  duplicateEvent ev s = false ->
  exists s',
    handleEvent rnd ev s = Returned s'
    /\ seenEventRef s'
       = (if truthy_str (eventKeyFromPayload ev)
          then {[ opt_str (eventKeyFromPayload ev) ]} ∪ seenEventRef s
          else seenEventRef s)
    /\ delta_step (eventKeyFromPayload ev) (items s) (items s').
Proof.
  intros Hev Hdup. destruct (isReasoning ev) eqn:Hr.
  - rewrite (handleEvent_fresh rnd ev s Hev Hdup). rewrite Hr.
    eexists. split; [reflexivity|].
    destruct (eventPrelude_frame ev s) as (_ & _ & Pi & _ & Ps & _).
    destruct (negb _).
    + match goal with
      | |- context [appendReasoningDelta ?r ?d ?i ?k ?st] =>
          destruct (appendReasoningDelta_frame r d i k st) as (_ & As & _);
          pose proof (appendReasoningDelta_items r d i k st) as Ai;
          assert (Ei : items st = items s) by exact Pi
      end.
      split; [rewrite As; exact Ps|]. rewrite Ei in Ai. exact Ai.
    + split; [exact Ps|].
      match goal with
      | |- delta_step _ _ (items ?st) =>
          assert (Ei : items st = items s) by exact Pi; rewrite Ei
      end.
      constructor.
  - destruct (handleEvent_appends rnd ev s Hev Hdup Hr) as (s' & E & Hi & _ & Hs).
    exists s'. split; [exact E|]. split; [exact Hs|].
    rewrite Hi. apply eventEntries_step.
Qed.

(** X1.  An event that carries a key is applied once: delivered again
    right after (whatever random suffix is drawn), it leaves the whole
    state as the first delivery left it, and its key is among the seen
    keys. *)
Theorem keyed_event_twice (rnd1 rnd2 : string) (ev : json) (k : string) (s : State) :
  eventKeyFromPayload ev = Some k ->
  deliver (DeliverEvent rnd2 ev) (deliver (DeliverEvent rnd1 ev) s)
  = deliver (DeliverEvent rnd1 ev) s
  /\ k ∈ seenEventRef (deliver (DeliverEvent rnd1 ev) s).
Proof.
  intros Hk. cbn [deliver]. unfold onStreamEvent.
  pose proof (keyed_is_truthy ev k Hk) as Hev.
  pose proof (eventKey_nonempty ev k Hk) as Hne.
  assert (Hseen : forall st, k ∈ seenEventRef st -> duplicateEvent ev st = true).
  { intros st Hin. unfold duplicateEvent. rewrite Hk, (truthy_str_some k Hne).
    cbn [andb opt_str default]. apply bool_decide_eq_true_2. exact Hin. }
  assert (Hfirst : exists s1, handleEvent rnd1 ev s = Returned s1 /\ k ∈ seenEventRef s1).
  { destruct (duplicateEvent ev s) eqn:Hdup.
    - exists s. split; [apply handleEvent_dropped; auto|].
      unfold duplicateEvent in Hdup. rewrite Hk, (truthy_str_some k Hne) in Hdup.
      cbn [andb opt_str default] in Hdup. apply bool_decide_eq_true in Hdup. exact Hdup.
    - destruct (handleEvent_records_key rnd1 ev s Hev Hdup) as (s1 & E & Hs & _).
      exists s1. split; [exact E|]. rewrite Hs, Hk, (truthy_str_some k Hne).
      apply elem_of_union_l, elem_of_singleton. reflexivity. }
  destruct Hfirst as (s1 & -> & Hin). cbn [caught].
  rewrite (handleEvent_dropped rnd2 ev s1) by (right; apply Hseen; exact Hin).
  split; [reflexivity | exact Hin].
Qed.

(** ** What a response records *)

Lemma indexAfter_spec (lines : list Line.t) :
  forall X : gset Z, indexAfter lines X = X ∪ list_to_set (omap Line.index lines).
Proof.
  induction lines as [|line rest IH]; intros X; cbn [indexAfter omap list_omap].
  - cbn [list_to_set]. rewrite (right_id_L ∅ (∪)). reflexivity.
  - unfold lineSeen, markIndex. destruct (Line.index line) as [i|]; cbn [list_to_set].
    + destruct (bool_decide (i ∈ X)) eqn:Hi; rewrite IH; apply set_eq; intros x;
        rewrite !elem_of_union, ?elem_of_singleton; [|tauto].
      apply bool_decide_eq_true in Hi. split; [tauto|].
      intros [H | [-> | H]]; tauto.
    + rewrite IH. reflexivity.
Qed.

Lemma keysAfter_seen (lines : list Line.t) (X : gset Z) (Y : gset string) :
  Forall (fun line => lineSeen X line = true) lines -> keysAfter lines X Y = Y.
Proof.
  induction 1 as [|line rest Hs _ IH]; cbn [keysAfter]; [reflexivity|].
  rewrite Hs. exact IH.
Qed.

Lemma indexed_lines_seen (lines : list Line.t) (X : gset Z) :
  Forall (fun line => Line.index line <> None) lines ->
  Forall (fun line => lineSeen (indexAfter lines X) line = true) lines.
Proof.
  intros H. rewrite List.Forall_forall in *. intros line Hin.
  specialize (H line Hin). unfold lineSeen.
  destruct (Line.index line) as [i|] eqn:Ei; [|contradiction].
  apply bool_decide_eq_true_2. rewrite indexAfter_spec. apply elem_of_union_r.
  apply elem_of_list_to_set, list_elem_of_omap. exists line.
  split; [apply list_elem_of_In; exact Hin | exact Ei].
Qed.

(** X2.  Whatever a history response does to the item list, the index of
    each of its lines is recorded as seen: the lines kept, the lines
    superseded, and all of them when the conversion throws.  An anchored
    response starts from the empty set, a page from the set as it was. *)
Theorem response_records_indices (message : Chunk.t) (s : State) :
  match handleHistoryChunk message s with
  | Returned s' | Threw s' =>
      seenLineIndexRef s'
      = (if is_anchor message then ∅ else seenLineIndexRef s)
          ∪ list_to_set (omap Line.index (Chunk.items message))
  end.
Proof.
  assert (H : forall X Y h,
             seenLineIndexRef
               (recordRange message (mergeHistory message h (registered s X Y))) = X).
  { intros X Y h.
    destruct (recordRange_frame message (mergeHistory message h (registered s X Y)))
      as (_ & _ & _ & _ & _ & -> & _).
    destruct (mergeHistory_frame message h (registered s X Y)) as (_ & _ & -> & _).
    reflexivity. }
  destruct (is_anchor message) eqn:Ha.
  - rewrite (handleHistoryChunk_anchor message s Ha).
    destruct (anchorItems message) as [h|].
    + rewrite H. apply indexAfter_spec.
    + cbn. apply indexAfter_spec.
  - rewrite (handleHistoryChunk_paged message s Ha). cbv zeta.
    destruct (parseHistoryItems _) as [parsed|].
    + rewrite H. apply indexAfter_spec.
    + cbn. apply indexAfter_spec.
Qed.

(** ** A page delivered twice *)

Lemma survivors_nil (l : list Item.t) : survivors [] l = l.
Proof. unfold survivors. cbn. rewrite orb_true_r. reflexivity. Qed.

(** A page all of whose lines are seen adds nothing. *)
Lemma handleHistoryChunk_seen (message : Chunk.t) (s : State) :
  is_anchor message = false ->
  Forall (fun line => lineSeen (seenLineIndexRef s) line = true) (Chunk.items message) ->
  exists s',
    handleHistoryChunk message s = Returned s'
    /\ items s' = items s
    /\ seenLineIndexRef s' = seenLineIndexRef s
    /\ seenEventRef s' = seenEventRef s
    /\ historyWsRef s' = historyWsRef s.
Proof.
  intros Ha Hseen. rewrite (handleHistoryChunk_paged message s Ha). cbv zeta.
  destruct (freshOf_seen (Chunk.items message)
              (hasAssistantResponseItem (Chunk.items message)) (seenLineIndexRef s) Hseen)
    as (-> & ->).
  rewrite (keysAfter_seen _ _ (seenEventRef s) Hseen).
  change (parseHistoryItems []) with (Some ([] : list Item.t)). cbn [List.map].
  eexists. split; [reflexivity|].
  remember (registered s (seenLineIndexRef s) (seenEventRef s)) as reg eqn:Ereg.
  destruct (recordRange_frame message (mergeHistory message [] reg))
    as (-> & -> & _ & _ & -> & -> & _).
  destruct (mergeHistory_frame message [] reg) as (_ & -> & -> & -> & _).
  assert (Hi : items (mergeHistory message [] reg) = items reg).
  { destruct (mergeHistory_paged_items message [] reg Ha) as [(l1 & l2 & -> & E) | ->];
      [|reflexivity].
    rewrite survivors_nil in E. rewrite E. reflexivity. }
  rewrite Hi, Ereg. repeat split.
Qed.

(** X3.  A page of history (a response that is not anchored) all of whose
    lines carry an index is applied once: delivered again on the same
    socket, it leaves the item list and the two sets of seen indices and
    keys as the first delivery left them. *)
Theorem paged_response_twice (from : Channel) (message : Chunk.t) (s : State) :
  is_anchor message = false ->
  Forall (fun line => Line.index line <> None) (Chunk.items message) ->
  let once := deliver (DeliverChunk from message) s in
  let twice := deliver (DeliverChunk from message) once in
  items twice = items once
  /\ seenLineIndexRef twice = seenLineIndexRef once
  /\ seenEventRef twice = seenEventRef once.
Proof.
  intros Ha Hidx. cbv zeta.
  assert (Hfirst : forall st,
             match handleHistoryChunk message st with
             | Returned s' | Threw s' =>
                 Forall (fun line => lineSeen (seenLineIndexRef s') line = true)
                   (Chunk.items message)
                 /\ historyWsRef s' = historyWsRef st
             end).
  { intros st. pose proof (response_records_indices message st) as Hrec.
    destruct (handleHistoryChunk_cases message st) as (X & Y & [E | (h & E)]);
      rewrite E in *; rewrite Ha in Hrec.
    - split; [|reflexivity]. rewrite Hrec, <- indexAfter_spec.
      apply indexed_lines_seen. exact Hidx.
    - split.
      + rewrite Hrec, <- indexAfter_spec. apply indexed_lines_seen. exact Hidx.
      + destruct (recordRange_frame message (mergeHistory message h (registered st X Y)))
          as (_ & -> & _).
        destruct (mergeHistory_frame message h (registered st X Y)) as (_ & _ & _ & -> & _).
        reflexivity. }
  assert (Hagain : forall st,
             Forall (fun line => lineSeen (seenLineIndexRef st) line = true)
               (Chunk.items message) ->
             items (onHistoryHistoryChunk message st) = items st
             /\ seenLineIndexRef (onHistoryHistoryChunk message st) = seenLineIndexRef st
             /\ seenEventRef (onHistoryHistoryChunk message st) = seenEventRef st).
  { intros st Hseen. unfold onHistoryHistoryChunk.
    destruct (handleHistoryChunk_seen message st Ha Hseen) as (s' & -> & Hi & Hx & Hy & _).
    repeat split; assumption. }
  assert (Hhist : items (onHistoryHistoryChunk message (onHistoryHistoryChunk message s))
                  = items (onHistoryHistoryChunk message s)
                  /\ seenLineIndexRef
                       (onHistoryHistoryChunk message (onHistoryHistoryChunk message s))
                     = seenLineIndexRef (onHistoryHistoryChunk message s)
                  /\ seenEventRef
                       (onHistoryHistoryChunk message (onHistoryHistoryChunk message s))
                     = seenEventRef (onHistoryHistoryChunk message s)).
  { apply Hagain. unfold onHistoryHistoryChunk. specialize (Hfirst s).
    destruct (handleHistoryChunk message s) as [s'|s']; destruct Hfirst as [Hf _]; exact Hf. }
  destruct from; cbn [deliver].
  - destruct (negb (is_open (historyWsRef s))) eqn:Hopen.
    + assert (Hw : historyWsRef (onHistoryHistoryChunk message s) = historyWsRef s).
      { unfold onHistoryHistoryChunk. specialize (Hfirst s).
        destruct (handleHistoryChunk message s) as [s'|s']; destruct Hfirst as [_ Hf];
          exact Hf. }
      assert (E1 : onStreamHistoryChunk message s = onHistoryHistoryChunk message s)
        by (unfold onStreamHistoryChunk; rewrite Hopen; reflexivity).
      rewrite E1.
      assert (E2 : onStreamHistoryChunk message (onHistoryHistoryChunk message s)
                   = onHistoryHistoryChunk message (onHistoryHistoryChunk message s))
        by (unfold onStreamHistoryChunk at 1; rewrite Hw, Hopen; reflexivity).
      rewrite E2. exact Hhist.
    + assert (E1 : onStreamHistoryChunk message s = s)
        by (unfold onStreamHistoryChunk; rewrite Hopen; reflexivity).
      rewrite !E1. repeat split.
  - exact Hhist.
  - repeat split.
Qed.

(** ** History before live entries *)

Lemma history_first_cons (a : Item.t) (l : list Item.t) :
  history_first (a :: l)
  = if is_history a then history_first l
    else forallb (fun item => negb (is_history item)) (a :: l).
Proof.
  unfold history_first, is_history. cbn [findLiveStart].
  destruct (is_origin (Item.origin a) history); cbn [negb]; [|reflexivity].
  destruct (findLiveStart l); reflexivity.
Qed.

Lemma history_first_app (h e : list Item.t) :
  Forall (fun item => is_history item = true) h ->
  forallb (fun item => negb (is_history item)) e = true ->
  history_first (h ++ e) = true.
Proof.
  intros Hh He. induction Hh as [|a h Ha _ IH]; cbn [app].
  - destruct e as [|x e]; [reflexivity|]. rewrite history_first_cons.
    cbn [forallb] in He. apply andb_prop in He as [Hx He'].
    apply negb_true_iff in Hx. rewrite Hx. cbn [forallb]. rewrite Hx, He'. reflexivity.
  - rewrite history_first_cons, Ha. exact IH.
Qed.

Lemma history_first_split (l : list Item.t) :
  history_first l = true ->
  exists h e,
    l = (h ++ e)%list
    /\ Forall (fun item => is_history item = true) h
    /\ forallb (fun item => negb (is_history item)) e = true.
Proof.
  induction l as [|a l IH]; intros H.
  - exists [], []. repeat split. constructor.
  - rewrite history_first_cons in H. destruct (is_history a) eqn:Ha.
    + destruct (IH H) as (h & e & -> & Hh & He). exists (a :: h), e.
      split; [reflexivity|]. split; [constructor; assumption | exact He].
    + exists [], (a :: l). split; [reflexivity|]. split; [constructor | exact H].
Qed.

Lemma history_first_history (l : list Item.t) :
  Forall (fun item => Item.origin item = Some history) l -> history_first l = true.
Proof.
  intros H. rewrite <- (List.app_nil_r l). apply history_first_app; [|reflexivity].
  eapply List.Forall_impl; [|exact H]. intros a Ha. unfold is_history. rewrite Ha. reflexivity.
Qed.

Lemma findLiveStart_prefix (l : list Item.t) :
  match findLiveStart l with
  | Some n => Forall (fun item => is_history item = true) (firstn n l)
  | None => Forall (fun item => is_history item = true) l
  end.
Proof.
  induction l as [|a l IH]; cbn [findLiveStart]; [constructor|].
  destruct (is_origin (Item.origin a) history) eqn:Ha; cbn [negb]; [|constructor].
  destruct (findLiveStart l) as [n|]; cbn [option_map firstn]; constructor; assumption.
Qed.

Lemma history_first_filter (f : Item.t -> bool) (l : list Item.t) :
  history_first l = true -> history_first (List.filter f l) = true.
Proof.
  intros H. destruct (history_first_split l H) as (h & e & -> & Hh & He).
  rewrite List.filter_app. apply history_first_app.
  - rewrite List.Forall_forall in *. intros x Hx. apply Hh.
    apply List.filter_In in Hx. tauto.
  - rewrite List.forallb_forall in *. intros x Hx. apply He.
    apply List.filter_In in Hx. tauto.
Qed.

Lemma history_first_survivors (h l : list Item.t) :
  history_first l = true -> history_first (survivors h l) = true.
Proof.
  unfold survivors. destruct (_ || _); [tauto | apply history_first_filter].
Qed.

Lemma mergeHistory_after_items (message : Chunk.t) (h : list Item.t) (s : State) (after : Z) :
  is_anchor message = false ->
  Chunk.before message = None ->
  Chunk.after message = Some after ->
  items (mergeHistory message h s)
  = match findLiveStart (survivors h (items s)) with
    | None => (survivors h (items s) ++ h)%list
    | Some liveStart =>
        (firstn liveStart (survivors h (items s)) ++ h
           ++ skipn liveStart (survivors h (items s)))%list
    end.
Proof.
  unfold is_anchor. intros Ha Hb Hf. apply orb_false_elim in Ha as [Hh Ht].
  unfold mergeHistory. rewrite Hh, Ht, Hb, Hf.
  change (items (?a <| items := ?v |> <| historyMode := _ |> <| hasMoreAfter := _ |>))
    with v.
  rewrite dropEventDuplicates_items. reflexivity.
Qed.

(** A page of history keeps the order, wherever it is put. *)
Lemma history_first_merged (message : Chunk.t) (h : list Item.t) (s : State) :
  is_anchor message = false ->
  Forall (fun item => Item.origin item = Some history) h ->
  history_first (items s) = true ->
  history_first (items (mergeHistory message h s)) = true.
Proof.
  intros Ha Hh Hs.
  assert (Hh' : Forall (fun item => is_history item = true) h).
  { eapply List.Forall_impl; [|exact Hh]. intros a E. unfold is_history. rewrite E.
    reflexivity. }
  pose proof (history_first_survivors h (items s) Hs) as Hsurv.
  destruct (Chunk.before message) as [before|] eqn:Hb.
  - rewrite (mergeHistory_before message h s before Ha Hb).
    destruct (history_first_split _ Hsurv) as (h1 & e1 & -> & H1 & E1).
    rewrite List.app_assoc. apply history_first_app; [|exact E1].
    apply List.Forall_app. split; assumption.
  - destruct (Chunk.after message) as [after|] eqn:Hf.
    + rewrite (mergeHistory_after_items message h s after Ha Hb Hf).
      pose proof (findLiveStart_prefix (survivors h (items s))) as Hp.
      unfold history_first in Hsurv.
      destruct (findLiveStart (survivors h (items s))) as [n|].
      * rewrite List.app_assoc. apply history_first_app; [|exact Hsurv].
        apply List.Forall_app. split; assumption.
      * rewrite <- (List.app_nil_r (_ ++ h)). apply history_first_app; [|reflexivity].
        apply List.Forall_app. split; assumption.
    + unfold is_anchor in Ha. apply orb_false_elim in Ha as [Ha1 Ha2].
      unfold mergeHistory. rewrite Ha1, Ha2, Hb, Hf. exact Hs.
Qed.

Lemma asHistory_all (parsed : list Item.t) :
  Forall (fun item => Item.origin item = Some history) (List.map asHistory parsed).
Proof. apply List.Forall_map. apply List.Forall_forall. reflexivity. Qed.

Lemma handleHistoryChunk_history_first (message : Chunk.t) (s : State) :
  history_first (items s) = true ->
  match handleHistoryChunk message s with
  | Returned s' | Threw s' => history_first (items s') = true
  end.
Proof.
  intros Hs. destruct (is_anchor message) eqn:Ha.
  - rewrite (handleHistoryChunk_anchor message s Ha). unfold anchorItems.
    destruct (parseHistoryItems _) as [parsed|]; cbn [option_map]; [|exact Hs].
    match goal with
    | |- history_first (items (recordRange _ (mergeHistory _ ?h ?r))) = true =>
        destruct (recordRange_frame message (mergeHistory message h r)) as (-> & _);
        rewrite (mergeHistory_anchor_items message h r Ha)
    end.
    apply history_first_history, asHistory_all.
  - rewrite (handleHistoryChunk_paged message s Ha). cbv zeta.
    destruct (parseHistoryItems _) as [parsed|]; [|exact Hs].
    match goal with
    | |- history_first (items (recordRange _ (mergeHistory _ ?h ?r))) = true =>
        destruct (recordRange_frame message (mergeHistory message h r)) as (-> & _);
        apply (history_first_merged message h r Ha); [apply asHistory_all | exact Hs]
    end.
Qed.

Lemma history_first_delta (key : option string) (l l' : list Item.t) :
  delta_step key l l' -> history_first l = true -> history_first l' = true.
Proof.
  intros Hstep H. destruct Hstep as [|l1 l2 current delta El|e Ek Eo].
  - exact H.
  - subst l. revert H. generalize (List.app_nil_l l1).
    assert (Hc : is_history (mergeDelta delta key current) = is_history current).
    { unfold is_history. destruct (mergeDelta_fields delta key current) as [_ ->].
      destruct (Item.origin current) as [[|]|]; reflexivity. }
    intros _. induction l1 as [|a l1 IH]; cbn [app]; rewrite !history_first_cons.
    + rewrite Hc. cbn [forallb]. rewrite Hc. tauto.
    + destruct (is_history a); [exact IH|].
      cbn [forallb]. rewrite !List.forallb_app. cbn [forallb]. rewrite Hc. tauto.
  - destruct (history_first_split l H) as (h & e0 & -> & Hh & He).
    rewrite <- List.app_assoc. apply history_first_app; [exact Hh|].
    rewrite List.forallb_app, He. cbn [forallb]. unfold is_history. rewrite Eo. reflexivity.
Qed.

Lemma handleEvent_step (rnd : string) (ev : json) (s : State) :
  exists s',
    handleEvent rnd ev s = Returned s'
    /\ delta_step (eventKeyFromPayload ev) (items s) (items s').
Proof.
  destruct (truthy ev) eqn:Hev.
  2: { exists s. split; [apply handleEvent_dropped; auto | constructor]. }
  destruct (duplicateEvent ev s) eqn:Hdup.
  { exists s. split; [apply handleEvent_dropped; auto | constructor]. }
  destruct (handleEvent_records_key rnd ev s Hev Hdup) as (s' & E & _ & Hstep).
  exists s'. split; assumption.
Qed.

Lemma deliver_history_first (d : Delivery) (s : State) :
  history_first (items s) = true -> history_first (items (deliver d s)) = true.
Proof.
  intros Hs.
  assert (Hchunk : forall message,
             history_first (items (onHistoryHistoryChunk message s)) = true).
  { intros message. unfold onHistoryHistoryChunk.
    pose proof (handleHistoryChunk_history_first message s Hs) as H.
    destruct (handleHistoryChunk message s) as [s'|s']; exact H. }
  assert (Hsnap : forall message (c : State -> bool),
             history_first
               (items
                  match handleSnapshot message s with
                  | Returned s' => if c s' then s' <| sessionLoading := false |> else s'
                  | Threw s' => caught (Threw s')
                  end) = true).
  { intros message c. pose proof (handleSnapshot_cases message s) as H.
    destruct (handleSnapshot message s) as [s'|s'].
    - destruct H as (_ & _ & _ & _ & parsed & _ & Hi).
      assert (Hh : history_first (items s') = true)
        by (rewrite Hi; apply history_first_history, asHistory_all).
      destruct (c s'); exact Hh.
    - destruct H as (_ & Hi & _).
      change (items (caught (Threw s'))) with (items s'). rewrite Hi. exact Hs. }
  destruct d as [from message | from closureId message | rnd ev]; cbn [deliver].
  - destruct from; [|apply Hchunk|exact Hs].
    unfold onStreamHistoryChunk. destruct (negb _); [apply (Hchunk message)|exact Hs].
  - destruct from; [| |exact Hs].
    + unfold onStreamSnapshot. destruct (negb _); [|exact Hs].
      exact (Hsnap message (fun s' => opt_string_eqb closureId (activeId s'))).
    + unfold onHistorySnapshot.
      exact (Hsnap message
               (fun s' => opt_string_eqb (Some (opt_str closureId)) (activeId s'))).
  - unfold onStreamEvent. destruct (handleEvent_step rnd ev s) as (s' & -> & Hstep).
    cbn [caught]. exact (history_first_delta _ _ _ Hstep Hs).
Qed.

(** X4.  In the item list, the entries that came from history stay before
    all the others, along every sequence of history_chunk, snapshot and
    event deliveries (also those whose conversion throws): a page is put
    before the first live entry, a live entry at the end. *)
Theorem history_before_live (ds : list Delivery) (s : State) :
  history_first (items s) = true ->
  history_first (items (deliverAll ds s)) = true.
Proof.
  unfold deliverAll. revert s.
  induction ds as [|d ds IH]; intros s Hs; cbn [fold_left]; [exact Hs|].
  apply IH. apply deliver_history_first. exact Hs.
Qed.

(** ** The counters of the activity machine *)

Lemma updateActivity_counters_step (t : string) (s : State) :
  0 <= activeExecCountRef s -> 0 <= activeToolCountRef s ->
  0 <= activeExecCountRef (updateActivityFromEvent t s)
       <= activeExecCountRef s + execBegins [t]
  /\ 0 <= activeToolCountRef (updateActivityFromEvent t s)
          <= activeToolCountRef s + toolBegins [t].
Proof.
  destruct s; cbn. intros He Ht.
  unfold updateActivityFromEvent, noteActivity, settleActivity, execBegins, toolBegins;
    cbn.
  peel_all; cbn; lia.
Qed.

Lemma begins_cons (t : string) (l : list string) :
  execBegins (t :: l) = execBegins [t] + execBegins l
  /\ toolBegins (t :: l) = toolBegins [t] + toolBegins l.
Proof.
  unfold execBegins, toolBegins. cbn [List.filter].
  split; [destruct (String.eqb t _) | destruct (one_of t _)];
    cbn [List.length]; lia.
Qed.

(** X5.  Along every run of event types, from counters that are not
    negative, the counters of running commands and of running tools are
    never negative, and never above what they were plus the number of
    begin events of their kind in the run: an end event without a begin
    leaves a counter at zero. *)
Theorem activity_counters_bounded (msgTypes : list string) (s : State) :
  0 <= activeExecCountRef s -> 0 <= activeToolCountRef s ->
  0 <= activeExecCountRef (feedActivity msgTypes s)
       <= activeExecCountRef s + execBegins msgTypes
  /\ 0 <= activeToolCountRef (feedActivity msgTypes s)
          <= activeToolCountRef s + toolBegins msgTypes.
Proof.
  unfold feedActivity. revert s.
  induction msgTypes as [|t l IH]; intros s He Ht; cbn [fold_left].
  - unfold execBegins, toolBegins. cbn. lia.
  - destruct (updateActivity_counters_step t s He Ht) as (H1 & H2).
    destruct (IH (updateActivityFromEvent t s)) as (H3 & H4); [lia | lia |].
    destruct (begins_cons t l) as (-> & ->). lia.
Qed.

Lemma exec_begin_count (s : State) :
  activeExecCountRef (updateActivityFromEvent "exec_command_begin" s)
  = activeExecCountRef s + 1.
Proof. destruct s; reflexivity. Qed.

Lemma exec_end_count (s : State) :
  activeExecCountRef (updateActivityFromEvent "exec_command_end" s)
  = Z.max 0 (activeExecCountRef s - 1).
Proof.
  destruct s; unfold updateActivityFromEvent, settleActivity; cbn. peel_all; reflexivity.
Qed.

Lemma feedActivity_app (l1 l2 : list string) (s : State) :
  feedActivity (l1 ++ l2) s = feedActivity l2 (feedActivity l1 s).
Proof. unfold feedActivity. apply List.fold_left_app. Qed.

(** X6.  [n] commands begun and then [m] commands ended leave the counter
    of running commands at what it was plus [n - m], and at zero when more
    ended than ran: as many ends as begins bring it back. *)
Theorem exec_commands_balance (n m : nat) (s : State) :
  0 <= activeExecCountRef s ->
  activeExecCountRef
    (feedActivity (List.repeat "exec_command_begin" n ++ List.repeat "exec_command_end" m) s)
  = Z.max 0 (activeExecCountRef s + Z.of_nat n - Z.of_nat m).
Proof.
  intros Hs. rewrite feedActivity_app.
  assert (Hb : forall st, activeExecCountRef
                            (feedActivity (List.repeat "exec_command_begin" n) st)
                          = activeExecCountRef st + Z.of_nat n).
  { induction n as [|n IH]; intros st; [cbn; lia|].
    cbn [List.repeat]. unfold feedActivity in *. cbn [fold_left].
    rewrite IH, exec_begin_count. lia. }
  assert (He : forall st, 0 <= activeExecCountRef st ->
                          activeExecCountRef
                            (feedActivity (List.repeat "exec_command_end" m) st)
                          = Z.max 0 (activeExecCountRef st - Z.of_nat m)).
  { induction m as [|m IH]; intros st Hst; [cbn; lia|].
    cbn [List.repeat]. unfold feedActivity in *. cbn [fold_left].
    rewrite IH by (rewrite exec_end_count; lia). rewrite exec_end_count. lia. }
  rewrite He by (rewrite Hb; lia). rewrite Hb. lia.
Qed.

(** ** The queue of history requests *)

Lemma send_fold (ws : Channel) (queued : list Req.t) :
  forall st : State,
    fold_left (fun st request => send ws (buildHistoryPayload request st) st) queued st
    = st <| outbox ::= (fun o =>
                          (o ++ List.map (fun request =>
                                            (ws, buildHistoryPayload request st)) queued)%list) |>.
Proof.
  induction queued as [|request rest IH]; intros st; cbn [fold_left List.map].
  - destruct st; cbn. rewrite List.app_nil_r. reflexivity.
  - rewrite IH. destruct st; unfold send, buildHistoryPayload; cbn.
    rewrite <- List.app_assoc. reflexivity.
Qed.

(** X7.  [flushPendingHistoryRequests] sends the whole queue, in the order
    the requests were queued, over the one socket it picks, and empties the
    queue; with no socket open it leaves the state as it is: nothing is
    sent, nothing is dropped. *)
Theorem flush_in_order (s : State) :
  match activeWs s with
  | Some ws =>
      outbox (flushPendingHistoryRequests s)
      = (outbox s
           ++ List.map (fun request => (ws, buildHistoryPayload request s))
                (pendingHistoryRequests s))%list
      /\ pendingHistoryRequests (flushPendingHistoryRequests s) = []
  | None => flushPendingHistoryRequests s = s
  end.
Proof.
  unfold flushPendingHistoryRequests.
  destruct (activeWs s) as [ws|]; [|destruct (Nat.eqb _ 0); reflexivity].
  destruct (Nat.eqb (List.length (pendingHistoryRequests s)) 0) eqn:Hq.
  - apply Nat.eqb_eq in Hq. apply List.length_zero_iff_nil in Hq. rewrite Hq.
    cbn [List.map]. rewrite List.app_nil_r. split; reflexivity.
  - rewrite send_fold. destruct s; unfold buildHistoryPayload; cbn. split; reflexivity.
Qed.

Lemma sendHistoryRequest_no_socket (request : Req.t) (s : State) :
  is_open (historyWsRef s) = false ->
  is_open (wsRef s) = false ->
  sendHistoryRequest request s = enqueueHistoryRequest request s.
Proof.
  intros Hh Hw. unfold sendHistoryRequest. rewrite Hh, Hw.
  destruct (historyWsModeRef s); reflexivity.
Qed.

Lemma sendHistoryRequest_stream (request : Req.t) (s : State) :
  is_open (historyWsRef s) = false ->
  is_open (wsRef s) = true ->
  sendHistoryRequest request s = send StreamWs (buildHistoryPayload request s) s.
Proof.
  intros Hh Hw. unfold sendHistoryRequest. rewrite Hh, Hw.
  destruct (historyWsModeRef s); reflexivity.
Qed.

(** X8.  A history request made while no socket is open is not lost: it is
    queued, and when the stream socket opens it is sent over it, unchanged,
    after the requests queued before it and before the request the opening
    itself makes; the queue is then empty. *)
Theorem queued_request_sent_on_open (request : Req.t) (s : State) :
  is_open (historyWsRef s) = false ->
  is_open (wsRef s) = false ->
  let s' := streamOnOpen (sendHistoryRequest request s) in
  outbox (sendHistoryRequest request s) = outbox s
  /\ pendingHistoryRequests s' = []
  /\ exists opening,
       outbox s'
       = (outbox s
            ++ List.map (fun queued => (StreamWs, buildHistoryPayload queued s))
                 (pendingHistoryRequests s ++ [request])
            ++ opening)%list
       /\ (List.length opening <= 1)%nat
       /\ Forall (fun p => fst p = StreamWs) opening.
Proof.
  intros Hh Hw. cbv zeta. rewrite (sendHistoryRequest_no_socket request s Hh Hw).
  split; [reflexivity|].
  unfold streamOnOpen. cbv zeta.
  remember (if sessionLoading ((enqueueHistoryRequest request s) <| wsRef := Some OPEN |>)
            then (enqueueHistoryRequest request s) <| wsRef := Some OPEN |>
                   <| status := "Syncing" |>
            else (enqueueHistoryRequest request s) <| wsRef := Some OPEN |>) as s1 eqn:E1.
  assert (F1 : historyWsRef s1 = historyWsRef s /\ wsRef s1 = Some OPEN
               /\ outbox s1 = outbox s
               /\ pendingHistoryRequests s1 = (pendingHistoryRequests s ++ [request])%list
               /\ (forall r, buildHistoryPayload r s1 = buildHistoryPayload r s)).
  { rewrite E1. destruct s; unfold enqueueHistoryRequest, buildHistoryPayload; cbn.
    destruct sessionLoading0; repeat split. }
  clear E1. destruct F1 as (F1h & F1w & F1o & F1p & F1b).
  assert (Ha : activeWs s1 = Some StreamWs).
  { unfold activeWs. rewrite F1h, Hh, F1w. destruct (historyWsModeRef s1); reflexivity. }
  pose proof (flush_in_order s1) as Hf. rewrite Ha in Hf. destruct Hf as (Fo & Fp).
  assert (Ff : historyWsRef (flushPendingHistoryRequests s1) = historyWsRef s1
               /\ wsRef (flushPendingHistoryRequests s1) = wsRef s1).
  { unfold flushPendingHistoryRequests. rewrite Ha.
    destruct (Nat.eqb _ 0); [split; reflexivity|]. rewrite send_fold.
    destruct s1; split; reflexivity. }
  destruct Ff as (Ffh & Ffw).
  remember (flushPendingHistoryRequests s1) as s2 eqn:E2. clear E2.
  assert (Hh2 : is_open (historyWsRef s2) = false) by (rewrite Ffh, F1h; exact Hh).
  assert (Hw2 : is_open (wsRef s2) = true) by (rewrite Ffw, F1w; reflexivity).
  assert (Hout : outbox s2
                 = (outbox s
                      ++ List.map (fun queued => (StreamWs, buildHistoryPayload queued s))
                           (pendingHistoryRequests s ++ [request]))%list).
  { rewrite Fo, F1o, F1p. f_equal. apply List.map_ext. intros r. rewrite F1b. reflexivity. }
  assert (Hsend : forall q st,
             is_open (historyWsRef st) = false -> is_open (wsRef st) = true ->
             outbox (sendHistoryRequest q st)
             = (outbox st ++ [(StreamWs, buildHistoryPayload q st)])%list
             /\ pendingHistoryRequests (sendHistoryRequest q st) = pendingHistoryRequests st).
  { intros q st H1 H2. rewrite (sendHistoryRequest_stream q st H1 H2).
    destruct st; split; reflexivity. }
  destruct (negb (lazyHistory s2)).
  - destruct (Hsend (Req.mk None None (Some "tail") (Some HISTORY_TARGET_LIMIT)) s2 Hh2 Hw2)
      as (-> & ->).
    split; [exact Fp|]. eexists. rewrite Hout, <- List.app_assoc.
    split; [reflexivity|]. split; [cbn; lia | repeat constructor].
  - destruct (_ && _).
    + unfold primeHistory. destruct (_ || _).
      * split; [exact Fp|]. exists []. rewrite Hout, List.app_nil_r.
        split; [reflexivity|]. split; [cbn; lia | constructor].
      * match goal with
        | |- context [sendHistoryRequest ?q ?st] =>
            destruct (Hsend q st) as (-> & ->); [exact Hh2 | exact Hw2 |]
        end.
        split; [exact Fp|]. eexists.
        change (outbox (s2 <| primeHistoryInFlightRef := true |> <| loading := true |>
                           <| status := "Loading recent history" |>))
          with (outbox s2).
        rewrite Hout, <- List.app_assoc.
        split; [reflexivity|]. split; [cbn; lia | repeat constructor].
    + split; [exact Fp|]. exists []. rewrite Hout, List.app_nil_r.
      split; [reflexivity|]. split; [cbn; lia | constructor].
Qed.

(** ** Priming *)

(** X9.  [primeHistory] asks once: called again before the response, it
    does nothing, so one priming sends (or queues) at most one request:
    the tail of the session, 20 entries for a session known to have 10000
    messages or more and 40 otherwise. *)
Theorem primeHistory_once (s : State) :
  primeHistory (primeHistory s) = primeHistory s
  /\ (primeHistory s = s
      \/ exists limit,
           (limit = HISTORY_LARGE_PRIME_LIMIT \/ limit = HISTORY_PRIME_LIMIT)
           /\ ((exists c,
                   outbox (primeHistory s)
                   = (outbox s
                        ++ [(c, buildHistoryPayload
                                  (Req.mk None None (Some "tail") (Some limit)) s)])%list
                   /\ pendingHistoryRequests (primeHistory s) = pendingHistoryRequests s)
               \/ (outbox (primeHistory s) = outbox s
                   /\ pendingHistoryRequests (primeHistory s)
                      = (pendingHistoryRequests s
                           ++ [Req.mk None None (Some "tail") (Some limit)])%list))).
Proof.
  split.
  - assert (Hin : forall st, primeHistoryInFlightRef st = true -> primeHistory st = st).
    { intros st H. unfold primeHistory. rewrite H, orb_true_r. reflexivity. }
    remember (primeHistory s) as p eqn:Ep. unfold primeHistory in Ep.
    destruct (historyPrimed s || primeHistoryInFlightRef s) eqn:G.
    + subst p. unfold primeHistory. rewrite G. reflexivity.
    + apply Hin. subst p. unfold sendHistoryRequest, send, enqueueHistoryRequest.
      destruct s; cbn. peel_cbn; reflexivity.
  - unfold primeHistory. destruct (_ || _); [left; reflexivity|]. right.
    match goal with
    | |- context [sendHistoryRequest (Req.mk _ _ _ (Some ?l)) ?st] =>
        exists l; destruct (sendHistoryRequest_effect (Req.mk None None (Some "tail") (Some l)) st)
          as (_ & H)
    end.
    split.
    + unfold historyPrimeLimitFor. destruct (messageCountFor _ _); [|right; reflexivity].
      destruct (_ <=? _)%Z; [left | right]; reflexivity.
    + destruct H as [(c & Ho & Hp) | (Ho & Hp)]; [left; exists c | right];
        (split; [rewrite Ho | rewrite Hp]); destruct s; reflexivity.
Qed.

(** X10.  At most one prime timer is set: [schedulePrimeHistory] called
    again does nothing more, and [cancelPrimeHistory] removes the timer it
    set, leaving the pending timers as they were before. *)
Theorem prime_timer_single (force : bool) (s : State) :
  timers_fresh s ->
  primeHistoryTimerRef s = None ->
  schedulePrimeHistory force (schedulePrimeHistory force s) = schedulePrimeHistory force s
  /\ timers (cancelPrimeHistory (schedulePrimeHistory force s)) = timers s
  /\ primeHistoryTimerRef (cancelPrimeHistory (schedulePrimeHistory force s)) = None.
Proof.
  unfold timers_fresh. intros Hfresh Href. split; [|split].
  - destruct s; unfold schedulePrimeHistory, setTimeout; cbn in *. subst.
    peel_all; try discriminate; reflexivity.
  - unfold schedulePrimeHistory, cancelPrimeHistory.
    destruct (_ || _); [rewrite Href; reflexivity|].
    destruct (_ && _); [rewrite Href; reflexivity|].
    destruct (_ && _); [rewrite Href; reflexivity|].
    rewrite Href. unfold setTimeout, clearTimeout. destruct s; cbn in *.
    apply filter_new_timer; [reflexivity | exact Hfresh].
  - unfold schedulePrimeHistory, cancelPrimeHistory.
    destruct (_ || _); [rewrite Href; exact Href|].
    destruct (_ && _); [rewrite Href; exact Href|].
    destruct (_ && _); [rewrite Href; exact Href|].
    rewrite Href. destruct s; reflexivity.
Qed.

(** ** The history channel after a switch *)

Lemma switched_no_history_socket (b : string) (s : State) :
  b <> "" -> no_history_socket (switched b s).
Proof.
  intros Hb. split; [|apply switched_fields].
  unfold switched, setHistoryWsModeForSession. rewrite (truthy_str_some b Hb).
  unfold schedulePrimeHistory, scheduleResume, setTimeout, resetHistoryTracking,
    resetActivity, cancelPrimeFill, clearTimeout, closeHistorySocket.
  destruct s; cbn. peel_cbn; reflexivity.
Qed.

(** X11.  Once a switch to a session has taken effect, the history channel
    is out of use for good: along every sequence of callbacks the channel
    stays disabled, its socket ref null and its key null, nothing is sent
    over a history socket and every history_request goes over the stream
    socket. *)
Theorem no_history_channel_after_switch (b : string) (s : State) (cs : list Callback) :
  b <> "" ->
  activeId s <> Some b ->
  knownSessionIdsRef s = ∅ \/ b ∈ knownSessionIdsRef s \/ runtimeId s = Some b ->
  let s' := callbacks cs (activateSession (Some b) s) in
  historyWsDisabledRef s' = true
  /\ historyWsRef s' = None
  /\ historyKey s' = None
  /\ off_history (outbox s) (outbox s').
Proof.
  intros Hb Ha Hk. cbv zeta. rewrite (activateSession_takes_effect b s Hb Ha Hk).
  destruct (callbacks_off cs (switched b s) (switched_no_history_socket b s Hb))
    as ((Hw & Hd) & Ho).
  split; [exact Hd|]. split; [exact Hw|]. split; [apply historyKey_disabled; exact Hd|].
  destruct (switched_fields b s) as (_ & _ & _ & _ & _ & _ & _ & _ & _ & _ & <-). exact Ho.
Qed.

(** ** The covered range *)

Lemma mergeHistory_paged_range (message : Chunk.t) (h : list Item.t) (s : State) :
  is_anchor message = false ->
  historyStart (mergeHistory message h s) = historyStart s
  /\ historyEnd (mergeHistory message h s) = historyEnd s.
Proof.
  unfold is_anchor. intros Ha. apply orb_false_elim in Ha as [Hh Ht].
  unfold mergeHistory. rewrite Hh, Ht.
  destruct (Chunk.before message) as [before|].
  { destruct (option_Z_eqb _ _); rewrite dropEventDuplicates_frame; destruct s; by_fields. }
  destruct (Chunk.after message) as [after|]; [|by_fields].
  rewrite dropEventDuplicates_frame. destruct s; by_fields.
Qed.

Lemma recordRange_range (message : Chunk.t) (s : State) :
  is_anchor message = false ->
  historyStart (recordRange message s)
  = match Chunk.start_index message with
    | Some a => min_index (historyStart s) a
    | None => historyStart s
    end
  /\ historyEnd (recordRange message s)
     = match Chunk.end_index message with
       | Some e => max_index (historyEnd s) e
       | None => historyEnd s
       end.
Proof.
  intros Ha. destruct s; unfold recordRange; rewrite Ha; cbn. peel_cbn; by_fields.
Qed.

Lemma recordRange_lastIndex (message : Chunk.t) (s : State) :
  lastIndexRef (recordRange message s)
  = match Chunk.end_index message with
    | Some e => max_index (lastIndexRef s) e
    | None => lastIndexRef s
    end.
Proof. destruct s; unfold recordRange; cbn. peel_cbn; reflexivity. Qed.

(** X12.  A page of history (a response that is not anchored) only widens
    the covered range: the start never moves up and the end never down,
    and an end that is set stays set.  The last index, on any history
    response, never moves down.  A response whose conversion throws leaves
    all three alone. *)
Theorem covered_range_widens (message : Chunk.t) (s : State) :
  match handleHistoryChunk message s with
  | Returned s' =>
      live_le (lastIndexRef s) (lastIndexRef s')
      /\ (is_anchor message = false ->
          start_le (historyStart s') (historyStart s)
          /\ live_le (historyEnd s) (historyEnd s'))
  | Threw s' =>
      lastIndexRef s' = lastIndexRef s
      /\ historyStart s' = historyStart s
      /\ historyEnd s' = historyEnd s
  end.
Proof.
  destruct (handleHistoryChunk_cases message s) as (X & Y & [-> | (h & ->)]).
  - repeat split.
  - rewrite recordRange_lastIndex.
    destruct (mergeHistory_frame message h (registered s X Y))
      as (_ & _ & _ & _ & _ & _ & ->).
    change (lastIndexRef (registered s X Y)) with (lastIndexRef s).
    split.
    + unfold live_le, max_index.
      destruct (Chunk.end_index message), (lastIndexRef s); try exact I; lia.
    + intros Ha.
      destruct (recordRange_range message (mergeHistory message h (registered s X Y)) Ha)
        as (-> & ->).
      destruct (mergeHistory_paged_range message h (registered s X Y) Ha) as (-> & ->).
      change (historyStart (registered s X Y)) with (historyStart s).
      change (historyEnd (registered s X Y)) with (historyEnd s).
      unfold start_le, live_le, min_index, max_index.
      split.
      * destruct (Chunk.start_index message), (historyStart s); try exact I; lia.
      * destruct (Chunk.end_index message), (historyEnd s); try exact I; lia.
Qed.

(** ** What [dropEventDuplicates] drops *)

Lemma filter_filter_implied {A} (p q : A -> bool) (l : list A) :
  (forall x, p x = true -> q x = true) ->
  List.filter p (List.filter q l) = List.filter p l.
Proof.
  intros H. induction l as [|a l IH]; cbn [List.filter]; [reflexivity|].
  destruct (q a) eqn:Hq; cbn [List.filter].
  - rewrite IH. reflexivity.
  - destruct (p a) eqn:Hp; [rewrite (H a Hp) in Hq; discriminate | exact IH].
Qed.

(** X13.  [dropEventDuplicates] drops live entries only: the entries that
    did not come from a live event are all kept, in their order.  Of the
    live message entries it keeps, none has the signature of a message
    entry of the page; and an empty page drops nothing. *)
Theorem dropEventDuplicates_spares_history (h : list Item.t) (s : State) :
  List.filter (fun item => negb (is_origin (Item.origin item) event))
    (items (dropEventDuplicates h s))
  = List.filter (fun item => negb (is_origin (Item.origin item) event)) (items s)
  /\ (forall x y,
        In x (items (dropEventDuplicates h s)) ->
        Item.origin x = Some event -> is_message x = true ->
        In y h -> is_message y = true ->
        messageSignatureForItem x <> messageSignatureForItem y)
  /\ (h = [] -> dropEventDuplicates h s = s).
Proof.
  split; [|split].
  - rewrite dropEventDuplicates_items. unfold survivors.
    destruct (_ || _); [reflexivity|]. apply filter_filter_implied.
    intros x Hx. unfold survivesHistory. cbv zeta. rewrite Hx. reflexivity.
  - intros x y Hx Ox Mx Hy My Heq.
    rewrite dropEventDuplicates_items in Hx. unfold survivors in Hx.
    destruct (Nat.eqb (List.length (items s)) 0) eqn:E1; cbn [orb] in Hx.
    { apply Nat.eqb_eq in E1. destruct (items s); [destruct Hx | discriminate]. }
    destruct (Nat.eqb (List.length h) 0) eqn:E2.
    { apply Nat.eqb_eq in E2. destruct h; [destruct Hy | discriminate]. }
    apply List.filter_In in Hx as [_ Hs].
    unfold survivesHistory in Hs. cbv zeta in Hs. rewrite Ox, Mx in Hs.
    cbn [is_origin negb andb] in Hs.
    destruct (_ && _); [discriminate|].
    rewrite bool_decide_eq_true_2 in Hs; [discriminate|].
    apply elem_of_list_to_set, list_elem_of_In. rewrite Heq.
    apply List.in_map. apply List.filter_In. split; assumption.
  - intros ->. unfold dropEventDuplicates. cbn [List.length Nat.eqb].
    rewrite orb_true_r. reflexivity.
Qed.

(** ** Where the entries come from *)

Section Converted.

Variable P : Item.t -> Prop.

Hypothesis P_text : forall (item : Item.t) (v : option string),
  P item -> P (item <| Item.text := v |>).

Lemma pushUnique_Forall (item : Item.t) (acc : ParseAcc) :
  P item -> Forall P (acc_items acc) -> Forall P (acc_items (pushUnique item acc)).
Proof.
  intros Hi Ha. unfold pushUnique. destruct (bool_decide _); [exact Ha|].
  cbn [acc_items]. apply List.Forall_app. split; [exact Ha | constructor; [exact Hi | constructor]].
Qed.

Lemma parseEventEntry_Forall (index : option Z) (entry : RolloutEntry) (acc : ParseAcc) :
  (forall suffix kd sub ttl txt m,
      P (eventItem index (eventKeyFromPayload (entry_payload entry)) suffix kd sub ttl txt m)) ->
  Forall P (acc_items acc) ->
  Forall P (acc_items (parseEventEntry index entry acc)).
Proof.
  intros Hi Ha. unfold parseEventEntry, parseReasoning. cbv zeta.
  repeat (peel; cbv beta iota);
    try exact Ha; try (apply pushUnique_Forall; [apply Hi | exact Ha]).
  cbn [acc_items].
  match goal with
  | H : last_item _ = Some _ |- _ => rewrite (last_item_split _ _ H) in Ha
  end.
  apply List.Forall_app in Ha as [H1 H2].
  apply List.Forall_app. split; [exact H1|].
  inversion H2 as [|? ? H3 _]; subst. constructor; [apply P_text; exact H3 | constructor].
Qed.

Lemma pushImages_Forall (index : option Z) (kd : TimelineKind) (content : list json) :
  (forall item, Item.index item = index -> Item.eventKey item = None -> P item) ->
  forall (idx : Z) (acc : ParseAcc),
    Forall P (acc_items acc) ->
    Forall P (acc_items (pushImages index kd idx content acc)).
Proof.
  intros Hi. induction content as [|segment rest IH]; intros idx acc Ha; cbn [pushImages];
    [exact Ha|].
  apply IH. destruct (_ || _); [|exact Ha].
  apply pushUnique_Forall; [apply Hi; reflexivity | exact Ha].
Qed.

Lemma parseResponseItem_Forall (index : option Z) (entry : RolloutEntry)
    (acc acc' : ParseAcc) :
  (forall item, Item.index item = index -> Item.eventKey item = None -> P item) ->
  parseResponseItem index entry acc = Some acc' ->
  Forall P (acc_items acc) -> Forall P (acc_items acc').
Proof.
  intros Hi. unfold parseResponseItem. cbv zeta. intros H Ha.
  destruct (is_str _ "reasoning").
  { injection H as <-. apply pushUnique_Forall; [apply Hi; reflexivity | exact Ha]. }
  destruct (negb _).
  { injection H as <-. apply pushUnique_Forall; [apply Hi; reflexivity | exact Ha]. }
  destruct (existsb _ _); [discriminate|]. injection H as <-.
  apply pushImages_Forall; [exact Hi|]. destruct (negb _); [|exact Ha].
  apply pushUnique_Forall; [apply Hi; reflexivity | exact Ha].
Qed.

End Converted.

(** X14.  Every entry [parseHistoryItems] returns was converted from one of
    the lines it was given: it carries the index of that line, and its key,
    if it has one, is the key of that line, an event line.  Entries of
    response items carry no key. *)
Theorem parsed_entries_come_from_lines (lines : list Line.t) (parsed : list Item.t) :
  parseHistoryItems lines = Some parsed ->
  Forall (fun item => exists line, In line lines /\ from_line line item) parsed.
Proof.
  unfold parseHistoryItems. intros H.
  destruct (parseLines lines (mkAcc [] ∅)) as [acc'|] eqn:E; [|discriminate].
  injection H as <-.
  set (P := fun item => exists line, In line lines /\ from_line line item).
  assert (Ptext : forall (item : Item.t) (v : option string),
             P item -> P (item <| Item.text := v |>)).
  { intros item v (line & Hin & Hfrom). exists line. split; [exact Hin|].
    destruct item; exact Hfrom. }
  assert (Hgen : forall rest acc acc1,
             (forall line, In line rest -> In line lines) ->
             Forall P (acc_items acc) ->
             parseLines rest acc = Some acc1 -> Forall P (acc_items acc1)).
  { induction rest as [|line rest IH]; intros acc acc1 Hsub Ha Hp; cbn [parseLines] in Hp.
    - injection Hp as <-. exact Ha.
    - destruct (parseLine line acc) as [acc2|] eqn:E2; [|discriminate].
      apply (IH acc2 acc1); [intros l Hl; apply Hsub; right; exact Hl | | exact Hp].
      assert (Hin : In line lines) by (apply Hsub; left; reflexivity).
      unfold parseLine in E2. cbv zeta in E2.
      destruct (String.eqb (entry_type (extractEntry line)) "event") eqn:He.
      + injection E2 as <-. apply (parseEventEntry_Forall P Ptext); [|exact Ha].
        intros suffix kd sub ttl txt m. exists line. split; [exact Hin|].
        split; [reflexivity|]. right. split; [apply String.eqb_eq; exact He | reflexivity].
      + destruct (String.eqb _ "response_item"); [|injection E2 as <-; exact Ha].
        eapply (parseResponseItem_Forall P); [|exact E2 | exact Ha].
        intros item Hi Hk. exists line. split; [exact Hin|].
        split; [exact Hi | left; exact Hk]. }
  apply (Hgen lines (mkAcc [] ∅) acc'); [auto | constructor | exact E].
Qed.

(** ** The target of the stream socket *)

(** X15.  Whenever there is a stream target, the rollout its address carries
    is the rollout [buildHistoryPayload] attaches to every history request:
    the active session when the runtime conversation is another one,
    nothing otherwise.  The target is the runtime conversation if there is
    one, and there is no target while a resume is pending. *)
Theorem stream_rollout_matches_requests (s : State) (t : StreamTarget) (request : Req.t) :
  streamTarget s = Some t ->
  buildHistoryPayload request s = history_request request (target_rollout t)
  /\ target_token t = token s
  /\ target_id t = (if truthy_str (runtimeId s) then opt_str (runtimeId s)
                    else opt_str (activeId s))
  /\ truthy_str (pendingResumeRef s) = false.
Proof.
  unfold streamTarget, buildHistoryPayload.
  destruct (String.eqb (token s) ""); [discriminate|].
  destruct (truthy_str (pendingResumeRef s)); [discriminate|].
  destruct (truthy_str (runtimeId s)); cbn [andb].
  - intros [= <-]. cbn [target_rollout target_token target_id]. repeat split.
  - destruct (_ || _); [discriminate|]. intros [= <-]. repeat split.
Qed.

Lemma switched_session_fields (b : string) (s : State) :
  token (switched b s) = token s
  /\ runtimeId (switched b s) = None
  /\ lastRequestedSessionRef (switched b s) = Some b
  /\ sessionLoading (switched b s) = true.
Proof.
  destruct s; unfold switched, schedulePrimeHistory, scheduleResume, resetHistoryTracking,
    resetActivity, cancelPrimeFill, setHistoryWsModeForSession, closeHistorySocket,
    setTimeout, clearTimeout; cbn.
  peel_cbn; by_fields.
Qed.

(** X16.  The stream follows the resume: after a switch to the session [b]
    has taken effect there is no stream target while the resume is pending;
    when the server confirms the resume of [b] with the runtime
    conversation [r], the target is [r], with [b] as its rollout when [r]
    is another conversation, and the status is "Streaming". *)
Theorem resume_opens_stream (b r : string) (s : State) :
  token s <> "" -> b <> "" -> r <> "" ->
  activeId s <> Some b ->
  knownSessionIdsRef s = ∅ \/ b ∈ knownSessionIdsRef s \/ runtimeId s = Some b ->
  let s1 := activateSession (Some b) s in
  let s2 := onConversationResumed (mkResumed (Some r) (Some b)) s1 in
  streamTarget s1 = None
  /\ streamTarget s2
     = Some (mkStreamTarget (token s) r (if String.eqb r b then None else Some b))
  /\ pendingResumeRef s2 = None
  /\ status s2 = "Streaming".
Proof.
  intros Ht Hb Hr Ha Hk. cbv zeta. rewrite (activateSession_takes_effect b s Hb Ha Hk).
  destruct (switched_fields b s) as (Fa & _ & _ & _ & _ & _ & _ & _ & Fp & _).
  destruct (switched_session_fields b s) as (Ft & Fr & Fl & Fs).
  remember (switched b s) as s1 eqn:E1. clear E1.
  assert (Htok : String.eqb (token s) "" = false) by (apply String.eqb_neq; exact Ht).
  split.
  - unfold streamTarget. rewrite Ft, Htok, Fp, (truthy_str_some b Hb). reflexivity.
  - assert (Eb : String.eqb b "" = false) by (apply String.eqb_neq; exact Hb).
    assert (Er : String.eqb r "" = false) by (apply String.eqb_neq; exact Hr).
    unfold onConversationResumed, streamTarget. destruct s1; cbn in *. subst.
    repeat (rewrite ?Eb, ?Er, ?Htok, ?String.eqb_refl; cbn).
    destruct (String.eqb r b); repeat split.
Qed.

(** ** Labels and filters *)

Lemma length_append (a b : string) :
  String.length (a ++ b) = (String.length a + String.length b)%nat.
Proof.
  induction a as [|c a IH]; [reflexivity|].
  change (S (String.length (a ++ b)) = S (String.length a + String.length b)).
  f_equal. exact IH.
Qed.

Lemma substring0_length (n : nat) :
  forall s : string, String.length (String.substring 0 n s) = Nat.min n (String.length s).
Proof.
  induction n as [|n IH]; intros [|c s]; try reflexivity.
  change (S (String.length (String.substring 0 n s)) = S (Nat.min n (String.length s))).
  f_equal. apply IH.
Qed.

Lemma substring0_prefix (n : nat) :
  forall s : string, String.prefix (String.substring 0 n s) s = true.
Proof.
  induction n as [|n IH]; intros [|c s]; try reflexivity.
  change (String.prefix (String c (String.substring 0 n s)) (String c s) = true).
  cbn [String.prefix]. destruct (ascii_dec c c); [apply IH | contradiction].
Qed.

(** X17.  For a length that is not negative, [compactLabel] returns a label
    no longer than that length: the trimmed value itself when it fits, and
    otherwise, for a length above 3, a label of exactly that length, made of
    the start of the trimmed value and three dots. *)
Theorem compactLabel_fits (trim : string -> string) (value : string) (maxLength : Z) :
  0 <= maxLength ->
  let label := compactLabel trim value maxLength in
  Z.of_nat (String.length label) <= maxLength
  /\ (Z.of_nat (String.length (trim value)) <= maxLength -> label = trim value)
  /\ (maxLength < Z.of_nat (String.length (trim value)) -> 3 < maxLength ->
      Z.of_nat (String.length label) = maxLength
      /\ exists head,
           label = head ++ "..." /\ String.prefix head (trim value) = true).
Proof.
  intros Hm. cbv zeta. unfold compactLabel, slice0.
  destruct (Z.leb_spec (Z.of_nat (String.length (trim value))) maxLength) as [Hfit|Hlong].
  { split; [exact Hfit|]. split; [reflexivity | lia]. }
  destruct (Z.leb_spec maxLength 3) as [Hsmall|Hbig].
  - destruct (Z.ltb_spec maxLength 0) as [Hneg|_]; [lia|].
    rewrite substring0_length. split; [lia|]. split; lia.
  - destruct (Z.ltb_spec (Z.max 0 (maxLength - 3)) 0) as [Hneg|_]; [lia|].
    rewrite length_append, substring0_length. cbn [String.length].
    split; [lia|]. split; [lia|]. intros _ _. split; [lia|].
    eexists. split; [reflexivity | apply substring0_prefix].
Qed.

(** X18.  Whatever the filters, [filteredItems] shows entries of the item
    list only, none without a text that the trim leaves non-empty or an
    image; of a kind that is switched off it shows the images only, and of
    a subkind that is switched off nothing. *)
Theorem filteredItems_hides (trim : string -> string) (filters : FilterState) (s : State) :
  Forall
    (fun item =>
       In item (items s)
       /\ (truthy (Item.imageUrl item) = true
           \/ exists t, Item.text item = Some t /\ t <> ""
                        /\ (0 < String.length (trim t))%nat)
       /\ (filter_kinds filters (Item.kind item) = false ->
           Item.subkind item = Some "image")
       /\ (forall sub, Item.subkind item = Some sub -> sub <> "" ->
                       subkind_off filters sub = false))
    (filteredItems trim filters s).
Proof.
  unfold filteredItems. apply List.Forall_forall. intros item Hin.
  apply List.filter_In in Hin as [Hin Hs]. split; [exact Hin|].
  unfold shown in Hs. cbv zeta in Hs.
  assert (Hc : truthy (Item.imageUrl item) = true
               \/ exists t, Item.text item = Some t /\ t <> ""
                            /\ (0 < String.length (trim t))%nat).
  { destruct (truthy (Item.imageUrl item)); [left; reflexivity|]. right.
    destruct (Item.text item) as [t|]; [|discriminate].
    exists t. split; [reflexivity|].
    destruct (String.eqb_spec t ""); [discriminate|]. split; [assumption|].
    cbn [negb andb] in Hs. destruct (0 <? String.length (trim t))%nat eqn:E;
      [apply Nat.ltb_lt; exact E | discriminate]. }
  split; [exact Hc|].
  destruct (negb _ && negb _); [discriminate|].
  destruct (bool_decide (Item.subkind item = Some "image")) eqn:Hi.
  - apply bool_decide_eq_true in Hi. split; [intros _; exact Hi|].
    intros sub Hsub _. rewrite Hi in Hsub. injection Hsub as <-.
    apply negb_true_iff. exact Hs.
  - destruct (filter_kinds filters (Item.kind item)); cbn [negb] in Hs; [|discriminate].
    split; [discriminate|].
    intros sub Hsub Hne. rewrite Hsub, (truthy_str_some sub Hne) in Hs.
    change (opt_str (Some sub)) with sub in Hs. cbn [andb] in Hs.
    destruct (subkind_off filters sub); [discriminate | reflexivity].
Qed.

(** ** The groups of the timeline *)

Lemma partition_permutation (f : Item.t -> bool) (l : list Item.t) :
  Permutation (List.filter (fun item => negb (f item)) l ++ List.filter f l)%list l.
Proof.
  induction l as [|a l IH]; cbn [List.filter]; [constructor|].
  destruct (f a); cbn [negb app].
  - symmetry. apply Permutation_cons_app. symmetry. exact IH.
  - constructor. exact IH.
Qed.

Lemma finalizeGroup_facts (group : Group) :
  group_index (finalizeGroup group) = group_index group
  /\ Permutation (group_items (finalizeGroup group)) (group_items group).
Proof.
  unfold finalizeGroup. destruct (group_index group) eqn:E; cbn [group_index group_items].
  - split; [reflexivity | apply partition_permutation].
  - split; [exact E | reflexivity].
Qed.

Lemma groupStep_flat (acc : list Group * option Group) (item : Item.t) :
  Permutation (flat (groupStep acc item)) (flat acc ++ [item])%list.
Proof.
  destruct acc as [groups [group|]]; unfold groupStep, flat; cbn [fst snd].
  - destruct (option_Z_eqb _ _); cbn [fst snd group_items].
    + rewrite List.app_assoc. reflexivity.
    + rewrite List.map_app, concat_app. cbn [List.map concat].
      rewrite List.app_nil_r, <- !List.app_assoc.
      apply Permutation_app_head. apply Permutation_app_tail.
      apply finalizeGroup_facts.
  - cbn [group_items]. rewrite List.app_nil_r. reflexivity.
Qed.

Lemma fold_groupStep_flat (l : list Item.t) :
  forall acc, Permutation (flat (fold_left groupStep l acc)) (flat acc ++ l)%list.
Proof.
  induction l as [|item l IH]; intros acc; cbn [fold_left].
  - rewrite List.app_nil_r. reflexivity.
  - rewrite IH, (groupStep_flat acc item), <- List.app_assoc. reflexivity.
Qed.

(** X19.  [groupedItems] loses no entry and repeats none: the entries of
    its groups, taken together, are the entries of the list. *)
Theorem groupedItems_permutation (l : list Item.t) :
  Permutation (concat (List.map group_items (groupedItems l))) l.
Proof.
  unfold groupedItems. pose proof (fold_groupStep_flat l ([], None)) as H.
  destruct (fold_left groupStep l ([], None)) as [groups [group|]];
    unfold flat in H; cbn [fst snd List.map concat app] in H.
  - rewrite List.map_app, concat_app. cbn [List.map concat].
    rewrite List.app_nil_r, <- H.
    apply Permutation_app_head. apply finalizeGroup_facts.
  - rewrite List.app_nil_r in H. exact H.
Qed.

Lemma option_Z_eqb_eq (a b : option Z) : option_Z_eqb a b = true <-> a = b.
Proof.
  destruct a as [a|], b as [b|]; cbn; split; try congruence; try discriminate.
  - intros H. apply Z.eqb_eq in H. congruence.
  - intros [= ->]. apply Z.eqb_refl.
Qed.

Lemma distinct_neighbours_snoc (l : list (option Z)) (a b : option Z) :
  distinct_neighbours (l ++ [a]) -> a <> b -> distinct_neighbours ((l ++ [a]) ++ [b]).
Proof.
  intros H Hab. induction l as [|x l IH].
  - cbn. tauto.
  - cbn [app distinct_neighbours] in *. destruct H as [Hx Hl].
    split; [|apply IH; exact Hl].
    destruct l as [|y l]; cbn [app] in *; exact Hx.
Qed.

Lemma finalizeGroup_ok (group : Group) :
  group_items group <> [] ->
  Forall (fun item => Item.index item = group_index group) (group_items group) ->
  group_ok (finalizeGroup group).
Proof.
  intros Hne Hidx. destruct (finalizeGroup_facts group) as (Ei & Hp).
  unfold group_ok. rewrite Ei. split; [|split].
  - intros Hnil. rewrite Hnil in Hp. apply Permutation_nil in Hp. contradiction.
  - rewrite List.Forall_forall in *. intros item Hin. apply Hidx.
    eapply Permutation_in; [exact Hp | exact Hin].
  - intros Hsome. unfold finalizeGroup.
    destruct (group_index group); [|contradiction]. cbn [group_items].
    eexists _, _. split; [reflexivity|].
    split; apply List.Forall_forall; intros item Hin;
      apply List.filter_In in Hin as [_ Hf]; [apply negb_true_iff|]; exact Hf.
Qed.

Lemma groupStep_grouping (acc : list Group * option Group) (item : Item.t) :
  grouping acc -> grouping (groupStep acc item).
Proof.
  destruct acc as [groups [group|]]; unfold grouping, groupStep; cbn [fst snd].
  - intros (Hg & (Hne & Hidx) & Hd).
    destruct (option_Z_eqb (group_index group) (Item.index item)) eqn:E;
      cbn [fst snd group_index group_items].
    + apply option_Z_eqb_eq in E. split; [exact Hg|]. split; [|exact Hd]. split.
      * intros H. apply List.app_eq_nil in H as [_ H]. discriminate.
      * apply List.Forall_app. split; [exact Hidx|]. constructor; [congruence | constructor].
    + assert (Hneq : group_index group <> Item.index item).
      { intros H. apply option_Z_eqb_eq in H. congruence. }
      split; [|split].
      * apply List.Forall_app. split; [exact Hg|].
        constructor; [apply finalizeGroup_ok; assumption | constructor].
      * split; [discriminate | constructor; [reflexivity | constructor]].
      * rewrite List.map_app. cbn [List.map].
        destruct (finalizeGroup_facts group) as (-> & _).
        apply distinct_neighbours_snoc; assumption.
  - intros (Hg & -> & Hd). cbn [group_index group_items List.map app].
    split; [constructor|]. split; [|cbn; tauto].
    split; [discriminate | constructor; [reflexivity | constructor]].
Qed.

(** X20.  Each group of [groupedItems] is a run of entries with one index:
    it is not empty, all its entries carry its index, two neighbouring
    groups have different indices, and in a group with an index the
    assistant entries come after all the others. *)
Theorem groupedItems_groups (l : list Item.t) :
  Forall group_ok (groupedItems l)
  /\ distinct_neighbours (List.map group_index (groupedItems l)).
Proof.
  assert (H : forall acc, grouping acc -> grouping (fold_left groupStep l acc)).
  { induction l as [|item l IH]; intros acc Ha; cbn [fold_left]; [exact Ha|].
    apply IH. apply groupStep_grouping. exact Ha. }
  specialize (H ([], None)). unfold groupedItems.
  destruct (fold_left groupStep l ([], None)) as [groups [group|]];
    unfold grouping in H; cbn [fst snd] in H.
  - destruct H as (Hg & (Hne & Hidx) & Hd); [repeat split; constructor|].
    split.
    + apply List.Forall_app. split; [exact Hg|].
      constructor; [apply finalizeGroup_ok; assumption | constructor].
    + rewrite List.map_app. cbn [List.map].
      destruct (finalizeGroup_facts group) as (-> & _). exact Hd.
  - destruct H as (Hg & -> & _); [repeat split; constructor|].
    split; [constructor | exact I].
Qed.

(** ** The jumps between diffs *)

Lemma diff_at_cons (group : Group) (rest : list Group) (position : nat) :
  diff_at (group :: rest) (S position) = diff_at rest position.
Proof. reflexivity. Qed.

Lemma next_from (current : nat) (groups : list Group) :
  forall first : nat,
    match List.find (fun index => (current <? index)%nat) (diffGroupsFrom first groups) with
    | Some next =>
        (first <= next)%nat /\ (current < next)%nat
        /\ diff_at groups (next - first) = true
        /\ forall i, (first <= i)%nat -> (current < i)%nat -> (i < next)%nat ->
                     diff_at groups (i - first) = false
    | None =>
        forall i, (first <= i)%nat -> (current < i)%nat -> diff_at groups (i - first) = false
    end.
Proof.
  induction groups as [|group rest IH]; intros first; cbn [diffGroupsFrom].
  - cbn [List.find]. intros i _ _. unfold diff_at. destruct (i - first)%nat; reflexivity.
  - assert (Hshift : forall i, (S first <= i)%nat ->
                               diff_at (group :: rest) (i - first) = diff_at rest (i - S first)).
    { intros i Hi. replace (i - first)%nat with (S (i - S first)) by lia. reflexivity. }
    assert (Hhere : diff_at (group :: rest) (first - first)
                    = existsb is_diff (group_items group)).
    { rewrite Nat.sub_diag. reflexivity. }
    specialize (IH (S first)).
    destruct (existsb is_diff (group_items group)) eqn:Hd; cbn [List.find].
    + destruct (Nat.ltb_spec current first) as [Hlt|Hge].
      * split; [lia|]. split; [exact Hlt|]. split; [exact Hhere|]. intros i; lia.
      * destruct (List.find _ _) as [next|].
        -- destruct IH as (H1 & H2 & H3 & H4). split; [lia|]. split; [exact H2|].
           split; [rewrite Hshift by lia; exact H3|].
           intros i Hi Hc Hn. rewrite Hshift by lia. apply H4; lia.
        -- intros i Hi Hc. rewrite Hshift by lia. apply IH; lia.
    + destruct (List.find _ _) as [next|].
      * destruct IH as (H1 & H2 & H3 & H4). split; [lia|]. split; [exact H2|].
        split; [rewrite Hshift by lia; exact H3|].
        intros i Hi Hc Hn. destruct (Nat.eq_dec i first) as [->|Hne]; [exact Hhere|].
        rewrite Hshift by lia. apply H4; lia.
      * intros i Hi Hc. destruct (Nat.eq_dec i first) as [->|Hne]; [exact Hhere|].
        rewrite Hshift by lia. apply IH; lia.
Qed.

Lemma find_snoc {A} (f : A -> bool) (l : list A) (a : A) :
  List.find f (l ++ [a])
  = match List.find f l with
    | Some x => Some x
    | None => if f a then Some a else None
    end.
Proof.
  induction l as [|x l IH]; cbn [app List.find]; [reflexivity|].
  destruct (f x); [reflexivity | exact IH].
Qed.

Lemma prev_from (current : nat) (groups : list Group) :
  forall first : nat,
    match List.find (fun index => (index <? current)%nat)
            (List.rev (diffGroupsFrom first groups)) with
    | Some prev =>
        (first <= prev)%nat /\ (prev < current)%nat
        /\ diff_at groups (prev - first) = true
        /\ forall i, (prev < i)%nat -> (i < current)%nat ->
                     diff_at groups (i - first) = false
    | None =>
        forall i, (first <= i)%nat -> (i < current)%nat -> diff_at groups (i - first) = false
    end.
Proof.
  induction groups as [|group rest IH]; intros first; cbn [diffGroupsFrom].
  - cbn [List.rev List.find]. intros i _ _. unfold diff_at.
    destruct (i - first)%nat; reflexivity.
  - assert (Hshift : forall i, (S first <= i)%nat ->
                               diff_at (group :: rest) (i - first) = diff_at rest (i - S first)).
    { intros i Hi. replace (i - first)%nat with (S (i - S first)) by lia. reflexivity. }
    assert (Hhere : diff_at (group :: rest) (first - first)
                    = existsb is_diff (group_items group)).
    { rewrite Nat.sub_diag. reflexivity. }
    specialize (IH (S first)).
    destruct (existsb is_diff (group_items group)) eqn:Hd.
    + cbn [List.rev]. rewrite find_snoc.
      destruct (List.find _ _) as [prev|].
      * destruct IH as (H1 & H2 & H3 & H4). split; [lia|]. split; [exact H2|].
        split; [rewrite Hshift by lia; exact H3|].
        intros i Hi Hc. rewrite Hshift by lia. apply H4; lia.
      * destruct (Nat.ltb_spec first current) as [Hlt|Hge].
        -- split; [lia|]. split; [exact Hlt|]. split; [exact Hhere|].
           intros i Hi Hc. rewrite Hshift by lia. apply IH; lia.
        -- intros i; lia.
    + destruct (List.find _ _) as [prev|].
      * destruct IH as (H1 & H2 & H3 & H4). split; [lia|]. split; [exact H2|].
        split; [rewrite Hshift by lia; exact H3|].
        intros i Hi Hc. rewrite Hshift by lia. apply H4; lia.
      * intros i Hi Hc. destruct (Nat.eq_dec i first) as [->|Hne]; [exact Hhere|].
        rewrite Hshift by lia. apply IH; lia.
Qed.

(** X21.  [jumpToNextDiff] goes to the nearest group after the current one
    that holds a diff, [jumpToPrevDiff] to the nearest one before it; each
    does nothing exactly when there is no such group, or no current
    group. *)
Theorem diff_navigation (l : list Item.t) (current : nat) :
  match jumpToNextDiff l (Some current) with
  | Some next =>
      (current < next)%nat /\ diff_at (groupedItems l) next = true
      /\ forall i, (current < i)%nat -> (i < next)%nat -> diff_at (groupedItems l) i = false
  | None => forall i, (current < i)%nat -> diff_at (groupedItems l) i = false
  end
  /\ match jumpToPrevDiff l (Some current) with
     | Some prev =>
         (prev < current)%nat /\ diff_at (groupedItems l) prev = true
         /\ forall i, (prev < i)%nat -> (i < current)%nat -> diff_at (groupedItems l) i = false
     | None => forall i, (i < current)%nat -> diff_at (groupedItems l) i = false
     end
  /\ jumpToNextDiff l None = None
  /\ jumpToPrevDiff l None = None.
Proof.
  unfold jumpToNextDiff, jumpToPrevDiff, diffGroups.
  split; [|split; [|split; reflexivity]].
  - pose proof (next_from current (groupedItems l) 0) as H.
    destruct (List.find _ _) as [next|].
    + destruct H as (_ & H2 & H3 & H4). rewrite Nat.sub_0_r in H3.
      split; [exact H2|]. split; [exact H3|].
      intros i Hc Hn. specialize (H4 i). rewrite Nat.sub_0_r in H4. apply H4; lia.
    + intros i Hc. specialize (H i). rewrite Nat.sub_0_r in H. apply H; lia.
  - pose proof (prev_from current (groupedItems l) 0) as H.
    destruct (List.find _ _) as [prev|].
    + destruct H as (_ & H2 & H3 & H4). rewrite Nat.sub_0_r in H3.
      split; [exact H2|]. split; [exact H3|].
      intros i Hc Hn. specialize (H4 i). rewrite Nat.sub_0_r in H4. apply H4; lia.
    + intros i Hc. specialize (H i). rewrite Nat.sub_0_r in H. apply H; lia.
Qed.

(** ** Snapshots and anchored responses *)

Lemma handleSnapshot_items (message : Snapshot.t) (s : State) :
  match snapshotItems message with
  | Some h => exists s', handleSnapshot message s = Returned s' /\ items s' = h
  | None => exists s', handleSnapshot message s = Threw s' /\ items s' = items s
  end.
Proof.
  unfold snapshotItems. pose proof (handleSnapshot_cases message s) as H.
  assert (Hr : forall parsed,
             parseHistoryItems
               (freshOf (Snapshot.rollout message)
                  (hasAssistantResponseItem (Snapshot.rollout message)) ∅) = Some parsed ->
             exists s', handleSnapshot message s = Returned s').
  { intros parsed Hp. unfold handleSnapshot. rewrite registerHistoryLines_spec.
    change (seenLineIndexRef (resetHistoryTracking _)) with (∅ : gset Z).
    rewrite Hp. eexists. reflexivity. }
  destruct (handleSnapshot message s) as [s'|s'].
  - destruct H as (_ & _ & _ & _ & parsed & Hp & Hi). rewrite Hp. cbn [option_map].
    exists s'. split; [reflexivity | exact Hi].
  - destruct (parseHistoryItems _) as [parsed|]; cbn [option_map].
    + destruct (Hr parsed eq_refl) as (s1 & E). discriminate.
    + exists s'. split; [reflexivity | apply H].
Qed.

(** X22.  A snapshot delivered twice on the same socket leaves the item list
    as the first delivery left it.  On the history socket a snapshot
    replaces the item list by its own rollout, converted, whatever the list
    held; when its conversion throws, the list is left as it was. *)
Theorem snapshot_twice (from : Channel) (closureId : option string)
    (message : Snapshot.t) (s : State) :
  let once := deliver (DeliverSnapshot from closureId message) s in
  let twice := deliver (DeliverSnapshot from closureId message) once in
  items twice = items once
  /\ (from = HistoryWs ->
      items once = match snapshotItems message with Some h => h | None => items s end).
Proof.
  cbv zeta.
  assert (Hwrap : forall (c : State -> bool) st,
             items
               match handleSnapshot message st with
               | Returned s' => if c s' then s' <| sessionLoading := false |> else s'
               | Threw s' => caught (Threw s')
               end
             = match snapshotItems message with Some h => h | None => items st end).
  { intros c st. pose proof (handleSnapshot_items message st) as H.
    destruct (snapshotItems message) as [h|]; destruct H as (s' & -> & Hi).
    - destruct (c s'); exact Hi.
    - exact Hi. }
  destruct from; cbn [deliver].
  - split; [|discriminate]. unfold onStreamSnapshot.
    destruct (negb (historyPrimed s)) eqn:G1; [|rewrite G1; reflexivity].
    match goal with
    | |- items (if negb (historyPrimed ?once) then _ else _) = _ =>
        destruct (negb (historyPrimed once)); [|reflexivity]
    end.
    rewrite !(Hwrap (fun s' => opt_string_eqb closureId (activeId s'))).
    destruct (snapshotItems message); reflexivity.
  - unfold onHistorySnapshot.
    rewrite !(Hwrap (fun s' => opt_string_eqb (Some (opt_str closureId)) (activeId s'))).
    split; [destruct (snapshotItems message); reflexivity | reflexivity].
  - split; [reflexivity | discriminate].
Qed.

Lemma recordRange_anchor (message : Chunk.t) (s : State) :
  is_anchor message = true ->
  historyMode (recordRange message s) = historyMode s
  /\ historyStart (recordRange message s) = historyStart s
  /\ historyEnd (recordRange message s) = historyEnd s
  /\ hasMoreBefore (recordRange message s) = hasMoreBefore s
  /\ hasMoreAfter (recordRange message s) = hasMoreAfter s.
Proof.
  intros Ha. destruct s; unfold recordRange; rewrite Ha; cbn. peel_cbn; by_fields.
Qed.

Lemma schedulePrimeFill_range (message : Chunk.t) (historyItems : list Item.t)
    (st : State) :
  historyMode (schedulePrimeFill message historyItems st) = historyMode st
  /\ historyStart (schedulePrimeFill message historyItems st) = historyStart st
  /\ historyEnd (schedulePrimeFill message historyItems st) = historyEnd st
  /\ hasMoreBefore (schedulePrimeFill message historyItems st) = hasMoreBefore st
  /\ hasMoreAfter (schedulePrimeFill message historyItems st) = hasMoreAfter st.
Proof.
  destruct st; unfold schedulePrimeFill, setTimeout, clearTimeout; cbn.
  peel_cbn; by_fields.
Qed.

Lemma tailState_range (message : Chunk.t) (historyItems : list Item.t) (s : State) :
  let st := tailState message historyItems s in
  historyMode st = mode_tail
  /\ historyStart st = Chunk.start_index message
  /\ historyEnd st = Chunk.end_index message
  /\ hasMoreBefore st = Chunk.truncated message
  /\ hasMoreAfter st = false.
Proof.
  destruct s; unfold tailState, cancelPrimeHistory, cancelPrimeFill, clearTimeout; cbn.
  peel_cbn; by_fields.
Qed.

Lemma anchored_state (message : Chunk.t) (h : list Item.t) (s : State)
    (X : gset Z) (Y : gset string) :
  is_anchor message = true ->
  let head := opt_string_eqb (Chunk.anchor message) (Some "head") in
  let s' := recordRange message (mergeHistory message h (registered s X Y)) in
  items s' = h
  /\ historyMode s' = (if head then mode_head else mode_tail)
  /\ historyStart s' = Chunk.start_index message
  /\ historyEnd s' = Chunk.end_index message
  /\ hasMoreBefore s' = (if head then false else Chunk.truncated message)
  /\ hasMoreAfter s' = (if head then Chunk.truncated message else false).
Proof.
  intros Ha. cbv zeta.
  destruct (recordRange_frame message (mergeHistory message h (registered s X Y)))
    as (-> & _).
  destruct (recordRange_anchor message (mergeHistory message h (registered s X Y)) Ha)
    as (-> & -> & -> & -> & ->).
  split; [apply mergeHistory_anchor_items; exact Ha|].
  pose proof Ha as Ha'. unfold is_anchor in Ha'.
  unfold mergeHistory.
  destruct (opt_string_eqb (Chunk.anchor message) (Some "head")) eqn:Hh.
  - destruct s; unfold registered, cancelPrimeFill, clearTimeout; cbn.
    peel_cbn; by_fields.
  - cbn [orb] in Ha'. rewrite Ha'.
    match goal with
    | |- context [schedulePrimeFill message h ?st] =>
        destruct (schedulePrimeFill_range message h st) as (-> & -> & -> & -> & ->);
        exact (tailState_range message h (registered s X Y))
    end.
Qed.

(** X23.  An anchored response, head or tail, replaces the item list by its
    own lines, converted, whatever the list held (live entries included),
    and the covered range by its own; it sets the mode to its anchor and
    the truncation flag on the side that can be paged.  When its conversion
    throws, the list is left as it was. *)
Theorem anchored_response_replaces (message : Chunk.t) (s : State) :
  is_anchor message = true ->
  let head := opt_string_eqb (Chunk.anchor message) (Some "head") in
  match anchorItems message with
  | Some h =>
      exists s',
        handleHistoryChunk message s = Returned s'
        /\ items s' = h
        /\ historyMode s' = (if head then mode_head else mode_tail)
        /\ historyStart s' = Chunk.start_index message
        /\ historyEnd s' = Chunk.end_index message
        /\ hasMore s' = Chunk.truncated message
  | None => exists s', handleHistoryChunk message s = Threw s' /\ items s' = items s
  end.
Proof.
  intros Ha. cbv zeta. rewrite (handleHistoryChunk_anchor message s Ha).
  destruct (anchorItems message) as [h|]; [|eexists; split; reflexivity].
  eexists. split; [reflexivity|].
  destruct (anchored_state message h s (indexAfter (Chunk.items message) ∅)
              (keysAfter (Chunk.items message) ∅ ∅) Ha)
    as (Hi & Hm & Hs & He & Hb & Hf).
  split; [exact Hi|]. split; [exact Hm|]. split; [exact Hs|]. split; [exact He|].
  unfold hasMore. rewrite Hm, Hb, Hf.
  destruct (opt_string_eqb (Chunk.anchor message) (Some "head")); reflexivity.
Qed.

(** X24.  After an anchored response, [loadMore] pages on from it: after a
    tail it asks for the 200 lines before the start index of the response,
    after a head for the 200 lines after its end index; the request is
    sent on an open socket or queued, never dropped.  Without that index it
    does nothing. *)
Theorem loadMore_follows_anchor (message : Chunk.t) (h : list Item.t) (s : State) :
  is_anchor message = true ->
  anchorItems message = Some h ->
  exists s',
    handleHistoryChunk message s = Returned s'
    /\ match nextPage message with
       | None => loadMore s' = s'
       | Some request =>
           (exists c,
               outbox (loadMore s')
               = (outbox s' ++ [(c, buildHistoryPayload request s')])%list
               /\ pendingHistoryRequests (loadMore s') = pendingHistoryRequests s')
           \/ (outbox (loadMore s') = outbox s'
               /\ pendingHistoryRequests (loadMore s')
                  = (pendingHistoryRequests s' ++ [request])%list)
       end.
Proof.
  intros Ha Hp. rewrite (handleHistoryChunk_anchor message s Ha), Hp.
  eexists. split; [reflexivity|].
  destruct (anchored_state message h s (indexAfter (Chunk.items message) ∅)
              (keysAfter (Chunk.items message) ∅ ∅) Ha)
    as (_ & Hm & Hs & He & _).
  remember (recordRange message
              (mergeHistory message h
                 (registered s (indexAfter (Chunk.items message) ∅)
                    (keysAfter (Chunk.items message) ∅ ∅)))) as s' eqn:E.
  clear E. unfold loadMore, nextPage, loadOlder, loadNewer. rewrite Hm, Hs, He.
  assert (Hsend : forall request label,
             (exists c,
                 outbox (sendHistoryRequest request
                           (s' <| loading := true |> <| status := label |>))
                 = (outbox s' ++ [(c, buildHistoryPayload request s')])%list
                 /\ pendingHistoryRequests
                      (sendHistoryRequest request
                         (s' <| loading := true |> <| status := label |>))
                    = pendingHistoryRequests s')
             \/ (outbox (sendHistoryRequest request
                           (s' <| loading := true |> <| status := label |>))
                 = outbox s'
                 /\ pendingHistoryRequests
                      (sendHistoryRequest request
                         (s' <| loading := true |> <| status := label |>))
                    = (pendingHistoryRequests s' ++ [request])%list)).
  { intros request label.
    destruct (sendHistoryRequest_effect request
                (s' <| loading := true |> <| status := label |>))
      as (_ & [(c & Ho & Hq) | (Ho & Hq)]); [left; exists c | right];
      (split; [rewrite Ho | rewrite Hq]); destruct s'; reflexivity. }
  destruct (opt_string_eqb (Chunk.anchor message) (Some "head")).
  - destruct (Chunk.end_index message); cbn [option_map]; [apply Hsend | reflexivity].
  - destruct (Chunk.start_index message); cbn [option_map]; [apply Hsend | reflexivity].
Qed.

(** ** Toggling the filters *)

Lemma kind_eqb_eq (a b : TimelineKind) : kind_eqb a b = true <-> a = b.
Proof. destruct a, b; cbn; split; intros H; try reflexivity; try discriminate. Qed.

(** X25.  [toggleKind] flips the flag of one kind and no other, and twice
    it restores the flags.  [toggleSubkind] flips the flag of one subkind
    and no other; a subkind that has no flag is shown, and still shown
    after one toggle, which sets its flag: only the second one switches it
    off. *)
Theorem toggle_filters (filters : FilterState) (k : TimelineKind) (sub : string) :
  filter_kinds (toggleKind k filters) k = negb (filter_kinds filters k)
  /\ (forall kind,
        (kind <> k -> filter_kinds (toggleKind k filters) kind = filter_kinds filters kind)
        /\ filter_kinds (toggleKind k (toggleKind k filters)) kind
           = filter_kinds filters kind)
  /\ (forall other, other <> sub ->
                    subkind_off (toggleSubkind sub filters) other = subkind_off filters other)
  /\ subkind_off (toggleSubkind sub filters) sub
     = bool_decide (filter_subkinds filters !! sub = Some true)
  /\ (filter_subkinds filters !! sub = None ->
      subkind_off filters sub = false
      /\ subkind_off (toggleSubkind sub filters) sub = false
      /\ subkind_off (toggleSubkind sub (toggleSubkind sub filters)) sub = true).
Proof.
  split; [|split; [|split; [|split]]].
  - unfold toggleKind. cbn [filter_kinds].
    rewrite (proj2 (kind_eqb_eq k k) eq_refl). reflexivity.
  - intros kind. unfold toggleKind. cbn [filter_kinds].
    destruct (kind_eqb kind k) eqn:E.
    + apply kind_eqb_eq in E. split; [congruence | apply negb_involutive].
    + split; reflexivity.
  - intros other Hne. unfold subkind_off, toggleSubkind. cbn [filter_subkinds].
    rewrite lookup_insert_ne by congruence. reflexivity.
  - unfold subkind_off, toggleSubkind. cbn [filter_subkinds].
    rewrite lookup_insert_eq.
    destruct (filter_subkinds filters !! sub) as [[|]|]; reflexivity.
  - intros Hnone. unfold subkind_off, toggleSubkind. cbn [filter_subkinds].
    rewrite !lookup_insert_eq, Hnone. repeat split.
Qed.

(** ** End of the further properties *)

End Host.

(** * Closed instances *)

(** ** C1 *)

(** C1: one tail response with two event lines of the same id and event_seq
    leaves two entries with the key ["a:1"]. *)
Lemma C1_two_entries_one_key :
  let s' := deliverAll print_json [DeliverChunk StreamWs (tail_page (Some 0))]
              (initialState "t") in
  List.map Item.eventKey (items s') = [Some "a:1"; Some "a:1"]
  /\ List.map Item.id (items s') = ["0-user"; "1-user"]
  /\ error s' = None.
Proof. vm_compute. repeat split. Qed.

Lemma C1_live_keys_unique_witness :
  let ds := [DeliverChunk StreamWs (tail_page (Some 0))] in
  forallb (converts print_json) ds = true
  /\ items (deliverAll print_json ds (initialState "t")) = [first_entry; second_entry]
  /\ Item.origin first_entry = Some history
  /\ Item.origin second_entry = Some history.
Proof.
  cbv zeta. split; [vm_compute; reflexivity|]. split; [vm_compute; reflexivity|].
  apply (C1_live_keys_unique print_json [DeliverChunk StreamWs (tail_page (Some 0))]
           (initialState "t") 0 1 first_entry second_entry "a:1");
    [ reflexivity | vm_compute; reflexivity | discriminate
    | vm_compute; reflexivity | vm_compute; reflexivity | reflexivity | reflexivity ].
Defined.

(** Why the lines must convert: a tail response whose conversion throws
    resets the seen keys and leaves the list; the event delivered again is
    then appended again, and two live entries carry the key. *)
Example key_after_a_response_that_throws :
  let thrown := Chunk.mk [throwing_line 5] None None false None None (Some "tail") in
  let s' := deliverAll print_json
              [DeliverEvent "r" keyed_event; DeliverEvent "r" keyed_event;
               DeliverChunk StreamWs thrown; DeliverEvent "r" keyed_event]
              (initialState "t") in
  converts print_json (DeliverChunk StreamWs thrown) = false
  /\ List.map Item.eventKey (items s') = [Some "a:1"; Some "a:1"]
  /\ List.map Item.origin (items s') = [Some event; Some event].
Proof. vm_compute. repeat split. Qed.

(** ** C2 *)

Lemma C2_tail_twice_witness :
  items (deliver print_json (DeliverChunk StreamWs (tail_page (Some 0)))
           (deliver print_json (DeliverChunk StreamWs (tail_page (Some 0)))
              (initialState "t")))
  = items (deliver print_json (DeliverChunk StreamWs (tail_page (Some 0)))
             (initialState "t")).
Proof.
  apply (C2_tail_twice print_json StreamWs (tail_page (Some 0)) (initialState "t")).
  reflexivity.
Defined.

(** ** C3 *)

(** C3: a truncated tail response of two entries without a start index
    schedules nothing and sends nothing. *)
Lemma C3_no_follow_up_without_start_index :
  let s' := deliver print_json (DeliverChunk StreamWs (tail_page None)) (initialState "t") in
  items s' = tail_entries
  /\ Chunk.truncated (tail_page None) = true
  /\ messageCountFor (activeId (initialState "t")) (initialState "t") = None
  /\ timers s' = []
  /\ primeFillTimerRef s' = None
  /\ outbox s' = []
  /\ pendingHistoryRequests s' = [].
Proof. vm_compute. repeat split. Qed.

Lemma C3_tail_follow_up_witness :
  exists s',
    handleHistoryChunk print_json (tail_page (Some 0)) (initialState "t") = Returned s'
    /\ timers s' = [mkTimer 0 200 (PrimeFillTimer 0 198)]
    /\ pendingHistoryRequests (fireTimer 0 0 s')
       = [Req.mk (Some 0) None None (Some 198)].
Proof.
  destruct (C3_tail_follow_up print_json (tail_page (Some 0)) (initialState "t")
              tail_entries 0 0)
    as (s' & Hret & _ & Htimers & _ & _ & Hsent);
    [ reflexivity | reflexivity | reflexivity | vm_compute; reflexivity
    | vm_compute; reflexivity | intros count H; vm_compute in H; discriminate
    | constructor | ].
  exists s'. split; [exact Hret|]. split; [exact Htimers|].
  destruct Hsent as [(c & Ho & Hp) | (Ho & Hp)]; [|exact Hp].
  exfalso. clear - Ho Hret.
  vm_compute in Hret. injection Hret as <-. vm_compute in Ho. discriminate.
Defined.

(** ** C4 *)

(** A run with a session: the activation and its watchers, two closes of a
    history socket before it opened, the confirmation of the resume, the
    stream opening, and a jump to the end.  The two history requests go
    over the stream socket. *)
Example history_requests_over_the_stream :
  let s := callbacks print_json
             [OnActivate (Some "A"); OnLoadSession "A"; OnHistoryKey "u";
              OnHistoryClose (mkRun "u" "A" "t") false false 0;
              OnHistoryClose (mkRun "u" "A" "t") false false 0;
              OnResumed (mkResumed (Some "A") (Some "A"));
              OnStreamKey; OnStreamOpen; OnJumpToEnd]
             (initialState "t") in
  historyWsModeRef s = ws_stream
  /\ historyWsDisabledRef s = true
  /\ historyKey s = None
  /\ wsRef s = Some OPEN
  /\ outbox s
     = [(StreamWs, history_request (Req.mk None None (Some "tail") (Some 40)) None);
        (StreamWs, history_request (Req.mk None None (Some "tail") (Some 200)) None)].
Proof. vm_compute. repeat split. Qed.

(** ** C6 *)

(** C6: of the lines 0 to 9, none of them seen, the agent_message event at
    index 3 is dropped, superseded by the assistant response item at
    index 5. *)
Lemma C6_superseded_line_dropped :
  let s' := deliver print_json (DeliverChunk StreamWs (before_page superseding_lines))
              seen_10_50 in
  List.map Line.index superseding_lines = List.map Some (seqZ 0 16)
  /\ List.map Item.index (items s') = List.map Some [0; 1; 2; 4; 5; 6; 7; 8; 9]
  /\ error s' = None.
Proof. vm_compute. repeat split. Qed.

Lemma C6_before_page_witness :
  exists s',
    handleHistoryChunk print_json (before_page user_lines) seen_10_50 = Returned s'
    /\ List.map Item.index (items s') = List.map Some (seqZ 0 10).
Proof.
  destruct (C6_before_page print_json (before_page user_lines) seen_10_50)
    as (_ & H); [reflexivity | reflexivity | vm_compute; reflexivity | reflexivity |].
  destruct (parseHistoryItems print_json _) as [parsed|] eqn:Hp in H;
    [|vm_compute in Hp; discriminate].
  destruct H as (s' & Hret & _ & Hitems). exists s'. split; [exact Hret|].
  rewrite Hitems. vm_compute in Hp. injection Hp as <-. vm_compute. reflexivity.
Defined.

(** ** C7 *)



(** ** C9 *)

(** The next live index along a page that ends at 15, an event, and an
    older page. *)
Example live_index_run :
  List.map (fun ds => liveIndexRef (deliverAll print_json ds (initialState "t")))
    [ [];
      [DeliverChunk StreamWs (before_page user_lines)];
      [DeliverChunk StreamWs (before_page user_lines); DeliverEvent "r" keyless_message];
      [DeliverChunk StreamWs (before_page user_lines); DeliverEvent "r" keyless_message;
       DeliverChunk StreamWs (tail_page (Some 0))] ]
  = [None; Some 16; Some 17; Some 17].
Proof. vm_compute. reflexivity. Qed.

(** C9: after a response that ends at -5 the counter is -4; the next event
    is assigned 0, not the counter, and leaves the counter at 1.  After a
    response that ends at 2^53 the counter is 2^53; each of the next two
    events is assigned 2^53 and leaves the counter where it was. *)
Lemma C9_event_not_assigned_the_counter :
  let below := Chunk.mk [] None (Some (-5)) false None None (Some "tail") in
  let s := deliver print_json (DeliverChunk StreamWs below) (initialState "t") in
  let s' := deliver print_json (DeliverEvent "r" keyless_message) s in
  let top := Chunk.mk [] None (Some MAX_EXACT) false None None (Some "tail") in
  let t := deliver print_json (DeliverChunk StreamWs top) (initialState "t") in
  let t' := deliverAll print_json
              [DeliverEvent "r1" keyless_message; DeliverEvent "r2" keyless_message] t in
  (liveIndexRef s = Some (-4)
   /\ List.map Item.index (items s') = [Some 0]
   /\ liveIndexRef s' = Some 1)
  /\ (liveIndexRef t = Some MAX_EXACT
      /\ List.map Item.index (items t') = [Some MAX_EXACT; Some MAX_EXACT]
      /\ liveIndexRef t' = Some MAX_EXACT).
Proof. vm_compute. repeat split. Qed.

(** ** C10 *)

(** C10: the same keyless reasoning delta delivered twice leaves one entry,
    the two texts joined. *)
Lemma C10_keyless_reasoning_merged :
  let s' := deliverAll print_json
              [DeliverEvent "r1" keyless_delta; DeliverEvent "r2" keyless_delta]
              (initialState "t") in
  eventKeyFromPayload keyless_delta = None
  /\ List.map Item.text (items s') = [Some "abcabc"].
Proof. vm_compute. repeat split. Qed.

Lemma C10_keyless_event_twice_witness :
  exists s1 s2,
    handleEvent print_json "r1" keyless_message (initialState "t") = Returned s1
    /\ handleEvent print_json "r2" keyless_message s1 = Returned s2
    /\ List.map Item.id (items s2) = ["0-user"; "1-user"]
    /\ List.map Item.text (items s2) = [Some "hi"; Some "hi"].
Proof.
  destruct (C10_keyless_event_twice print_json "r1" "r2" keyless_message (initialState "t"))
    as (_ & s1 & s2 & H1 & H2 & _ & Hi & _);
    [ reflexivity | exact I | reflexivity | reflexivity | ].
  exists s1, s2. split; [exact H1|]. split; [exact H2|].
  rewrite Hi. vm_compute. split; reflexivity.
Defined.

(** ** C5 and C8 *)

(** C5: the fifth label is "Running command", not Idle. *)
Lemma C5_fifth_label_is_running :
  nth_error
    (List.map fst
       (activityTrace
          ["task_started"; "exec_command_begin"; "exec_command_begin";
           "exec_command_end"; "exec_command_end"; "task_complete"]
          (initialState "")))
    4
  = Some (Some "Running command")
  /\ composerStatus
       (fold_left (fun st t => updateActivityFromEvent t st)
          ["task_started"; "exec_command_begin"; "exec_command_begin";
           "exec_command_end"; "exec_command_end"]
          ((initialState "") <| status := "Live" |>))
     = Some "Running command".
Proof. split; reflexivity. Qed.

(** C8: a message without a requested id is accepted while another session
    is active; the runtime id of the other conversation is recorded. *)
Lemma C8_accepts_without_requested_id :
  let s := (initialState "t")
             <| activeId := Some "B" |>
             <| lastRequestedSessionRef := Some "B" |>
             <| pendingResumeRef := Some "B" |> in
  let s' := onConversationResumed (mkResumed (Some "A") None) s in
  pendingResumeRef s' = None
  /\ runtimeId s' = Some "A"
  /\ status s' = "Streaming".
Proof. cbv zeta. repeat split. Qed.

Lemma C8_resumed_requested_id_witness :
  let message := mkResumed (Some "B") (Some "B") in
  let s := (initialState "t")
             <| activeId := Some "B" |>
             <| lastRequestedSessionRef := Some "B" |>
             <| pendingResumeRef := Some "B" |> in
  truthy_str (requested_id message) = true
  /\ pendingResumeRef (onConversationResumed message s) = None.
Proof.
  split; [reflexivity|].
  apply (C8_resumed_requested_id (mkResumed (Some "B") (Some "B"))
           ((initialState "t")
              <| activeId := Some "B" |>
              <| lastRequestedSessionRef := Some "B" |>
              <| pendingResumeRef := Some "B" |>)); [reflexivity|].
  split; [reflexivity | intros _; reflexivity].
Defined.

(** ** Further properties *)

Lemma keyed_event_twice_witness :
  let once := deliver print_json (DeliverEvent "r1" keyed_event) (initialState "t") in
  eventKeyFromPayload keyed_event = Some "a:1"
  /\ deliver print_json (DeliverEvent "r2" keyed_event) once = once
  /\ "a:1" ∈ seenEventRef once.
Proof.
  cbv zeta. split; [reflexivity|].
  apply (keyed_event_twice print_json "r1" "r2" keyed_event "a:1" (initialState "t")).
  reflexivity.
Defined.

Lemma paged_response_twice_witness :
  let once := deliver print_json (DeliverChunk StreamWs (before_page user_lines))
                (initialState "t") in
  let twice := deliver print_json (DeliverChunk StreamWs (before_page user_lines)) once in
  is_anchor (before_page user_lines) = false
  /\ items twice = items once
  /\ seenLineIndexRef twice = seenLineIndexRef once
  /\ seenEventRef twice = seenEventRef once.
Proof.
  cbv zeta. split; [reflexivity|].
  apply (paged_response_twice print_json StreamWs (before_page user_lines)
           (initialState "t")); [reflexivity|].
  apply List.Forall_forall. intros line Hin.
  apply List.in_map_iff in Hin as (i & <- & _). discriminate.
Defined.

Lemma history_before_live_witness :
  let ds := [DeliverEvent "r" keyless_message;
             DeliverChunk StreamWs (before_page user_lines)] in
  history_first (items (deliverAll print_json ds (initialState "t"))) = true.
Proof.
  cbv zeta.
  apply (history_before_live print_json
           [DeliverEvent "r" keyless_message;
            DeliverChunk StreamWs (before_page user_lines)] (initialState "t")).
  reflexivity.
Defined.

Lemma activity_counters_bounded_witness :
  let run := ["exec_command_end"; "exec_command_begin"; "mcp_tool_call_end"] in
  0 <= activeExecCountRef (feedActivity run (initialState ""))
    <= activeExecCountRef (initialState "") + execBegins run
  /\ 0 <= activeToolCountRef (feedActivity run (initialState ""))
       <= activeToolCountRef (initialState "") + toolBegins run.
Proof.
  cbv zeta.
  apply (activity_counters_bounded
           ["exec_command_end"; "exec_command_begin"; "mcp_tool_call_end"]
           (initialState "")); apply Z.le_refl.
Defined.

Lemma exec_commands_balance_witness :
  activeExecCountRef
    (feedActivity
       (List.repeat "exec_command_begin" 2 ++ List.repeat "exec_command_end" 3)
       (initialState ""))
  = Z.max 0 (activeExecCountRef (initialState "") + Z.of_nat 2 - Z.of_nat 3).
Proof.
  apply (exec_commands_balance 2 3 (initialState "")). apply Z.le_refl.
Defined.

Lemma queued_request_sent_on_open_witness :
  let request := Req.mk (Some 5) None None (Some 200) in
  let s' := streamOnOpen (sendHistoryRequest request (initialState "t")) in
  outbox (sendHistoryRequest request (initialState "t")) = outbox (initialState "t")
  /\ pendingHistoryRequests s' = []
  /\ exists opening,
       outbox s'
       = (outbox (initialState "t")
            ++ List.map (fun queued => (StreamWs, buildHistoryPayload queued (initialState "t")))
                 (pendingHistoryRequests (initialState "t") ++ [request])
            ++ opening)%list
       /\ (List.length opening <= 1)%nat
       /\ Forall (fun p => fst p = StreamWs) opening.
Proof.
  cbv zeta.
  apply (queued_request_sent_on_open (Req.mk (Some 5) None None (Some 200))
           (initialState "t")); reflexivity.
Defined.

Lemma prime_timer_single_witness :
  let s := initialState "t" in
  schedulePrimeHistory true (schedulePrimeHistory true s) = schedulePrimeHistory true s
  /\ timers (cancelPrimeHistory (schedulePrimeHistory true s)) = timers s
  /\ primeHistoryTimerRef (cancelPrimeHistory (schedulePrimeHistory true s)) = None.
Proof.
  cbv zeta.
  apply (prime_timer_single true (initialState "t")); [constructor | reflexivity].
Defined.

Lemma no_history_channel_after_switch_witness :
  let s' := callbacks print_json [OnStreamOpen; OnLoadOlder]
              (activateSession (Some "B") session_A) in
  historyWsDisabledRef s' = true
  /\ historyWsRef s' = None
  /\ historyKey s' = None
  /\ off_history (outbox session_A) (outbox s').
Proof.
  cbv zeta.
  apply (no_history_channel_after_switch print_json "B" session_A
           [OnStreamOpen; OnLoadOlder]);
    [ discriminate | discriminate | left; reflexivity ].
Defined.

Lemma parsed_entries_come_from_lines_witness :
  exists parsed,
    parseHistoryItems print_json [keyed_line 0 "x"; keyed_line 1 "y"] = Some parsed
    /\ Forall
         (fun item =>
            exists line,
              In line [keyed_line 0 "x"; keyed_line 1 "y"] /\ from_line line item)
         parsed.
Proof.
  destruct (parseHistoryItems print_json [keyed_line 0 "x"; keyed_line 1 "y"])
    as [parsed|] eqn:Hp; [|vm_compute in Hp; discriminate].
  exists parsed. split; [reflexivity|].
  exact (parsed_entries_come_from_lines print_json _ _ Hp).
Defined.

Lemma stream_rollout_matches_requests_witness :
  let s := (initialState "t") <| activeId := Some "B" |> <| runtimeId := Some "R" |> in
  let request := Req.mk (Some 5) None None (Some 200) in
  streamTarget s = Some (mkStreamTarget "t" "R" (Some "B"))
  /\ buildHistoryPayload request s = history_request request (Some "B").
Proof.
  cbv zeta. split; [reflexivity|].
  apply (stream_rollout_matches_requests
           ((initialState "t") <| activeId := Some "B" |> <| runtimeId := Some "R" |>)
           (mkStreamTarget "t" "R" (Some "B"))
           (Req.mk (Some 5) None None (Some 200))).
  reflexivity.
Defined.

Lemma resume_opens_stream_witness :
  let s1 := activateSession (Some "B") session_A in
  let s2 := onConversationResumed (mkResumed (Some "R") (Some "B")) s1 in
  streamTarget s1 = None
  /\ streamTarget s2 = Some (mkStreamTarget "t" "R" (Some "B"))
  /\ pendingResumeRef s2 = None
  /\ status s2 = "Streaming".
Proof.
  cbv zeta.
  apply (resume_opens_stream "B" "R" session_A);
    [ discriminate | discriminate | discriminate | discriminate | left; reflexivity ].
Defined.

Lemma compactLabel_fits_witness :
  let label := compactLabel (fun value => value) "hello world" 8 in
  label = "hello..."
  /\ Z.of_nat (String.length label) <= 8.
Proof.
  cbv zeta. split; [reflexivity|].
  apply (compactLabel_fits (fun value => value) "hello world" 8). discriminate.
Defined.

Lemma anchored_response_replaces_witness :
  exists s',
    handleHistoryChunk print_json (tail_page (Some 0)) (initialState "t") = Returned s'
    /\ items s' = tail_entries
    /\ historyMode s' = mode_tail
    /\ historyStart s' = Some 0
    /\ historyEnd s' = Some 1
    /\ hasMore s' = true.
Proof.
  pose proof (anchored_response_replaces print_json (tail_page (Some 0))
                (initialState "t") eq_refl) as H.
  cbv zeta in H.
  destruct (anchorItems print_json (tail_page (Some 0))) as [h|] eqn:Hp in H;
    [|vm_compute in Hp; discriminate].
  vm_compute in Hp. injection Hp as <-.
  destruct H as (s' & Hret & H). exists s'. split; [exact Hret | exact H].
Defined.

Lemma loadMore_follows_anchor_witness :
  exists s',
    handleHistoryChunk print_json (tail_page (Some 0)) (initialState "t") = Returned s'
    /\ outbox (loadMore s') = outbox s'
    /\ pendingHistoryRequests (loadMore s')
       = (pendingHistoryRequests s' ++ [Req.mk (Some 0) None None (Some 200)])%list.
Proof.
  destruct (loadMore_follows_anchor print_json (tail_page (Some 0)) tail_entries
              (initialState "t"))
    as (s' & Hret & H); [reflexivity | vm_compute; reflexivity |].
  exists s'. split; [exact Hret|].
  change (nextPage (tail_page (Some 0)))
    with (Some (Req.mk (Some 0) None None (Some 200))) in H.
  destruct H as [(c & Ho & Hp) | H]; [|exact H].
  exfalso. clear - Ho Hret.
  vm_compute in Hret. injection Hret as <-. vm_compute in Ho. discriminate.
Defined.
